(** * RFC 9433 address codecs (nextmn/rfc9433): a shallow embedding

    The Go packages [encoding/errors], [internal/utils] and [encoding] are
    transcribed function by function.  Conventions:

    - a Go [byte] is a [Z] in [0, 256); shifts are truncated to 8 bits;
    - a Go [uint] is a [Z] in [0, 2^64) (64-bit target), every [uint]
      addition and multiplication is reduced modulo [2^64];
    - a Go [int] used as a slice length or index is an unbounded [Z]
      (slice lengths are bounded by memory, far below [2^63]);
    - a slice or array is a [list Z]; a slice expression or an index
      outside its bounds is the run-time panic [Panic];
    - a function returning [(T, error)] returns [result T]; a buffer that
      the Go code mutates in place is threaded through and returned. *)

From Stdlib Require Import ZArith Lia.
From stdpp Require Import base tactics option list.
From coqutil Require Import Z.bitblast.

Open Scope Z_scope.

(** ** Package [errors] *)

Module errors.

Inductive error : Set :=
| ErrTooShortToMarshal
| ErrTooShortToParse
| ErrPrefixLength
| ErrOutOfRange.

End errors.
Export errors.

(** ** Outcomes of a Go call: a value, an [error], or a run-time panic *)

Inductive result (A : Type) : Type :=
| Ok (a : A)
| Err (e : error)
| Panic.
Arguments Ok {A} a.
Arguments Err {A} e.
Arguments Panic {A}.

Definition result_bind {A B} (f : A → result B) (r : result A) : result B :=
  match r with
  | Ok a => f a
  | Err e => Err e
  | Panic => Panic
  end.

#[global] Instance result_mbind : MBind result := @result_bind.
#[global] Instance result_mret : MRet result := @Ok.

(** ** Go primitives on machine integers and slices *)

Module golang.

Definition uint_size : Z := 64.

(** Conversion to [uint] and wrap-around of [uint] arithmetic. *)
Definition uint (z : Z) : Z := z `mod` 2 ^ uint_size.
Definition uadd (a b : Z) : Z := uint (a + b).
Definition umul (a b : Z) : Z := uint (a * b).
(** Conversion [int(x)] of a [uint]: two's complement reinterpretation. *)
Definition int_of_uint (z : Z) : Z :=
  if bool_decide (z < 2 ^ (uint_size - 1)) then z else z - 2 ^ uint_size.

(** Conversion [byte(x)], and the shifts and bit operations of [uint8]. *)
Definition byte (z : Z) : Z := z `mod` 256.
Definition shl8 (b o : Z) : Z := byte (Z.shiftl b o).
Definition shr8 (b o : Z) : Z := Z.shiftr b o.
Definition or8 (a b : Z) : Z := Z.lor a b.
Definition and8 (a b : Z) : Z := Z.land a b.

Definition len {A} (s : list A) : Z := Z.of_nat (length s).

(** [make([]byte, n)] *)
Definition make (n : Z) : list Z := replicate (Z.to_nat n) 0.

(** [s[i]] *)
Definition index (s : list Z) (i : Z) : result Z :=
  if bool_decide (0 ≤ i) then
    match s !! Z.to_nat i with
    | Some v => Ok v
    | None => Panic
    end
  else Panic.

(** [s[i] = v] *)
Definition store (s : list Z) (i v : Z) : result (list Z) :=
  if bool_decide (0 ≤ i < len s) then Ok (<[Z.to_nat i := v]> s) else Panic.

(** [s[i] |= v] *)
Definition store_or (s : list Z) (i v : Z) : result (list Z) :=
  old ← index s i; store s i (or8 old v).

(** [s[lo:hi]] *)
Definition slice {A} (s : list A) (lo hi : Z) : result (list A) :=
  if bool_decide (0 ≤ lo ≤ hi ∧ hi ≤ len s) then
    Ok (take (Z.to_nat (hi - lo)) (drop (Z.to_nat lo) s))
  else Panic.

(** The builtin [copy(dst, src)]: the first [min(len(dst), len(src))]
    elements of [dst] are replaced; the updated [dst] is returned. *)
Fixpoint copy (dst src : list Z) : list Z :=
  match dst, src with
  | _ :: dst', x :: src' => x :: copy dst' src'
  | _, _ => dst
  end.

(** [copy(s[lo:], src)], seen from [s]. *)
Definition copy_from (s : list Z) (lo : Z) (src : list Z) : result (list Z) :=
  if bool_decide (0 ≤ lo ≤ len s) then
    Ok (take (Z.to_nat lo) s ++ copy (drop (Z.to_nat lo) s) src)
  else Panic.

(** [for i, b := range xs { s = body i b s }], the index starting at [i]. *)
Fixpoint for_range {S : Type} (body : Z → Z → S → result S)
    (i : Z) (xs : list Z) (s : S) : result S :=
  match xs with
  | [] => Ok s
  | b :: xs' => s' ← body i b s; for_range body (i + 1) xs' s'
  end.

(** [binary.BigEndian] *)
Definition BigEndian_PutUint16 (b : list Z) (v : Z) : result (list Z) :=
  _ ← index b 1;
  b ← store b 0 (byte (Z.shiftr v 8));
  store b 1 (byte v).

Definition BigEndian_Uint16 (b : list Z) : result Z :=
  _ ← index b 1;
  b0 ← index b 0;
  b1 ← index b 1;
  Ok (Z.lor b1 (Z.shiftl b0 8)).

Definition BigEndian_PutUint32 (b : list Z) (v : Z) : result (list Z) :=
  _ ← index b 3;
  b ← store b 0 (byte (Z.shiftr v 24));
  b ← store b 1 (byte (Z.shiftr v 16));
  b ← store b 2 (byte (Z.shiftr v 8));
  store b 3 (byte v).

Definition BigEndian_Uint32 (b : list Z) : result Z :=
  _ ← index b 3;
  b0 ← index b 0;
  b1 ← index b 1;
  b2 ← index b 2;
  b3 ← index b 3;
  Ok (Z.lor (Z.lor (Z.lor b3 (Z.shiftl b2 8)) (Z.shiftl b1 16)) (Z.shiftl b0 24)).

End golang.
Import golang.

(** ** Package [utils] (src/doc.go) *)

Module utils.

(** [FromIPv6(ipv6 [16]byte, startBit uint, length uint) ([]byte, error)] *)
Definition FromIPv6 (ipv6 : list Z) (startBit length : Z) : result (list Z) :=
  if bool_decide (uint (len ipv6) < length) then Err ErrTooShortToParse
  else if bool_decide (uadd startBit (uint (umul length 8)) > umul 8 (uint (len ipv6)))
  then Err ErrOutOfRange
  else
    let startByte := startBit / 8 in
    let offset := startBit `mod` 8 in
    let ret := make length in
    if bool_decide (offset = 0) then
      src ← slice ipv6 startByte (uadd startByte length);
      Ok (copy ret src)
    else
      (* init left *)
      left ← slice ipv6 startByte (uadd startByte length);
      ret ← for_range (λ i b ret, store ret i (shl8 b offset)) 0 left ret;
      (* init right *)
      right ← slice ipv6 (uadd startByte 1) (uadd startByte length);
      for_range (λ i b ret, store_or ret i (shr8 b (8 - offset))) 0 right ret.

(** [AppendToSlice(slice []byte, endBit uint, appendThis []byte) error];
    the updated [slice] is returned on success. *)
Definition AppendToSlice (slice : list Z) (endBit : Z) (appendThis : list Z)
    : result (list Z) :=
  let endByte := endBit / 8 in
  let offset := endBit `mod` 8 in
  let isOffset := if bool_decide (offset > 0) then 1 else 0 in
  if bool_decide (isOffset + int_of_uint endByte + len appendThis > len slice)
  then Err ErrTooShortToMarshal
  else if bool_decide (offset = 0) then
    (* concatenate slices *)
    copy_from slice endByte appendThis
  else
    (* add right part of bytes *)
    slice ← for_range
      (λ i b s, store_or s (int_of_uint endByte + i) (shr8 b offset))
      0 appendThis slice;
    (* add left part of bytes *)
    for_range
      (λ i b s, store_or s (int_of_uint endByte + isOffset + i) (shl8 b (8 - offset)))
      0 appendThis slice.

End utils.

Import utils.

(** ** The part of Go's [net/netip] the codecs use

    An [Addr] is a 128-bit integer with a family tag ([z0] is the zero
    [Addr], an IPv4 address is stored IPv4-mapped); a [Prefix] stores its
    bit length plus one, so that the zero [Prefix] is invalid and [Bits]
    returns [-1] for it. *)

Module netip.

Inductive zone : Set := z0 | z4 | z6noz.

#[global] Instance zone_eq_dec : EqDecision zone.
Proof. solve_decision. Defined.

Record Addr : Set := mkAddr { addr : Z; z : zone }.

(** Big-endian reading and writing of [n] bytes. *)
Definition beUint (b : list Z) : Z :=
  foldl (λ acc x, Z.lor (Z.shiftl acc 8) x) 0 b.
Definition bePut (n : nat) (v : Z) : list Z :=
  (λ i, byte (Z.shiftr v (8 * (Z.of_nat n - 1 - i)))) <$> seqZ 0 (Z.of_nat n).

Definition AddrFrom16 (a : list Z) : Addr := mkAddr (beUint a) z6noz.
Definition AddrFrom4 (a : list Z) : Addr :=
  mkAddr (Z.lor 0xffff00000000 (beUint a)) z4.

Definition As16 (a : Addr) : list Z := bePut 16 (addr a).

Definition AsSlice (a : Addr) : list Z :=
  match z a with
  | z0 => []
  | z4 => bePut 4 (addr a `mod` 2 ^ 32)
  | z6noz => bePut 16 (addr a)
  end.

Definition BitLen (a : Addr) : Z :=
  match z a with
  | z0 => 0
  | z4 => 32
  | z6noz => 128
  end.

Record Prefix : Set := mkPrefix { ip : Addr; bitsPlusOne : Z }.

Definition zeroPrefix : Prefix := mkPrefix (mkAddr 0 z0) 0.

Definition Bits (p : Prefix) : Z := bitsPlusOne p - 1.

Definition PrefixFrom (a : Addr) (bits : Z) : Prefix :=
  mkPrefix a
    (if bool_decide (z a ≠ z0 ∧ 0 ≤ bits ≤ BitLen a) then byte bits + 1 else 0).

(** The 128-bit mask with its [n] leading bits set. *)
Definition mask6 (n : Z) : Z := Z.shiftl (Z.ones n) (128 - n).

(** [ip.Prefix(b)], without the error that [Masked] drops. *)
Definition Addr_Prefix (a : Addr) (b : Z) : Prefix :=
  if bool_decide (b < 0) then zeroPrefix
  else
    match z a with
    | z0 => zeroPrefix
    | z4 =>
        if bool_decide (b > 32) then zeroPrefix
        else PrefixFrom (mkAddr (Z.land (addr a) (mask6 (b + 96))) z4) b
    | z6noz =>
        if bool_decide (b > 128) then zeroPrefix
        else PrefixFrom (mkAddr (Z.land (addr a) (mask6 b)) z6noz) b
    end.

Definition Masked (p : Prefix) : Prefix := Addr_Prefix (ip p) (Bits p).

(** The invariant of every [Prefix] value that Go code can build. *)
Definition Prefix_wf (p : Prefix) : Prop := -1 ≤ Bits p ≤ BitLen (ip p).

End netip.

(** ** Package [encoding]: Args.Mob.Session (src/encoding/args-mob-session.go)

    A [*T] receiver or field is modelled by the [T] value it points to. *)

Module encoding.

(* Field TEID *)
Definition teidSizeByte : Z := 4.
Definition teidSizeBit : Z := teidSizeByte * 8.
Definition teidPosByte : Z := 1.
(* Field QFI *)
Definition qfiSizeBit : Z := 6.
Definition qfiPosBit : Z := 2.
Definition qfiPosByte : Z := 0.
Definition qfiMask : Z := Z.shiftr 0xFF (8 - qfiSizeBit).
(* Field R *)
Definition rSizeBit : Z := 1.
Definition rPosBit : Z := 1.
Definition rPosByte : Z := 0.
Definition rMask : Z := Z.shiftr 0xFF (8 - rSizeBit).
(* Field U *)
Definition uSizeBit : Z := 1.
Definition uPosBit : Z := 0.
Definition uPosByte : Z := 0.
Definition uMask : Z := Z.shiftr 0xFF (8 - uSizeBit).

Record ArgsMobSession : Set := mkArgsMobSession {
  qfi : Z;           (* uint8 *)
  r : Z;             (* uint8 *)
  u : Z;             (* uint8 *)
  pduSessionID : Z   (* uint32 *)
}.

Definition NewArgsMobSession (qfi : Z) (r u : bool) (pduSessionID : Z)
    : ArgsMobSession :=
  let ruint := if r then 1 else 0 in
  let uuint := if u then 1 else 0 in
  mkArgsMobSession qfi ruint uuint pduSessionID.

Definition ArgsMobSession_QFI (a : ArgsMobSession) : Z := qfi a.
Definition ArgsMobSession_R (a : ArgsMobSession) : bool :=
  if bool_decide (r a = 0) then false else true.
Definition ArgsMobSession_U (a : ArgsMobSession) : bool :=
  if bool_decide (u a = 0) then false else true.
Definition ArgsMobSession_PDUSessionID (a : ArgsMobSession) : Z := pduSessionID a.

Definition ArgsMobSession_MarshalLen (a : ArgsMobSession) : Z := 5.

(** Run [f] on the sub-slice [b[lo:hi]], which shares its storage with [b]. *)
Definition on_slice (b : list Z) (lo hi : Z)
    (f : list Z → result (list Z)) : result (list Z) :=
  sub ← slice b lo hi;
  sub' ← f sub;
  Ok (take (Z.to_nat lo) b ++ sub' ++ drop (Z.to_nat hi) b).

Definition ArgsMobSession_MarshalTo (a : ArgsMobSession) (b : list Z)
    : result (list Z) :=
  if bool_decide (len b < ArgsMobSession_MarshalLen a) then Err ErrTooShortToMarshal
  else
    b ← store_or b qfiPosByte (shl8 (and8 qfiMask (qfi a)) qfiPosBit);
    b ← store_or b rPosByte (shl8 (and8 rMask (r a)) rPosBit);
    b ← store_or b uPosByte (shl8 (and8 uMask (u a)) uPosBit);
    on_slice b teidPosByte (teidPosByte + teidSizeByte)
      (λ s, BigEndian_PutUint32 s (pduSessionID a)).

Definition ArgsMobSession_Marshal (a : ArgsMobSession) : result (list Z) :=
  ArgsMobSession_MarshalTo a (make (ArgsMobSession_MarshalLen a)).

Definition ArgsMobSession_UnmarshalBinary (b : list Z) : result ArgsMobSession :=
  if bool_decide (len b < 5) then Err ErrTooShortToParse
  else
    b0 ← index b qfiPosByte;
    let qfi := and8 qfiMask (shr8 b0 qfiPosBit) in
    b0 ← index b rPosByte;
    let r := and8 rMask (shr8 b0 rPosBit) in
    b0 ← index b uPosByte;
    let u := and8 uMask (shr8 b0 uPosBit) in
    s ← slice b teidPosByte (teidPosByte + teidSizeByte);
    id ← BigEndian_Uint32 s;
    Ok (mkArgsMobSession qfi r u id).

Definition ParseArgsMobSession (b : list Z) : result ArgsMobSession :=
  ArgsMobSession_UnmarshalBinary b.

(** *** End.M.GTP4.E SID (src/unnamed/part_002, first file) *)

Record MGTP4IPv6Dst : Set := mkMGTP4IPv6Dst {
  dst_prefix : netip.Prefix;   (* prefix in canonical form *)
  dst_ipv4 : list Z;           (* [4]byte *)
  argsMobSession : ArgsMobSession
}.

Definition NewMGTP4IPv6Dst (prefix : netip.Prefix) (ipv4 : list Z)
    (a : ArgsMobSession) : MGTP4IPv6Dst :=
  mkMGTP4IPv6Dst (netip.Masked prefix) ipv4 a.

(** The value half of a [(value, error)] pair whose error the caller does
    not look at: every error return of [FromIPv6] carries the nil slice. *)
Definition ignoring_error (r : result (list Z)) : result (list Z) :=
  match r with
  | Ok v => Ok v
  | Err _ => Ok []
  | Panic => Panic
  end.

Definition ParseMGTP4IPv6Dst (ipv6Addr : list Z) (prefixLength : Z)
    : result MGTP4IPv6Dst :=
  (* prefix extraction *)
  let a := netip.AddrFrom16 ipv6Addr in
  let prefix := netip.Masked (netip.PrefixFrom a (int_of_uint prefixLength)) in
  (* ipv4 extraction *)
  src ← FromIPv6 ipv6Addr prefixLength 4;
  src4 ← slice src 0 4;
  let ipv4 := copy (make 4) src4 in
  (* argMobSession extraction *)
  argsMobSessionSlice ← ignoring_error
    (FromIPv6 ipv6Addr (uadd prefixLength (8 * 4)) 5);
  argsMobSession ← ParseArgsMobSession argsMobSessionSlice;
  Ok (mkMGTP4IPv6Dst prefix ipv4 argsMobSession).

(** Accessors of [MGTP4IPv6Dst]. *)
Definition MGTP4IPv6Dst_IPv4 (m : MGTP4IPv6Dst) : netip.Addr :=
  netip.AddrFrom4 (dst_ipv4 m).
Definition MGTP4IPv6Dst_ArgsMobSession (m : MGTP4IPv6Dst) : ArgsMobSession :=
  argsMobSession m.
Definition MGTP4IPv6Dst_QFI (m : MGTP4IPv6Dst) : Z :=
  ArgsMobSession_QFI (argsMobSession m).
Definition MGTP4IPv6Dst_R (m : MGTP4IPv6Dst) : bool :=
  ArgsMobSession_R (argsMobSession m).
Definition MGTP4IPv6Dst_U (m : MGTP4IPv6Dst) : bool :=
  ArgsMobSession_U (argsMobSession m).
Definition MGTP4IPv6Dst_PDUSessionID (m : MGTP4IPv6Dst) : Z :=
  ArgsMobSession_PDUSessionID (argsMobSession m).
Definition MGTP4IPv6Dst_Prefix (m : MGTP4IPv6Dst) : netip.Prefix :=
  dst_prefix m.

Definition MGTP4IPv6Dst_MarshalLen (m : MGTP4IPv6Dst) : Z := 16.

Definition MGTP4IPv6Dst_MarshalTo (m : MGTP4IPv6Dst) (b : list Z)
    : result (list Z) :=
  if bool_decide (len b < MGTP4IPv6Dst_MarshalLen m) then Err ErrTooShortToMarshal
  else
    (* init ipv6 with the prefix *)
    let prefix := netip.As16 (netip.ip (dst_prefix m)) in
    let b := copy b prefix in
    let ipv4 := netip.AsSlice (netip.AddrFrom4 (dst_ipv4 m)) in
    let bits := netip.Bits (dst_prefix m) in
    if bool_decide (bits = -1) then Err ErrPrefixLength
    else
      (* add ipv4 *)
      b ← AppendToSlice b (uint bits) ipv4;
      argsMobSessionB ← ArgsMobSession_Marshal (argsMobSession m);
      (* add Args-Mob-Session *)
      AppendToSlice b (uint (bits + 8 * 4)) argsMobSessionB.

Definition MGTP4IPv6Dst_Marshal (m : MGTP4IPv6Dst) : result (list Z) :=
  MGTP4IPv6Dst_MarshalTo m (make (MGTP4IPv6Dst_MarshalLen m)).

(** *** IPv6 SA of End.M.GTP4.E (src/unnamed/part_002, second file) *)

(* "IPv6 Length" field *)
Definition ipv6LenEncodingSizeBit : Z := 7.
Definition ipv6LenEncodingPosBit : Z := 0.
Definition ipv6LenEncodingPosByte : Z := 15.
Definition ipv6LenEncodingMask : Z := Z.shiftr 0xFF (8 - ipv6LenEncodingSizeBit).

Record MGTP4IPv6Src : Set := mkMGTP4IPv6Src {
  src_prefix : netip.Prefix;   (* prefix in canonical form *)
  src_ipv4 : list Z;           (* [4]byte *)
  udp : Z                      (* uint16 *)
}.

Definition NewMGTP4IPv6Src (prefix : netip.Prefix) (ipv4 : list Z)
    (udpPortNumber : Z) : MGTP4IPv6Src :=
  mkMGTP4IPv6Src (netip.Masked prefix) ipv4 udpPortNumber.

Definition ParseMGTP4IPv6Src (addr : list Z) (prefixLen : Z)
    : result MGTP4IPv6Src :=
  if bool_decide (prefixLen = 0) then Err ErrPrefixLength
  else if bool_decide (uadd prefixLen (8 * 4) > 8 * 16) then
    (* Prefix is too big: no space for IPv4 Address *)
    Err ErrOutOfRange
  else
    (* prefix extraction *)
    let a := netip.AddrFrom16 addr in
    let prefix := netip.Masked (netip.PrefixFrom a (int_of_uint prefixLen)) in
    (* ipv4 extraction *)
    src ← FromIPv6 addr prefixLen 4;
    src4 ← slice src 0 4;
    let ipv4 := copy (make 4) src4 in
    Ok (mkMGTP4IPv6Src prefix ipv4 0).

Definition ParseMGTP4IPv6SrcNextMN (addr : list Z) : result MGTP4IPv6Src :=
  (* Prefix length extraction *)
  b15 ← index addr ipv6LenEncodingPosByte;
  let prefixLen := uint (and8 ipv6LenEncodingMask (shr8 b15 ipv6LenEncodingPosBit)) in
  r ← ParseMGTP4IPv6Src addr prefixLen;
  if bool_decide
       (uadd (uadd (uadd prefixLen (8 * 4)) 16) ipv6LenEncodingSizeBit > 8 * 16)
  then
    (* Prefix is too big: no space for UDP Port and "IPv6 Prefix length" *)
    Err ErrOutOfRange
  else
    (* udp port extraction *)
    src ← FromIPv6 addr (uadd prefixLen (8 * 4)) 2;
    src2 ← slice src 0 2;
    let udp2 := copy (make 2) src2 in
    u0 ← index udp2 0;
    u1 ← index udp2 1;
    port ← BigEndian_Uint16 [u0; u1];
    Ok (mkMGTP4IPv6Src (src_prefix r) (src_ipv4 r) port).

(** Accessors of [MGTP4IPv6Src]. *)
Definition MGTP4IPv6Src_IPv4 (m : MGTP4IPv6Src) : netip.Addr :=
  netip.AddrFrom4 (src_ipv4 m).
Definition MGTP4IPv6Src_UDPPortNumber (m : MGTP4IPv6Src) : Z := udp m.

Definition MGTP4IPv6Src_MarshalLen (m : MGTP4IPv6Src) : Z := 16.

Definition MGTP4IPv6Src_MarshalTo (m : MGTP4IPv6Src) (b : list Z)
    : result (list Z) :=
  if bool_decide (len b < MGTP4IPv6Src_MarshalLen m) then Err ErrTooShortToMarshal
  else
    (* init b with prefix *)
    let prefix := netip.As16 (netip.ip (src_prefix m)) in
    let b := copy b prefix in
    let ipv4 := netip.AsSlice (netip.AddrFrom4 (src_ipv4 m)) in
    udpB ← BigEndian_PutUint16 (make 2) (udp m);
    let bits := netip.Bits (src_prefix m) in
    if bool_decide (bits = -1) then Err ErrPrefixLength
    else
      (* add ipv4 *)
      b ← AppendToSlice b (uint bits) ipv4;
      (* add upd port *)
      b ← AppendToSlice b (uint (bits + 8 * 4)) udpB;
      (* add prefix length *)
      store b ipv6LenEncodingPosByte (byte bits).

Definition MGTP4IPv6Src_Marshal (m : MGTP4IPv6Src) : result (list Z) :=
  MGTP4IPv6Src_MarshalTo m (make (MGTP4IPv6Src_MarshalLen m)).

End encoding.
Import encoding.

(** * Specification vocabulary *)

(** A loop body that writes slot [c + i] of the buffer and keeps its length. *)
Definition in_place (c : Z) (body : Z → Z → list Z → result (list Z)) : Prop :=
  ∀ i b s, 0 ≤ c + i < len s →
    ∃ s', body i b s = Ok s' ∧ length s' = length s.

(** A loop body that replaces slot [c + i] by [h b old], [old] being the
    slot's content and [b] the element the loop is at. *)
Definition slot_update (c : Z) (h : Z → Z → Z)
    (body : Z → Z → list Z → result (list Z)) : Prop :=
  ∀ i b s old, 0 ≤ c + i → s !! Z.to_nat (c + i) = Some old →
    body i b s = Ok (<[Z.to_nat (c + i) := h b old]> s).

(** Bytes of the buffer that [AppendToSlice] asks for. *)
Definition needed (endBit n : Z) : Z :=
  (if bool_decide (endBit `mod` 8 > 0) then 1 else 0) + endBit / 8 + n.

(** Every buffer operation of the codecs decides success from the length of
    the buffer alone and computes slot [i] of the result from slot [i] of
    the buffer alone.  Two runs on buffers of one length therefore end the
    same way, and agree afterwards wherever they agreed before. *)
Definition lockstep (f : list Z → result (list Z)) : Prop :=
  ∀ s t : list Z, length s = length t →
    match f s, f t with
    | Ok s', Ok t' =>
        length s' = length t' ∧ ∀ i : nat, s !! i = t !! i → s' !! i = t' !! i
    | Err e, Err e' => e = e'
    | Panic, Panic => True
    | _, _ => False
    end.

(** Bit [k] of a buffer, bit 0 being the most significant bit of byte 0. *)
Definition bit (buf : list Z) (k : Z) : bool :=
  Z.testbit (buf !!! Z.to_nat (k / 8)) (7 - k `mod` 8).

(** The buffer [s] with the bytes [app] written over it from byte [k] on. *)
Definition splice (s : list Z) (k : nat) (app : list Z) : list Z :=
  take k s ++ app ++ drop (k + length app) s.

(** Well-formed values of the data model: bytes, a canonical IPv6 prefix,
    and fields within their bit width. *)
Definition is_byte (b : Z) : Prop := 0 ≤ b < 256.

Definition ipv6_prefix (p : netip.Prefix) : Prop :=
  netip.z (netip.ip p) = netip.z6noz ∧
  0 ≤ netip.addr (netip.ip p) < 2 ^ 128 ∧
  0 ≤ netip.Bits p ≤ 128 ∧
  netip.Masked p = p.

Definition ArgsMobSession_wf (a : ArgsMobSession) : Prop :=
  0 ≤ qfi a < 64 ∧ 0 ≤ r a < 2 ∧ 0 ≤ u a < 2 ∧ 0 ≤ pduSessionID a < 2 ^ 32.

Definition MGTP4IPv6Dst_wf (m : MGTP4IPv6Dst) : Prop :=
  ipv6_prefix (dst_prefix m) ∧
  length (dst_ipv4 m) = 4%nat ∧ Forall is_byte (dst_ipv4 m) ∧
  ArgsMobSession_wf (argsMobSession m).

Definition MGTP4IPv6Src_wf (m : MGTP4IPv6Src) : Prop :=
  ipv6_prefix (src_prefix m) ∧
  length (src_ipv4 m) = 4%nat ∧ Forall is_byte (src_ipv4 m) ∧
  0 ≤ udp m < 2 ^ 16.

(** Byte [i] of a payload, and 0 on either side of it. *)
Definition payload_byte (app : list Z) (i : Z) : Z :=
  if bool_decide (0 ≤ i) then default 0 (app !! Z.to_nat i) else 0.

(** * Properties *)

(** Linear arithmetic with division and remainder by constants. *)
Ltac div_mod_lia := Z.to_euclidean_division_equations; lia.

(** ** Slices, indices and loops *)

Section slices.

Implicit Types s t src : list Z.

Lemma bind_Ok {A B} (a : A) (f : A → result B) : Ok a ≫= f = f a.
Proof. reflexivity. Qed.

Lemma len_nonneg {A} (l : list A) : 0 ≤ len l.
Proof. unfold len. lia. Qed.

Lemma index_lookup s i v :
  0 ≤ i → s !! Z.to_nat i = Some v → index s i = Ok v.
Proof.
  intros Hi Hv. unfold index.
  rewrite bool_decide_eq_true_2 by done. by rewrite Hv.
Qed.

Lemma index_in_range s i :
  0 ≤ i < len s → ∃ v, s !! Z.to_nat i = Some v ∧ index s i = Ok v.
Proof.
  intros Hi. destruct (lookup_lt_is_Some_2 s (Z.to_nat i)) as [v Hv].
  { unfold len in Hi. lia. }
  exists v. split; [done|]. apply index_lookup; [lia|done].
Qed.

Lemma index_out_of_range s i : ¬ (0 ≤ i < len s) → index s i = Panic.
Proof.
  intros Hi. unfold index. case_bool_decide; [|done].
  rewrite lookup_ge_None_2; [done|]. unfold len in Hi. lia.
Qed.

Lemma store_in_range s i v :
  0 ≤ i < len s → store s i v = Ok (<[Z.to_nat i := v]> s).
Proof. intros Hi. unfold store. by rewrite bool_decide_eq_true_2. Qed.

Lemma store_or_in_range s i v :
  0 ≤ i < len s →
  ∃ old, s !! Z.to_nat i = Some old ∧
         store_or s i v = Ok (<[Z.to_nat i := or8 old v]> s).
Proof.
  intros Hi. destruct (index_in_range s i Hi) as (old & Hold & Hidx).
  exists old. split; [done|]. unfold store_or. rewrite Hidx. simpl.
  by apply store_in_range.
Qed.

Lemma store_or_out_of_range s i v : ¬ (0 ≤ i < len s) → store_or s i v = Panic.
Proof. intros Hi. unfold store_or. by rewrite index_out_of_range. Qed.

Lemma length_copy dst src : length (copy dst src) = length dst.
Proof.
  revert src. induction dst as [|d dst IH]; intros [|x src]; simpl; auto.
Qed.

Lemma lookup_copy dst src (i : nat) :
  copy dst src !! i =
  match dst !! i with
  | Some d => Some (default d (src !! i))
  | None => None
  end.
Proof.
  revert src i. induction dst as [|d dst IH]; intros [|x src] [|i]; simpl; try done.
  by destruct (dst !! i).
Qed.

Lemma copy_exact dst src : length dst = length src → copy dst src = src.
Proof.
  revert src. induction dst as [|d dst IH]; intros [|x src]; simpl; try done.
  intros [= Hl]. f_equal. by apply IH.
Qed.

Lemma copy_make_exact' n (src : list Z) :
  length src = Z.to_nat n → copy (make n) src = src.
Proof.
  intros Hn. apply copy_exact. unfold make. by rewrite length_replicate.
Qed.

Lemma slice_all {A} (l : list A) n : n = len l → slice l 0 n = Ok l.
Proof.
  intros ->. unfold slice. rewrite bool_decide_eq_true_2.
  - f_equal. change (Z.to_nat 0) with 0%nat. rewrite drop_0.
    apply take_ge. unfold len. lia.
  - pose proof (len_nonneg l). lia.
Qed.

Lemma in_place_store c f body :
  (∀ i b s, body i b s = store s (c + i) (f b)) → in_place c body.
Proof.
  intros Hbody i b s Hi. rewrite Hbody, store_in_range by done.
  eexists. split; [done|]. apply length_insert.
Qed.

Lemma in_place_store_or c f body :
  (∀ i b s, body i b s = store_or s (c + i) (f b)) → in_place c body.
Proof.
  intros Hbody i b s Hi. rewrite Hbody.
  destruct (store_or_in_range s (c + i) (f b) Hi) as (old & _ & ->).
  eexists. split; [done|]. apply length_insert.
Qed.

Lemma for_range_in_place c body :
  in_place c body →
  ∀ xs i s, 0 ≤ c + i → c + i + len xs ≤ len s →
    ∃ s', for_range body i xs s = Ok s' ∧ length s' = length s.
Proof.
  intros Hbody. induction xs as [|b xs IH]; intros i s Hlo Hhi; simpl.
  - by exists s.
  - unfold len in Hhi. simpl in Hhi.
    destruct (Hbody i b s) as (s1 & -> & Hl1); [unfold len; lia|]. simpl.
    destruct (IH (i + 1) s1) as (s2 & -> & Hl2); [lia|unfold len; lia|].
    exists s2. split; [done|]. congruence.
Qed.

Lemma slot_update_store c f body :
  (∀ i b s, body i b s = store s (c + i) (f b)) →
  slot_update c (λ b _, f b) body.
Proof.
  intros Hbody i b s old Hi Hold. rewrite Hbody. apply store_in_range.
  apply lookup_lt_Some in Hold. unfold len. lia.
Qed.

Lemma slot_update_store_or c f body :
  (∀ i b s, body i b s = store_or s (c + i) (f b)) →
  slot_update c (λ b old, or8 old (f b)) body.
Proof.
  intros Hbody i b s old Hi Hold. rewrite Hbody.
  destruct (store_or_in_range s (c + i) (f b)) as (old' & Hold' & ->).
  - apply lookup_lt_Some in Hold. unfold len. lia.
  - congruence.
Qed.

(** What a loop of slot updates leaves in every slot. *)
Lemma for_range_slot_update c h body :
  slot_update c h body →
  ∀ xs i s, 0 ≤ c + i → c + i + len xs ≤ len s →
    ∃ s', for_range body i xs s = Ok s' ∧ length s' = length s ∧
      ∀ j : nat, s' !! j =
        if decide (Z.to_nat (c + i) ≤ j)%nat then
          match xs !! (j - Z.to_nat (c + i))%nat with
          | Some b => h b <$> s !! j
          | None => s !! j
          end
        else s !! j.
Proof.
  intros Hbody. induction xs as [|b xs IH]; intros i s Hlo Hhi; simpl.
  - exists s. split; [done|]. split; [done|]. intros j.
    by destruct (decide _).
  - unfold len in Hhi. simpl in Hhi.
    destruct (lookup_lt_is_Some_2 s (Z.to_nat (c + i))) as [old Hold]; [lia|].
    rewrite (Hbody i b s old) by done. rewrite bind_Ok.
    destruct (IH (i + 1) (<[Z.to_nat (c + i) := h b old]> s))
      as (s' & -> & Hlen & Hslots); [lia|unfold len; rewrite length_insert; lia|].
    exists s'. split; [done|]. split; [by rewrite Hlen, length_insert|].
    intros j. rewrite Hslots.
    replace (Z.to_nat (c + (i + 1))) with (S (Z.to_nat (c + i))) by lia.
    destruct (decide (Z.to_nat (c + i) = j)) as [<-|Hne].
    + rewrite decide_False by lia. rewrite decide_True by lia.
      rewrite Nat.sub_diag. simpl.
      rewrite list_lookup_insert_eq by (apply lookup_lt_Some in Hold; lia).
      by rewrite Hold.
    + rewrite list_lookup_insert_ne by done.
      destruct (decide (S (Z.to_nat (c + i)) ≤ j)%nat) as [Hgt|Hlt].
      * rewrite decide_True by lia.
        by replace (j - Z.to_nat (c + i))%nat
          with (S (j - S (Z.to_nat (c + i)))) by lia.
      * by rewrite decide_False by lia.
Qed.

Lemma copy_shorter dst src :
  (length src ≤ length dst)%nat → copy dst src = src ++ drop (length src) dst.
Proof.
  revert src. induction dst as [|d dst IH]; intros [|x src]; simpl; try done.
  - lia.
  - intros Hlen. f_equal. apply IH. lia.
Qed.

Lemma slice_in_range {A} (l : list A) lo hi :
  0 ≤ lo ≤ hi → hi ≤ len l →
  ∃ r, slice l lo hi = Ok r ∧ len r = hi - lo ∧
       ∀ i : nat, (i < Z.to_nat (hi - lo))%nat → r !! i = l !! (Z.to_nat lo + i)%nat.
Proof.
  intros Hlo Hhi. unfold slice. rewrite bool_decide_eq_true_2 by done.
  eexists. split; [done|]. split.
  - unfold len in *. rewrite length_take, length_drop. lia.
  - intros i Hi. by rewrite lookup_take_lt, lookup_drop.
Qed.

Lemma uint_small z : 0 ≤ z < 2 ^ 64 → uint z = z.
Proof. intros Hz. unfold uint, uint_size. by apply Z.mod_small. Qed.

Lemma int_of_uint_small z : z < 2 ^ 63 → int_of_uint z = z.
Proof.
  intros Hz. unfold int_of_uint, uint_size.
  by rewrite bool_decide_eq_true_2.
Qed.

End slices.

(** ** The bit-window codec never panics inside its bounds *)

Section bit_window.

Implicit Types s app : list Z.

Lemma AppendToSlice_too_short s endBit app :
  0 ≤ endBit < 2 ^ 63 → needed endBit (len app) > len s →
  AppendToSlice s endBit app = Err ErrTooShortToMarshal.
Proof.
  intros HendBit Hneeded. unfold AppendToSlice, needed in *.
  rewrite int_of_uint_small by (apply Z.div_lt_upper_bound; lia).
  by rewrite bool_decide_eq_true_2.
Qed.

Lemma AppendToSlice_fits s endBit app :
  0 ≤ endBit < 2 ^ 63 → needed endBit (len app) ≤ len s →
  ∃ s', AppendToSlice s endBit app = Ok s' ∧ length s' = length s.
Proof.
  intros HendBit Hneeded. unfold AppendToSlice, needed in *.
  assert (0 ≤ endBit / 8) as Hbyte by (apply Z.div_pos; lia).
  assert (0 ≤ endBit `mod` 8 < 8) as Hoff by (apply Z.mod_pos_bound; lia).
  pose proof (len_nonneg app) as Happ.
  rewrite !int_of_uint_small by (apply Z.div_lt_upper_bound; lia).
  destruct (decide (endBit `mod` 8 > 0)) as [Hshift|Haligned].
  - rewrite (bool_decide_eq_true_2 (endBit `mod` 8 > 0)) in * by done.
    rewrite !bool_decide_eq_false_2 by lia.
    destruct (for_range_in_place (endBit / 8)
                (λ i b s0, store_or s0 (endBit / 8 + i) (shr8 b (endBit `mod` 8)))
                (in_place_store_or _ (λ b, shr8 b (endBit `mod` 8)) _ (λ _ _ _, eq_refl))
                app 0 s) as (s1 & -> & Hl1); [lia|lia|]. simpl.
    destruct (for_range_in_place (endBit / 8 + 1)
                (λ i b s0, store_or s0 (endBit / 8 + 1 + i) (shl8 b (8 - endBit `mod` 8)))
                (in_place_store_or _ (λ b, shl8 b (8 - endBit `mod` 8)) _ (λ _ _ _, eq_refl))
                app 0 s1) as (s2 & -> & Hl2); [lia|unfold len in *; lia|].
    exists s2. split; [done|]. congruence.
  - rewrite (bool_decide_eq_false_2 (endBit `mod` 8 > 0)) in * by done.
    rewrite bool_decide_eq_false_2 by lia.
    rewrite bool_decide_eq_true_2 by lia.
    unfold copy_from. rewrite bool_decide_eq_true_2 by lia.
    eexists. split; [done|].
    rewrite length_app, length_copy, length_take, length_drop.
    unfold len in *. lia.
Qed.

Lemma FromIPv6_in_range (ipv6 : list Z) startBit n :
  length ipv6 = 16%nat → 0 ≤ startBit → 1 ≤ n → startBit + 8 * n ≤ 128 →
  ∃ ret, FromIPv6 ipv6 startBit n = Ok ret ∧ len ret = n.
Proof.
  intros Hlen HstartBit Hn Hfit. unfold FromIPv6, uadd, umul.
  assert (len ipv6 = 16) as -> by (unfold len; lia).
  assert (0 ≤ startBit / 8) as Hbyte by (apply Z.div_pos; lia).
  assert (0 ≤ startBit `mod` 8 < 8) as Hoff by (apply Z.mod_pos_bound; lia).
  assert (startBit = 8 * (startBit / 8) + startBit `mod` 8) as Hdiv
    by (apply Z.div_mod; lia).
  rewrite !(uint_small 16), !(uint_small (8 * 16)), !(uint_small (n * 8)),
    !(uint_small (startBit + n * 8)), !(uint_small (startBit / 8 + n)),
    ?(uint_small (startBit / 8 + 1)) by lia.
  rewrite !bool_decide_eq_false_2 by lia.
  assert (len (make n) = n) as Hmake
    by (unfold len, make; rewrite length_replicate; lia).
  destruct (slice_in_range ipv6 (startBit / 8) (startBit / 8 + n))
    as (left & -> & Hleft & _); [lia|unfold len; lia|]. simpl.
  case_bool_decide as Haligned.
  - eexists. split; [done|]. unfold len in *. rewrite length_copy. lia.
  - destruct (for_range_in_place 0
                (λ i b ret, store ret i (shl8 b (startBit `mod` 8)))
                (in_place_store 0 (λ b, shl8 b (startBit `mod` 8)) _ (λ _ _ _, eq_refl))
                left 0 (make n)) as (ret1 & -> & Hl1); [lia|lia|]. simpl.
    destruct (slice_in_range ipv6 (startBit / 8 + 1) (startBit / 8 + n))
      as (right & -> & Hright & _); [lia|unfold len; lia|]. simpl.
    destruct (for_range_in_place 0
                (λ i b ret, store_or ret i (shr8 b (8 - startBit `mod` 8)))
                (in_place_store_or 0 (λ b, shr8 b (8 - startBit `mod` 8)) _ (λ _ _ _, eq_refl))
                right 0 ret1) as (ret2 & -> & Hl2); [lia|unfold len in *; lia|].
    exists ret2. split; [done|]. unfold len in *. lia.
Qed.

(** On a byte boundary [AppendToSlice] overwrites [len app] whole bytes. *)
Lemma AppendToSlice_aligned s k app :
  0 ≤ k < 2 ^ 60 → k + len app ≤ len s →
  AppendToSlice s (8 * k) app = Ok (splice s (Z.to_nat k) app).
Proof.
  intros Hk Hfit. unfold AppendToSlice.
  assert (8 * k / 8 = k) as ->
    by (rewrite (Z.mul_comm 8 k); apply Z.div_mul; lia).
  assert ((8 * k) `mod` 8 = 0) as ->
    by (rewrite (Z.mul_comm 8 k); apply Z.mod_mul; lia).
  rewrite int_of_uint_small by lia.
  rewrite (bool_decide_eq_false_2 (0 > 0)) by lia.
  rewrite bool_decide_eq_false_2 by lia.
  rewrite bool_decide_eq_true_2 by done.
  unfold copy_from. rewrite bool_decide_eq_true_2
    by (pose proof (len_nonneg app); lia).
  unfold splice. f_equal. f_equal. rewrite copy_shorter, drop_drop; [done|].
  rewrite length_drop. unfold len in *. lia.
Qed.

Lemma length_splice s k app :
  (k + length app ≤ length s)%nat → length (splice s k app) = length s.
Proof.
  intros Hfit. unfold splice.
  rewrite !length_app, length_take, length_drop. lia.
Qed.

Lemma lookup_splice_lt s k app (i : nat) :
  (k ≤ length s)%nat → (i < k)%nat → splice s k app !! i = s !! i.
Proof.
  intros Hk Hi. unfold splice.
  rewrite lookup_app_l by (rewrite length_take; lia).
  by apply lookup_take_lt.
Qed.

Lemma take_drop_splice s k app :
  (k ≤ length s)%nat → take (length app) (drop k (splice s k app)) = app.
Proof.
  intros Hk. unfold splice.
  rewrite drop_app_length' by (rewrite length_take; lia).
  apply take_app_length.
Qed.

Lemma Forall_splice (P : Z → Prop) s k app :
  Forall P s → Forall P app → Forall P (splice s k app).
Proof.
  intros Hs Happ. unfold splice.
  repeat apply Forall_app_2; auto using Forall_take, Forall_drop.
Qed.

(** A field read from two buffers that agree on its bytes is the same. *)
Lemma take_drop_agree (s t : list Z) (j n : nat) :
  (∀ i : nat, (j ≤ i < j + n)%nat → s !! i = t !! i) →
  take n (drop j s) = take n (drop j t).
Proof.
  intros Hagree. apply list_eq. intros i.
  destruct (decide (i < n)%nat).
  - rewrite !lookup_take_lt, !lookup_drop by done. apply Hagree. lia.
  - by rewrite !lookup_take_ge by lia.
Qed.

(** On a byte boundary [FromIPv6] is a plain sub-slice. *)
Lemma FromIPv6_aligned (ipv6 : list Z) k n :
  length ipv6 = 16%nat → 0 ≤ k → 0 ≤ n → k + n ≤ 16 →
  FromIPv6 ipv6 (8 * k) n = Ok (take (Z.to_nat n) (drop (Z.to_nat k) ipv6)).
Proof.
  intros Hlen Hk Hn Hfit. unfold FromIPv6, uadd, umul.
  assert (len ipv6 = 16) as -> by (unfold len; lia).
  assert (8 * k / 8 = k) as ->
    by (rewrite (Z.mul_comm 8 k); apply Z.div_mul; lia).
  assert ((8 * k) `mod` 8 = 0) as ->
    by (rewrite (Z.mul_comm 8 k); apply Z.mod_mul; lia).
  rewrite !(uint_small 16), !(uint_small (8 * 16)), !(uint_small (n * 8)),
    !(uint_small (8 * k + n * 8)), !(uint_small (k + n)) by lia.
  rewrite !bool_decide_eq_false_2 by lia.
  rewrite bool_decide_eq_true_2 by done.
  unfold slice. rewrite bool_decide_eq_true_2 by (unfold len; lia).
  rewrite bind_Ok. f_equal. replace (k + n - k) with n by lia.
  apply copy_make_exact'. rewrite length_take, length_drop. lia.
Qed.

(** Off a byte boundary every output byte but the last merges two source
    bytes; the last one is the shifted source byte alone, because the second
    loop ranges over [ipv6[startByte+1 : startByte+length]], which has one
    element less than the output. *)
Lemma FromIPv6_unaligned (ipv6 : list Z) startBit n :
  length ipv6 = 16%nat → 0 ≤ startBit → 1 ≤ n → startBit + 8 * n ≤ 128 →
  startBit `mod` 8 ≠ 0 →
  ∃ ret, FromIPv6 ipv6 startBit n = Ok ret ∧ len ret = n ∧
    ∀ j : nat, (j < Z.to_nat n)%nat →
      ret !! j = Some
        (if decide (j + 1 < Z.to_nat n)%nat then
           or8 (shl8 (ipv6 !!! (Z.to_nat (startBit / 8) + j)%nat) (startBit `mod` 8))
               (shr8 (ipv6 !!! (Z.to_nat (startBit / 8) + j + 1)%nat)
                     (8 - startBit `mod` 8))
         else shl8 (ipv6 !!! (Z.to_nat (startBit / 8) + j)%nat) (startBit `mod` 8)).
Proof.
  intros Hlen HstartBit Hn Hfit Hshift. unfold FromIPv6, uadd, umul.
  assert (len ipv6 = 16) as -> by (unfold len; lia).
  assert (0 ≤ startBit / 8) as Hbyte by (apply Z.div_pos; lia).
  assert (0 ≤ startBit `mod` 8 < 8) as Hoff by (apply Z.mod_pos_bound; lia).
  assert (startBit = 8 * (startBit / 8) + startBit `mod` 8) as Hdiv
    by (apply Z.div_mod; lia).
  set (k := startBit / 8) in *. set (o := startBit `mod` 8) in *.
  rewrite !(uint_small 16), !(uint_small (8 * 16)), !(uint_small (n * 8)),
    !(uint_small (startBit + n * 8)), !(uint_small (k + n)),
    !(uint_small (k + 1)) by lia.
  rewrite !bool_decide_eq_false_2 by lia.
  assert (len (make n) = n) as Hmake
    by (unfold len, make; rewrite length_replicate; lia).
  destruct (slice_in_range ipv6 k (k + n))
    as (left & -> & Hleft & Hleft_slots); [lia|unfold len; lia|].
  rewrite bind_Ok.
  destruct (for_range_slot_update 0 (λ b _, shl8 b o)
              (λ i b ret, store ret i (shl8 b o))
              (slot_update_store 0 (λ b, shl8 b o) _ (λ _ _ _, eq_refl))
              left 0 (make n)) as (ret1 & -> & Hl1 & Hslots1); [lia|lia|].
  rewrite bind_Ok.
  destruct (slice_in_range ipv6 (k + 1) (k + n))
    as (right & -> & Hright & Hright_slots); [lia|unfold len; lia|].
  rewrite bind_Ok.
  destruct (for_range_slot_update 0 (λ b old, or8 old (shr8 b (8 - o)))
              (λ i b ret, store_or ret i (shr8 b (8 - o)))
              (slot_update_store_or 0 (λ b, shr8 b (8 - o)) _ (λ _ _ _, eq_refl))
              right 0 ret1) as (ret2 & -> & Hl2 & Hslots2);
    [lia|unfold len in *; lia|].
  exists ret2. split; [done|]. split; [unfold len in *; lia|].
  intros j Hj. rewrite Hslots2, Hslots1. change (Z.to_nat (0 + 0)) with 0%nat.
  rewrite !decide_True by lia. rewrite !Nat.sub_0_r.
  assert (make n !! j = Some 0) as ->
    by (apply lookup_replicate_2; lia).
  assert (∀ i : nat, (i < 16)%nat → ipv6 !! i = Some (ipv6 !!! i)) as Hipv6.
  { intros i Hi. apply list_lookup_lookup_total_lt. lia. }
  rewrite Hleft_slots, Hipv6 by lia. simpl.
  destruct (decide (j + 1 < Z.to_nat n)%nat) as [Hinner|Hlast].
  - rewrite Hright_slots by lia.
    replace (Z.to_nat (k + 1) + j)%nat with (Z.to_nat k + j + 1)%nat by lia.
    by rewrite Hipv6 by lia.
  - rewrite (lookup_ge_None_2 right); [done|]. unfold len in Hright. lia.
Qed.

(** On a byte boundary, extract followed by append into a zeroed buffer
    copies the window and leaves every other byte zero. *)
Lemma extract_append_aligned (B : list Z) k n :
  length B = 16%nat → 0 ≤ k → 0 ≤ n → k + n ≤ 16 →
  (FromIPv6 B (8 * k) n ≫= AppendToSlice (make 16) (8 * k)) =
    Ok (splice (make 16) (Z.to_nat k) (take (Z.to_nat n) (drop (Z.to_nat k) B))).
Proof.
  intros Hlen Hk Hn Hfit. rewrite FromIPv6_aligned, bind_Ok by done.
  apply AppendToSlice_aligned; [lia|].
  unfold len. rewrite length_take, length_drop. simpl. lia.
Qed.

End bit_window.

(** ** Writes are slot-wise: lock-step runs on two buffers *)

Section lockstep.

Implicit Types s t : list Z.
Implicit Types f g : list Z → result (list Z).

Lemma lockstep_store_or i v : lockstep (λ s, store_or s i v).
Proof.
  intros s t Hlen. destruct (decide (0 ≤ i < len s)) as [Hi|Hi].
  - destruct (store_or_in_range s i v Hi) as (a & Ha & ->).
    destruct (store_or_in_range t i v) as (b & Hb & ->);
      [unfold len in *; lia|].
    split; [by rewrite !length_insert|]. intros j Hj.
    destruct (decide (Z.to_nat i = j)) as [<-|Hne].
    + rewrite !list_lookup_insert_eq by (unfold len in *; lia).
      congruence.
    + by rewrite !list_lookup_insert_ne.
  - rewrite !store_or_out_of_range; [done| |done]. unfold len in *. lia.
Qed.

Lemma lockstep_store i v : lockstep (λ s, store s i v).
Proof.
  intros s t Hlen. unfold store, len. rewrite <- Hlen.
  case_bool_decide as Hi; [|done].
  split; [by rewrite !length_insert|]. intros j Hj.
  destruct (decide (Z.to_nat i = j)) as [<-|Hne].
  - by rewrite !list_lookup_insert_eq by lia.
  - by rewrite !list_lookup_insert_ne.
Qed.

Lemma lockstep_copy_from lo src : lockstep (λ s, copy_from s lo src).
Proof.
  intros s t Hlen. unfold copy_from, len. rewrite <- Hlen.
  case_bool_decide as Hlo; [|done]. split.
  - rewrite !length_app, !length_copy, !length_take, !length_drop. lia.
  - intros i Hi. destruct (decide (i < Z.to_nat lo)%nat) as [Hlt|Hge].
    + rewrite !lookup_app_l by (rewrite length_take; lia).
      by rewrite !lookup_take_lt.
    + rewrite !lookup_app_r by (rewrite length_take; lia).
      rewrite !lookup_copy, !lookup_drop, !length_take, <- Hlen.
      replace (Z.to_nat lo + (i - Z.to_nat lo `min` length s))%nat with i by lia.
      by rewrite Hi.
Qed.

Lemma lockstep_bind f g : lockstep f → lockstep g → lockstep (λ s, f s ≫= g).
Proof.
  intros Hf Hg s t Hlen. specialize (Hf s t Hlen).
  destruct (f s) as [s1| |], (f t) as [t1| |]; simpl; try done.
  destruct Hf as [Hlen1 Hf]. specialize (Hg s1 t1 Hlen1).
  destruct (g s1) as [s2| |], (g t1) as [t2| |]; simpl; try done.
  destruct Hg as [Hlen2 Hg]. split; [done|]. auto.
Qed.

Lemma lockstep_for_range (body : Z → Z → list Z → result (list Z)) :
  (∀ i b, lockstep (body i b)) → ∀ xs i, lockstep (for_range body i xs).
Proof.
  intros Hbody. induction xs as [|b xs IH]; intros i; simpl.
  - intros s t Hlen. auto.
  - apply (lockstep_bind (body i b) (for_range body (i + 1) xs)); auto.
Qed.

Lemma lockstep_AppendToSlice endBit app :
  lockstep (λ s, AppendToSlice s endBit app).
Proof.
  intros s t Hlen.
  pose proof (lockstep_copy_from (endBit / 8) app s t Hlen) as Hcopy.
  pose proof (lockstep_bind
    (for_range (λ i b s0, store_or s0 (int_of_uint (endBit / 8) + i)
                            (shr8 b (endBit `mod` 8))) 0 app)
    (for_range (λ i b s0, store_or s0
                            (int_of_uint (endBit / 8) +
                             (if bool_decide (endBit `mod` 8 > 0) then 1 else 0) + i)
                            (shl8 b (8 - endBit `mod` 8))) 0 app)) as Hloops.
  specialize (Hloops
    (lockstep_for_range _ (λ i b, lockstep_store_or _ _) _ _)
    (lockstep_for_range _ (λ i b, lockstep_store_or _ _) _ _) s t Hlen).
  unfold AppendToSlice, len. rewrite <- Hlen. revert Hcopy Hloops.
  destruct (bool_decide (endBit `mod` 8 > 0));
    (destruct (bool_decide (_ > Z.of_nat (length s))); [done|]);
    by destruct (bool_decide (endBit `mod` 8 = 0)).
Qed.

End lockstep.

(** ** Facts about the modelled [netip] and [ArgsMobSession] values *)

Section values.

Lemma length_bePut n v : length (netip.bePut n v) = n.
Proof. unfold netip.bePut. rewrite length_fmap, length_seqZ. lia. Qed.

Lemma length_As16 a : length (netip.As16 a) = 16%nat.
Proof. apply length_bePut. Qed.

Lemma length_AsSlice_AddrFrom4 a :
  length (netip.AsSlice (netip.AddrFrom4 a)) = 4%nat.
Proof. apply length_bePut. Qed.

Lemma Prefix_wf_zeroPrefix : netip.Prefix_wf netip.zeroPrefix.
Proof. unfold netip.Prefix_wf. simpl. unfold netip.Bits, netip.BitLen. simpl. lia. Qed.

Lemma Prefix_wf_PrefixFrom a bits : netip.Prefix_wf (netip.PrefixFrom a bits).
Proof.
  unfold netip.Prefix_wf, netip.PrefixFrom, netip.Bits. simpl.
  assert (0 ≤ netip.BitLen a ≤ 128) by (unfold netip.BitLen; destruct (netip.z a); lia).
  case_bool_decide as Hvalid; [|lia].
  unfold byte. rewrite Z.mod_small; lia.
Qed.

Lemma Prefix_wf_Masked p : netip.Prefix_wf (netip.Masked p).
Proof.
  unfold netip.Masked, netip.Addr_Prefix.
  repeat first [case_bool_decide | case_match];
    auto using Prefix_wf_zeroPrefix, Prefix_wf_PrefixFrom.
Qed.

Lemma ArgsMobSession_Marshal_Ok a :
  ∃ b, ArgsMobSession_Marshal a = Ok b ∧ len b = 5.
Proof. eexists. split; reflexivity. Qed.

End values.

(** ** Big-endian integers and bytes *)

Section big_endian.

Lemma is_byte_byte z : is_byte (byte z).
Proof. unfold is_byte, byte. apply Z.mod_pos_bound. lia. Qed.

Lemma testbit_is_byte b m : is_byte b → 8 ≤ m → Z.testbit b m = false.
Proof.
  intros Hb Hm. rewrite <- (Z.mod_small b (2 ^ 8)) by (unfold is_byte in Hb; lia).
  apply Z.mod_pow2_bits_high. lia.
Qed.

Lemma is_byte_testbit b :
  0 ≤ b → (∀ m, 8 ≤ m → Z.testbit b m = false) → is_byte b.
Proof.
  intros Hpos Hhigh. unfold is_byte.
  assert (b = b `mod` 2 ^ 8) as ->; [|apply Z.mod_pos_bound; lia].
  apply Z.bits_inj'. intros m Hm. rewrite Z.testbit_mod_pow2 by lia.
  destruct (Z.ltb_spec m 8); simpl; [done|]. by apply Hhigh.
Qed.

Lemma is_byte_or8 a b : is_byte a → is_byte b → is_byte (or8 a b).
Proof.
  intros Ha Hb. apply is_byte_testbit.
  - apply Z.lor_nonneg. unfold is_byte in *. lia.
  - intros m Hm. unfold or8.
    by rewrite Z.lor_spec, !testbit_is_byte.
Qed.

Lemma testbit_byte z m :
  0 ≤ m → Z.testbit (byte z) m = bool_decide (m < 8) && Z.testbit z m.
Proof.
  intros Hm. unfold byte. change 256 with (2 ^ 8).
  rewrite Z.testbit_mod_pow2 by lia.
  by destruct (Z.ltb_spec m 8); [rewrite bool_decide_eq_true_2|rewrite bool_decide_eq_false_2 by lia].
Qed.

Lemma beUint_snoc l x :
  netip.beUint (l ++ [x]) = Z.lor (Z.shiftl (netip.beUint l) 8) x.
Proof. unfold netip.beUint. by rewrite foldl_app. Qed.

(** Bit [m] of a big-endian integer lies in byte [len l - 1 - m / 8]. *)
Lemma testbit_beUint l m :
  Forall is_byte l → 0 ≤ m →
  Z.testbit (netip.beUint l) m =
    bool_decide (m < 8 * len l) &&
    Z.testbit (l !!! Z.to_nat (len l - 1 - m / 8)) (m `mod` 8).
Proof.
  revert m. induction l as [|x l IH] using rev_ind; intros m Hbytes Hm.
  - rewrite bool_decide_eq_false_2 by (unfold len; simpl; lia).
    apply Z.testbit_0_l.
  - apply Forall_app in Hbytes as [Hl Hx%Forall_cons_1%proj1].
    rewrite beUint_snoc, Z.lor_spec. unfold len. rewrite length_app. simpl.
    destruct (decide (m < 8)) as [Hlow|Hhigh].
    + rewrite Z.shiftl_spec_low by done. simpl.
      rewrite bool_decide_eq_true_2 by lia.
      rewrite Z.div_small, Z.mod_small by lia.
      replace (Z.to_nat _) with (length l + 0)%nat by lia.
      by rewrite lookup_total_app_r, Nat.add_comm, Nat.add_sub by lia.
    + rewrite (testbit_is_byte x) by (done || lia). rewrite orb_false_r.
      rewrite Z.shiftl_spec, IH by (done || lia).
      assert (m `div` 8 = (m - 8) `div` 8 + 1) as ->
        by div_mod_lia.
      assert (m `mod` 8 = (m - 8) `mod` 8) as ->
        by div_mod_lia.
      unfold len.
      destruct (decide (m - 8 < 8 * Z.of_nat (length l))) as [Hin|Hout].
      * rewrite !bool_decide_eq_true_2 by lia. simpl.
        assert (0 ≤ (m - 8) / 8 < Z.of_nat (length l)) as Hidx.
        { split; [apply Z.div_pos; lia|apply Z.div_lt_upper_bound; lia]. }
        rewrite lookup_total_app_l by lia. do 2 f_equal. lia.
      * by rewrite !bool_decide_eq_false_2 by lia.
Qed.

Lemma lookup_bePut n v (i : nat) :
  (i < n)%nat →
  netip.bePut n v !! i =
    Some (byte (Z.shiftr v (8 * (Z.of_nat n - 1 - Z.of_nat i)))).
Proof.
  intros Hi. unfold netip.bePut.
  by rewrite list_lookup_fmap, lookup_seqZ_lt by lia.
Qed.

Lemma Forall_is_byte_bePut n v : Forall is_byte (netip.bePut n v).
Proof.
  unfold netip.bePut. apply Forall_fmap, Forall_forall. intros i _.
  apply is_byte_byte.
Qed.

(** Writing [n] bytes of an integer that has the bits of [beUint l] gives
    [l] back. *)
Lemma bePut_beUint l v :
  Forall is_byte l →
  (∀ m, 0 ≤ m < 8 * len l → Z.testbit v m = Z.testbit (netip.beUint l) m) →
  netip.bePut (length l) v = l.
Proof.
  intros Hbytes Hv. apply list_eq. intros i.
  destruct (decide (i < length l)%nat) as [Hi|Hi].
  - rewrite lookup_bePut by done.
    destruct (lookup_lt_is_Some_2 l i Hi) as [x Hx]. rewrite Hx. f_equal.
    pose proof (Forall_lookup_1 _ _ _ _ Hbytes Hx) as Hbyte.
    apply Z.bits_inj'. intros m Hm. rewrite testbit_byte by done.
    destruct (decide (m < 8)) as [Hlow|Hhigh].
    + rewrite bool_decide_eq_true_2 by done. simpl.
      rewrite Z.shiftr_spec by done.
      set (sh := Z.of_nat (length l) - 1 - Z.of_nat i).
      rewrite Hv by (unfold len; lia).
      rewrite testbit_beUint by (done || lia).
      rewrite bool_decide_eq_true_2 by (unfold len; lia). simpl.
      replace (m + 8 * sh) with (m + sh * 8) by lia.
      rewrite Z.div_add, Z.mod_add, Z.div_small, Z.mod_small by lia.
      unfold len, sh. replace (Z.to_nat _) with i by lia.
      by rewrite (list_lookup_total_correct _ _ _ Hx).
    + rewrite bool_decide_eq_false_2 by done. simpl.
      symmetry. apply testbit_is_byte; [done|lia].
  - rewrite !lookup_ge_None_2; [done|lia|rewrite length_bePut; lia].
Qed.

Lemma AsSlice_AddrFrom4 ipv4 :
  length ipv4 = 4%nat → Forall is_byte ipv4 →
  netip.AsSlice (netip.AddrFrom4 ipv4) = ipv4.
Proof.
  intros Hlen Hbytes. unfold netip.AsSlice, netip.AddrFrom4. simpl.
  rewrite <- Hlen at 1. apply bePut_beUint; [done|].
  intros m Hm. unfold len in Hm. rewrite Hlen in Hm.
  change 0xffff00000000 with (Z.shiftl 0xffff 32).
  rewrite Z.testbit_mod_pow2, Z.lor_spec, Z.shiftl_spec_low by lia.
  by destruct (Z.ltb_spec m 32); [|lia].
Qed.

Lemma BigEndian_Uint16_PutUint16 v :
  0 ≤ v < 2 ^ 16 →
  BigEndian_Uint16 [byte (Z.shiftr v 8); byte v] = Ok v.
Proof.
  intros Hv. unfold BigEndian_Uint16. simpl. f_equal.
  unfold byte. change 256 with (2 ^ 8).
  rewrite <- (Z.mod_small v (2 ^ 16)) at 3 by lia. Z.bitblast.
Qed.

Lemma BigEndian_Uint32_PutUint32 v :
  0 ≤ v < 2 ^ 32 →
  BigEndian_Uint32
    [byte (Z.shiftr v 24); byte (Z.shiftr v 16); byte (Z.shiftr v 8); byte v]
    = Ok v.
Proof.
  intros Hv. unfold BigEndian_Uint32. simpl. f_equal.
  unfold byte. change 256 with (2 ^ 8).
  rewrite <- (Z.mod_small v (2 ^ 32)) at 5 by lia. Z.bitblast.
Qed.

Lemma testbit_mask6 n m :
  0 ≤ n ≤ 128 → 0 ≤ m →
  Z.testbit (netip.mask6 n) m = bool_decide (128 - n ≤ m < 128).
Proof.
  intros Hn Hm. unfold netip.mask6.
  rewrite Z.shiftl_spec, Z.testbit_ones by lia.
  case_bool_decide; destruct (Z.leb_spec 0 (m - (128 - n)));
    destruct (Z.ltb_spec (m - (128 - n)) n); simpl; (done || lia).
Qed.

(** The masked address read back from a buffer whose first [k] bytes are
    those of a canonical prefix of [8 * k] bits is that prefix's address,
    whatever the remaining bytes are. *)
Lemma land_mask6_overwritten a k (out : list Z) :
  0 ≤ k ≤ 16 → Z.land a (netip.mask6 (8 * k)) = a →
  length out = 16%nat → Forall is_byte out →
  (∀ i : nat, (i < Z.to_nat k)%nat → out !! i = netip.bePut 16 a !! i) →
  Z.land (netip.beUint out) (netip.mask6 (8 * k)) = a.
Proof.
  intros Hk Hmasked Hlen Hbytes Hhead. apply Z.bits_inj'. intros m Hm.
  rewrite <- Hmasked. rewrite !Z.land_spec, testbit_mask6 by lia.
  case_bool_decide as Hwindow; [|by rewrite !andb_false_r].
  rewrite !andb_true_r, testbit_beUint by done.
  unfold len. rewrite Hlen, bool_decide_eq_true_2 by lia. simpl.
  assert (16 - k ≤ m / 8 < 16) as Hidx.
  { split; [apply Z.div_le_lower_bound; lia|apply Z.div_lt_upper_bound; lia]. }
  set (i := Z.to_nat (Z.of_nat 16 - 1 - m / 8)).
  assert (out !! i = Some (byte (Z.shiftr a (8 * (Z.of_nat 16 - 1 - Z.of_nat i)))))
    as Hout by (rewrite Hhead by lia; apply lookup_bePut; lia).
  rewrite (list_lookup_total_correct _ _ _ Hout).
  rewrite testbit_byte by (apply Z.mod_pos_bound; lia).
  rewrite bool_decide_eq_true_2 by (apply Z.mod_pos_bound; lia). simpl.
  rewrite Z.shiftr_spec by (apply Z.mod_pos_bound; lia). f_equal.
  unfold i. div_mod_lia.
Qed.

Lemma PrefixFrom_valid a bits :
  netip.z a = netip.z6noz → 0 ≤ bits ≤ 128 →
  netip.PrefixFrom a bits = netip.mkPrefix a (bits + 1).
Proof.
  intros Hz Hbits. unfold netip.PrefixFrom, netip.BitLen. rewrite Hz.
  rewrite bool_decide_eq_true_2 by (split; [done|lia]).
  unfold byte. by rewrite Z.mod_small by lia.
Qed.

Lemma Masked_ipv6 a bits :
  0 ≤ bits ≤ 128 →
  netip.Masked (netip.mkPrefix (netip.mkAddr a netip.z6noz) (bits + 1)) =
    netip.mkPrefix
      (netip.mkAddr (Z.land a (netip.mask6 bits)) netip.z6noz) (bits + 1).
Proof.
  intros Hbits. unfold netip.Masked, netip.Addr_Prefix, netip.Bits. simpl.
  replace (bits + 1 - 1) with bits by lia.
  rewrite !bool_decide_eq_false_2 by lia.
  by apply PrefixFrom_valid.
Qed.

Lemma parse_prefix_aligned (pfx : netip.Prefix) k (out : list Z) :
  ipv6_prefix pfx → netip.Bits pfx = 8 * k →
  length out = 16%nat → Forall is_byte out →
  (∀ i : nat, (i < Z.to_nat k)%nat → out !! i = netip.As16 (netip.ip pfx) !! i) →
  netip.Masked (netip.PrefixFrom (netip.AddrFrom16 out) (8 * k)) = pfx.
Proof.
  intros (Hz & Haddr & Hbits & Hcanon) Hk Hlen Hbytes Hhead.
  destruct pfx as [[a z] bitsPlusOne].
  unfold netip.Bits, netip.As16 in *. simpl in *. subst z.
  assert (bitsPlusOne = 8 * k + 1) as -> by lia.
  rewrite Masked_ipv6 in Hcanon by lia. injection Hcanon as Hmasked.
  rewrite PrefixFrom_valid by (done || lia).
  unfold netip.AddrFrom16. rewrite Masked_ipv6 by lia. do 2 f_equal.
  apply land_mask6_overwritten; (done || lia).
Qed.

Lemma ArgsMobSession_Marshal_bytes a :
  ArgsMobSession_Marshal a =
    Ok [or8 (or8 (or8 0 (shl8 (and8 qfiMask (qfi a)) qfiPosBit))
                 (shl8 (and8 rMask (r a)) rPosBit))
            (shl8 (and8 uMask (u a)) uPosBit);
        byte (Z.shiftr (pduSessionID a) 24);
        byte (Z.shiftr (pduSessionID a) 16);
        byte (Z.shiftr (pduSessionID a) 8);
        byte (pduSessionID a)].
Proof. reflexivity. Qed.

Lemma ArgsMobSession_UnmarshalBinary_bytes b0 b1 b2 b3 b4 :
  ArgsMobSession_UnmarshalBinary [b0; b1; b2; b3; b4] =
    BigEndian_Uint32 [b1; b2; b3; b4] ≫= λ id,
      Ok (mkArgsMobSession (and8 qfiMask (shr8 b0 qfiPosBit))
            (and8 rMask (shr8 b0 rPosBit)) (and8 uMask (shr8 b0 uPosBit)) id).
Proof. reflexivity. Qed.

(** The argument block decodes to the value it was encoded from. *)
Lemma ParseArgsMobSession_Marshal a :
  ArgsMobSession_wf a →
  ∃ b, ArgsMobSession_Marshal a = Ok b ∧ length b = 5%nat ∧
       Forall is_byte b ∧ ParseArgsMobSession b = Ok a.
Proof.
  intros (Hqfi & Hr & Hu & Hid). destruct a as [q r u id]. simpl in *.
  rewrite ArgsMobSession_Marshal_bytes. simpl.
  eexists. split; [done|]. split; [done|]. split.
  - repeat apply Forall_cons_2; try apply Forall_nil_2; try apply is_byte_byte.
    repeat apply is_byte_or8; try apply is_byte_byte. unfold is_byte. lia.
  - unfold ParseArgsMobSession.
    rewrite ArgsMobSession_UnmarshalBinary_bytes.
    rewrite BigEndian_Uint32_PutUint32, bind_Ok by done.
    f_equal. unfold and8, or8, shl8, shr8, byte.
    change qfiMask with (Z.ones 6). change rMask with (Z.ones 1).
    change uMask with (Z.ones 1). change 256 with (2 ^ 8).
    unfold qfiPosBit, rPosBit, uPosBit. f_equal.
    + rewrite <- (Z.mod_small q (2 ^ 6)) at 2 by lia. Z.bitblast.
    + rewrite <- (Z.mod_small r (2 ^ 1)) at 2 by lia. Z.bitblast.
    + rewrite <- (Z.mod_small u (2 ^ 1)) at 2 by lia. Z.bitblast.
Qed.

End big_endian.

(** ** Args.Mob.Session wire format *)

(** C5: [Marshal] of [ArgsMobSession{qfi=0, r=false, u=false, pduSessionID=1}]
    returns exactly the five bytes [00 00 00 00 01], and [Marshal] of
    [ArgsMobSession{qfi=63, r=true, u=true, pduSessionID=0xFFFFFFFF}] returns
    exactly [FF FF FF FF FF]. *)
Theorem ArgsMobSession_Marshal_examples :
  ArgsMobSession_Marshal (NewArgsMobSession 0 false false 1)
    = Ok [0x00; 0x00; 0x00; 0x00; 0x01] ∧
  ArgsMobSession_Marshal (NewArgsMobSession 63 true true 0xFFFFFFFF)
    = Ok [0xFF; 0xFF; 0xFF; 0xFF; 0xFF].
Proof. split; reflexivity. Qed.

(** ** Marshalling into a buffer *)

Section marshal.

Lemma needed_args_oversized bits :
  56 < bits → needed (bits + 8 * 4) 5 > 16.
Proof. intros Hbits. unfold needed. case_bool_decide; div_mod_lia. Qed.

(** C9: for every destination address whose prefix bit-length [p] satisfies
    [p + 32 + 40 > 128] and [p <= 128], marshalling into a 16-byte buffer
    ([MarshalTo] on any such buffer, and [Marshal], which allocates one)
    fails with [ErrTooShortToMarshal]: the capacity check of the bit-window
    append, [needed endBit (len payload) > 16], rejects the write of the
    5-byte argument block at the latest. *)
Theorem MGTP4IPv6Dst_Marshal_oversized_prefix (m : MGTP4IPv6Dst) (b : list Z) :
  length b = 16%nat →
  netip.Bits (dst_prefix m) + 32 + 40 > 128 →
  netip.Bits (dst_prefix m) ≤ 128 →
  needed (netip.Bits (dst_prefix m) + 32) 5 > 16 ∧
  MGTP4IPv6Dst_MarshalTo m b = Err ErrTooShortToMarshal ∧
  MGTP4IPv6Dst_Marshal m = Err ErrTooShortToMarshal.
Proof.
  intros Hlen Hover Hmax. set (bits := netip.Bits (dst_prefix m)) in *.
  split; [apply needed_args_oversized; lia|].
  assert (∀ buf : list Z, length buf = 16%nat →
            MGTP4IPv6Dst_MarshalTo m buf = Err ErrTooShortToMarshal) as Hany.
  { clear b Hlen. intros b Hlen. unfold MGTP4IPv6Dst_MarshalTo. fold bits.
    set (b0 := copy _ (netip.As16 _)).
    assert (len b0 = 16) as Hb0
      by (unfold len, b0; rewrite length_copy; lia).
    set (ipv4 := netip.AsSlice _).
    assert (len ipv4 = 4) as Hipv4
      by (unfold len, ipv4; by rewrite length_AsSlice_AddrFrom4).
    rewrite bool_decide_eq_false_2
      by (unfold len, MGTP4IPv6Dst_MarshalLen; lia).
    rewrite bool_decide_eq_false_2 by lia.
    rewrite !uint_small by lia.
    destruct (decide (needed bits (len ipv4) ≤ len b0)) as [Hfits|Hshort].
    - destruct (AppendToSlice_fits b0 bits ipv4) as (b1 & -> & Hb1); [lia|done|].
      destruct (ArgsMobSession_Marshal_Ok (argsMobSession m))
        as (argsB & -> & HargsB).
      rewrite !bind_Ok. apply AppendToSlice_too_short; [lia|].
      rewrite HargsB. unfold len in *. rewrite Hb1.
      pose proof (needed_args_oversized bits). lia.
    - rewrite AppendToSlice_too_short; [done|lia|lia]. }
  split; [by apply Hany|]. apply Hany. unfold make. by rewrite length_replicate.
Qed.

Lemma MGTP4IPv6Dst_Marshal_oversized_prefix_witness :
  let m := NewMGTP4IPv6Dst
             (netip.PrefixFrom (netip.AddrFrom16
                [0x20; 0x01; 0x0d; 0xb8; 0; 0; 0; 0; 0; 0; 0; 0; 0; 0; 0; 0]) 64)
             [203; 0; 113; 1] (NewArgsMobSession 5 false false 7) in
  let b := replicate 16 0xA5 in
  needed (netip.Bits (dst_prefix m) + 32) 5 > 16 ∧
  MGTP4IPv6Dst_MarshalTo m b = Err ErrTooShortToMarshal ∧
  MGTP4IPv6Dst_Marshal m = Err ErrTooShortToMarshal.
Proof.
  intros m b. apply (MGTP4IPv6Dst_Marshal_oversized_prefix m b).
  - reflexivity.
  - vm_compute. reflexivity.
  - vm_compute. discriminate.
Defined.

(** After [copy(b, prefix[:])] the first [len(prefix)] slots no longer
    depend on the buffer. *)
Lemma copy_overwrites (b c src : list Z) (i : nat) :
  length b = length c → (length src ≤ length b)%nat → (i < length src)%nat →
  copy b src !! i = copy c src !! i.
Proof.
  intros Hlen Hsrc Hi. rewrite !lookup_copy.
  destruct (lookup_lt_is_Some_2 b i) as [x ->]; [lia|].
  destruct (lookup_lt_is_Some_2 c i) as [y ->]; [lia|].
  by destruct (lookup_lt_is_Some_2 src i) as [v ->].
Qed.

Lemma take_agree (n : nat) (s t : list Z) :
  length s = length t →
  (∀ i : nat, (i < n)%nat → s !! i = t !! i) → take n s = take n t.
Proof.
  intros Hlen Hagree. apply list_eq. intros i.
  destruct (decide (i < n)%nat).
  - rewrite !lookup_take_lt by done. auto.
  - by rewrite !lookup_take_ge by lia.
Qed.

Lemma MGTP4IPv6Dst_MarshalTo_lockstep (m : MGTP4IPv6Dst) (b c b' c' : list Z) :
  length b = length c →
  MGTP4IPv6Dst_MarshalTo m b = Ok b' → MGTP4IPv6Dst_MarshalTo m c = Ok c' →
  take 16 b' = take 16 c'.
Proof.
  intros Hlen. unfold MGTP4IPv6Dst_MarshalTo, MGTP4IPv6Dst_MarshalLen, len.
  rewrite <- Hlen. case_bool_decide as Hshort; [done|].
  case_bool_decide; [done|].
  destruct (ArgsMobSession_Marshal_Ok (argsMobSession m)) as (argsB & HargsB & _).
  set (P := netip.As16 _). set (ipv4 := netip.AsSlice _).
  set (bits := netip.Bits _).
  pose proof (lockstep_bind _ _
    (lockstep_AppendToSlice (uint bits) ipv4)
    (lockstep_AppendToSlice (uint (bits + 8 * 4)) argsB)
    (copy b P) (copy c P)) as Hstep.
  rewrite HargsB. simpl in *. intros Hb Hc. rewrite Hb, Hc in Hstep.
  destruct Hstep as [Hlen' Hslots]; [by rewrite !length_copy|].
  apply take_agree; [done|]. intros i Hi. apply Hslots.
  apply copy_overwrites; [done|unfold P; rewrite length_As16; lia..].
Qed.

Lemma MGTP4IPv6Src_MarshalTo_lockstep (m : MGTP4IPv6Src) (b c b' c' : list Z) :
  length b = length c →
  MGTP4IPv6Src_MarshalTo m b = Ok b' → MGTP4IPv6Src_MarshalTo m c = Ok c' →
  take 16 b' = take 16 c'.
Proof.
  intros Hlen. unfold MGTP4IPv6Src_MarshalTo, MGTP4IPv6Src_MarshalLen, len.
  rewrite <- Hlen. case_bool_decide as Hshort; [done|].
  change (BigEndian_PutUint16 (make 2) (udp m))
    with (Ok [byte (Z.shiftr (udp m) 8); byte (udp m)]).
  set (udpB := [_; _]). simpl.
  case_bool_decide; [done|].
  set (P := netip.As16 _). set (ipv4 := netip.AsSlice _).
  set (bits := netip.Bits _).
  pose proof (lockstep_bind _ _
    (lockstep_bind _ _
      (lockstep_AppendToSlice (uint bits) ipv4)
      (lockstep_AppendToSlice (uint (bits + 8 * 4)) udpB))
    (lockstep_store ipv6LenEncodingPosByte (byte bits))
    (copy b P) (copy c P)) as Hstep.
  simpl in *. intros Hb Hc.
  destruct (AppendToSlice (copy b P) (uint bits) ipv4) as [b1| |]; [|done..].
  destruct (AppendToSlice (copy c P) (uint bits) ipv4) as [c1| |]; [|done..].
  simpl in *.
  destruct (AppendToSlice b1 _ udpB) as [b2| |]; [|done..].
  destruct (AppendToSlice c1 _ udpB) as [c2| |]; [|done..].
  simpl in *. rewrite Hb, Hc in Hstep.
  destruct Hstep as [Hlen' Hslots]; [by rewrite !length_copy|].
  apply take_agree; [done|]. intros i Hi. apply Hslots.
  apply copy_overwrites; [done|unfold P; rewrite length_As16; lia..].
Qed.

(** C10: for both composite marshals the first 16 bytes of the buffer after
    a successful [MarshalTo] depend only on the receiver: two buffers of one
    length, whatever they held before, end with identical first 16 bytes. *)
Theorem MarshalTo_first16_independent_of_buffer :
  (∀ (m : MGTP4IPv6Dst) (b c b' c' : list Z),
     length b = length c →
     MGTP4IPv6Dst_MarshalTo m b = Ok b' →
     MGTP4IPv6Dst_MarshalTo m c = Ok c' →
     take 16 b' = take 16 c') ∧
  (∀ (m : MGTP4IPv6Src) (b c b' c' : list Z),
     length b = length c →
     MGTP4IPv6Src_MarshalTo m b = Ok b' →
     MGTP4IPv6Src_MarshalTo m c = Ok c' →
     take 16 b' = take 16 c').
Proof.
  split; [apply MGTP4IPv6Dst_MarshalTo_lockstep|apply MGTP4IPv6Src_MarshalTo_lockstep].
Qed.

Lemma MarshalTo_first16_independent_of_buffer_witness :
  let d := NewMGTP4IPv6Dst
             (netip.PrefixFrom (netip.AddrFrom16
                [0x3f; 0xff; 0; 0; 0; 0; 0; 0; 0; 0; 0; 0; 0; 0; 0; 0]) 20)
             [203; 0; 113; 1] (NewArgsMobSession 0 false false 1) in
  let m := NewMGTP4IPv6Src
             (netip.PrefixFrom (netip.AddrFrom16
                [0x3f; 0xff; 0; 0; 1; 0; 0; 0; 0; 0; 0; 0; 0; 0; 0; 0]) 40)
             [203; 0; 113; 1] 12345 in
  let b := replicate 18 0x00 in
  let c := replicate 18 0xA5 in
  (∃ b' c', MGTP4IPv6Dst_MarshalTo d b = Ok b' ∧
            MGTP4IPv6Dst_MarshalTo d c = Ok c' ∧ take 16 b' = take 16 c') ∧
  (∃ b' c', MGTP4IPv6Src_MarshalTo m b = Ok b' ∧
            MGTP4IPv6Src_MarshalTo m c = Ok c' ∧ take 16 b' = take 16 c').
Proof.
  intros d m b c. split.
  - eexists _, _. split; [vm_compute; reflexivity|].
    split; [vm_compute; reflexivity|].
    apply (proj1 MarshalTo_first16_independent_of_buffer d b c);
      vm_compute; reflexivity.
  - eexists _, _. split; [vm_compute; reflexivity|].
    split; [vm_compute; reflexivity|].
    apply (proj2 MarshalTo_first16_independent_of_buffer m b c);
      vm_compute; reflexivity.
Defined.

Lemma land_prefix_length bits :
  0 ≤ bits ≤ 127 → Z.land (byte bits) ipv6LenEncodingMask = bits.
Proof.
  intros Hbits. unfold byte. rewrite (Z.mod_small bits 256) by lia.
  change ipv6LenEncodingMask with (Z.ones 7).
  rewrite Z.land_ones by lia. apply Z.mod_small. lia.
Qed.

(** C8, as the code has it: whenever [MGTP4IPv6Src.MarshalTo] succeeds,
    byte 15 of the output is the stored prefix's bit-length (0 to 128),
    assigned last as a whole byte; its low 7 bits equal the bit-length
    whenever that length is at most 127, and the length is at most 127
    whenever the buffer is shorter than 22 bytes (as the 16-byte buffer of
    [Marshal] is). *)
Theorem MGTP4IPv6Src_MarshalTo_prefix_length_byte
    (m : MGTP4IPv6Src) (b out : list Z) :
  netip.Prefix_wf (src_prefix m) →
  MGTP4IPv6Src_MarshalTo m b = Ok out →
  0 ≤ netip.Bits (src_prefix m) ≤ 128 ∧
  out !! 15%nat = Some (byte (netip.Bits (src_prefix m))) ∧
  (netip.Bits (src_prefix m) ≤ 127 →
   Z.land (byte (netip.Bits (src_prefix m))) ipv6LenEncodingMask
     = netip.Bits (src_prefix m)) ∧
  (len b < 22 → netip.Bits (src_prefix m) ≤ 127).
Proof.
  intros Hwf. unfold MGTP4IPv6Src_MarshalTo, MGTP4IPv6Src_MarshalLen.
  case_bool_decide as Hshort; [done|].
  change (BigEndian_PutUint16 (make 2) (udp m))
    with (Ok [byte (Z.shiftr (udp m) 8); byte (udp m)]).
  set (udpB := [_; _]). simpl.
  set (bits := netip.Bits _) in *. set (ipv4 := netip.AsSlice _).
  set (b0 := copy b _).
  assert (len b0 = len b) as Hb0 by (unfold len, b0; by rewrite length_copy).
  assert (len ipv4 = 4) as Hipv4
    by (unfold len, ipv4; by rewrite length_AsSlice_AddrFrom4).
  assert (bits ≤ 128) as Hmax.
  { destruct Hwf as [_ Hwf]. fold bits in Hwf.
    unfold netip.BitLen in Hwf. destruct (netip.z _); lia. }
  case_bool_decide as Hvalid; [done|].
  assert (0 ≤ bits) as Hmin by (destruct Hwf as [Hwf _]; fold bits in Hwf; lia).
  rewrite !uint_small by lia.
  destruct (AppendToSlice b0 bits ipv4) as [b1| |] eqn:Hwrite1; [|done..].
  simpl. destruct (AppendToSlice b1 _ udpB) as [b2| |] eqn:Hwrite2; [|done..].
  simpl. unfold store. case_bool_decide as Hslot; [|done]. intros [= <-].
  split; [lia|]. split; [|split].
  - change (Z.to_nat ipv6LenEncodingPosByte) with 15%nat.
    apply list_lookup_insert_eq. unfold len, ipv6LenEncodingPosByte in Hslot. lia.
  - intros Hbits. apply land_prefix_length. lia.
  - intros Hlen. destruct (decide (bits ≤ 127)) as [|Hbig]; [done|].
    assert (bits = 128) as Hbits by lia. rewrite Hbits in *.
    destruct (decide (needed 128 (len ipv4) ≤ len b0)) as [Hfits|Hnofit].
    + destruct (AppendToSlice_fits b0 128 ipv4) as (b1' & Heq & Hb1); [lia|done|].
      rewrite Hwrite1 in Heq. injection Heq as <-.
      rewrite AppendToSlice_too_short in Hwrite2; [done|lia|].
      unfold len in *. rewrite Hb1. vm_compute needed. lia.
    + rewrite AppendToSlice_too_short in Hwrite1; [done|lia|lia].
Qed.

Lemma MGTP4IPv6Src_MarshalTo_prefix_length_byte_witness :
  let m := NewMGTP4IPv6Src
             (netip.PrefixFrom (netip.AddrFrom16
                [0x3f; 0xff; 0; 0; 1; 0; 0; 0; 0; 0; 0; 0; 0; 0; 0; 0]) 40)
             [203; 0; 113; 1] 12345 in
  let out := [0x3f; 0xff; 0; 0; 1; 203; 0; 113; 1; 0x30; 0x39; 0; 0; 0; 0; 40] in
  0 ≤ netip.Bits (src_prefix m) ≤ 128 ∧
  out !! 15%nat = Some (byte (netip.Bits (src_prefix m))) ∧
  (netip.Bits (src_prefix m) ≤ 127 →
   Z.land (byte (netip.Bits (src_prefix m))) ipv6LenEncodingMask
     = netip.Bits (src_prefix m)) ∧
  (len (make 16) < 22 → netip.Bits (src_prefix m) ≤ 127).
Proof.
  intros m out.
  apply (MGTP4IPv6Src_MarshalTo_prefix_length_byte m (make 16) out).
  - vm_compute. split; discriminate.
  - vm_compute. reflexivity.
Defined.

(** C8, as stated, fails for a /128 prefix marshalled into a 22-byte
    buffer: both appends land behind byte 15, the call succeeds, byte 15 is
    [0x80] and its low 7 bits are 0, not the bit-length 128. *)
Lemma MGTP4IPv6Src_MarshalTo_slash128_counterexample :
  let m := NewMGTP4IPv6Src
             (netip.PrefixFrom (netip.AddrFrom16
                [0x20; 0x01; 0x0d; 0xb8; 0; 0; 0; 0; 0; 0; 0; 0; 0; 0; 0; 1]) 128)
             [203; 0; 113; 1] 12345 in
  netip.Prefix_wf (src_prefix m) ∧
  netip.Bits (src_prefix m) = 128 ∧
  MGTP4IPv6Src_MarshalTo m (make 22)
    = Ok [0x20; 0x01; 0x0d; 0xb8; 0; 0; 0; 0; 0; 0; 0; 0; 0; 0; 0; 0x80;
          203; 0; 113; 1; 0x30; 0x39] ∧
  Z.land 0x80 ipv6LenEncodingMask ≠ netip.Bits (src_prefix m).
Proof. vm_compute. repeat split; discriminate. Qed.

End marshal.

(** ** Parsing *)

Section parse.

Lemma copy_make_exact n (src : list Z) : len src = n → copy (make n) src = src.
Proof.
  intros Hn. apply copy_exact. unfold make, len in *.
  rewrite length_replicate. lia.
Qed.

(** Inside its range the basic source parser returns the masked prefix, the
    four bytes that [FromIPv6] extracts, and no port. *)
Lemma ParseMGTP4IPv6Src_in_range (addr : list Z) (prefixLen : Z) :
  length addr = 16%nat → 0 < prefixLen → prefixLen + 32 ≤ 128 →
  ∃ ipv4, FromIPv6 addr prefixLen 4 = Ok ipv4 ∧ len ipv4 = 4 ∧
    ParseMGTP4IPv6Src addr prefixLen =
      Ok (mkMGTP4IPv6Src
            (netip.Masked (netip.PrefixFrom (netip.AddrFrom16 addr) prefixLen))
            ipv4 0).
Proof.
  intros Hlen Hpos Hfit.
  destruct (FromIPv6_in_range addr prefixLen 4) as (ipv4 & Hipv4 & Hlen4);
    [done|lia..|].
  exists ipv4. split; [done|]. split; [done|]. unfold ParseMGTP4IPv6Src, uadd.
  rewrite uint_small, int_of_uint_small by lia.
  rewrite !bool_decide_eq_false_2 by lia.
  rewrite Hipv4, bind_Ok, slice_all, bind_Ok by done.
  by rewrite copy_make_exact.
Qed.

Lemma ParseMGTP4IPv6Src_zero (addr : list Z) :
  ParseMGTP4IPv6Src addr 0 = Err ErrPrefixLength.
Proof. reflexivity. Qed.

Lemma ParseMGTP4IPv6Src_too_big (addr : list Z) (prefixLen : Z) :
  128 < prefixLen + 32 < 2 ^ 64 →
  ParseMGTP4IPv6Src addr prefixLen = Err ErrOutOfRange.
Proof.
  intros Hbig. unfold ParseMGTP4IPv6Src, uadd.
  rewrite uint_small by lia.
  rewrite bool_decide_eq_false_2 by lia.
  by rewrite bool_decide_eq_true_2 by lia.
Qed.

Lemma prefixLen_of_byte15 b15 :
  uint (and8 ipv6LenEncodingMask (shr8 b15 ipv6LenEncodingPosBit))
    = Z.land b15 0x7F
  ∧ 0 ≤ Z.land b15 0x7F < 128.
Proof.
  unfold and8, shr8, ipv6LenEncodingPosBit. rewrite Z.shiftr_0_r.
  change ipv6LenEncodingMask with 0x7F. rewrite (Z.land_comm 0x7F).
  assert (0 ≤ Z.land b15 0x7F < 128) as Hrange.
  { change 0x7F with (Z.ones 7). rewrite Z.land_ones by lia.
    apply Z.mod_pos_bound. lia. }
  split; [|done]. apply uint_small. lia.
Qed.

(** The vendor-extension parser, once byte 15 is read. *)
Lemma ParseMGTP4IPv6SrcNextMN_byte15 (addr : list Z) (b15 : Z) :
  addr !! 15%nat = Some b15 →
  ParseMGTP4IPv6SrcNextMN addr =
    ParseMGTP4IPv6Src addr (Z.land b15 0x7F) ≫= λ r,
      if bool_decide (Z.land b15 0x7F + 32 + 16 + 7 > 128) then Err ErrOutOfRange
      else
        src ← FromIPv6 addr (Z.land b15 0x7F + 32) 2;
        src2 ← slice src 0 2;
        let udp2 := copy (make 2) src2 in
        u0 ← index udp2 0;
        u1 ← index udp2 1;
        port ← BigEndian_Uint16 [u0; u1];
        Ok (mkMGTP4IPv6Src (src_prefix r) (src_ipv4 r) port).
Proof.
  intros Hb15. destruct (prefixLen_of_byte15 b15) as [HprefixLen Hrange].
  set (p := Z.land b15 0x7F) in *. unfold ParseMGTP4IPv6SrcNextMN.
  rewrite (index_lookup addr ipv6LenEncodingPosByte b15), bind_Ok by done.
  rewrite HprefixLen. unfold uadd, ipv6LenEncodingSizeBit.
  change (8 * 4) with 32. change (8 * 16) with 128.
  by rewrite !(uint_small (p + 32)), !(uint_small (p + 32 + 16)),
    !(uint_small (p + 32 + 16 + 7)) by lia.
Qed.

(** C4: the error of the 5-byte window extraction is dropped, not returned.
    For every 16-byte address and every [prefixLength] with
    [prefixLength + 32 <= 128] and [prefixLength + 32 + 40 > 128] that
    extraction fails with [ErrOutOfRange], and [ParseMGTP4IPv6Dst] goes on
    to parse the nil slice and returns [ErrTooShortToParse] instead. *)
Theorem ParseMGTP4IPv6Dst_replaces_extraction_error
    (ipv6Addr : list Z) (prefixLength : Z) :
  length ipv6Addr = 16%nat →
  0 ≤ prefixLength →
  prefixLength + 32 ≤ 128 →
  prefixLength + 32 + 40 > 128 →
  FromIPv6 ipv6Addr (prefixLength + 32) 5 = Err ErrOutOfRange ∧
  ParseMGTP4IPv6Dst ipv6Addr prefixLength = Err ErrTooShortToParse.
Proof.
  intros Hlen Hpos Hfit Hnoroom.
  assert (FromIPv6 ipv6Addr (prefixLength + 32) 5 = Err ErrOutOfRange) as Hargs.
  { unfold FromIPv6, uadd, umul.
    assert (len ipv6Addr = 16) as -> by (unfold len; lia).
    change (uint 16) with 16. change (uint (8 * 16)) with 128.
    change (uint (uint (5 * 8))) with 40.
    rewrite uint_small by lia.
    rewrite bool_decide_eq_false_2 by lia.
    by rewrite bool_decide_eq_true_2 by lia. }
  split; [done|].
  destruct (FromIPv6_in_range ipv6Addr prefixLength 4) as (ipv4 & Hipv4 & Hlen4);
    [done|lia..|].
  unfold ParseMGTP4IPv6Dst, uadd. change (8 * 4) with 32.
  rewrite Hipv4, bind_Ok, slice_all, bind_Ok by done.
  rewrite uint_small by lia. by rewrite Hargs.
Qed.

Lemma ParseMGTP4IPv6Dst_replaces_extraction_error_witness :
  let ipv6Addr :=
    [0x20; 0x01; 0x0d; 0xb8; 0; 0; 0; 0; 203; 0; 113; 1; 0x14; 0; 0; 0] in
  FromIPv6 ipv6Addr (64 + 32) 5 = Err ErrOutOfRange ∧
  ParseMGTP4IPv6Dst ipv6Addr 64 = Err ErrTooShortToParse.
Proof.
  intros ipv6Addr.
  apply (ParseMGTP4IPv6Dst_replaces_extraction_error ipv6Addr 64).
  - reflexivity.
  - lia.
  - lia.
  - lia.
Defined.

(** C6 at the top of the [uint] range: for [prefixLen = 2^64 - 32] the sum
    [prefixLen + 8*4] wraps to 0, both range checks pass, and the slice
    expression in [FromIPv6] panics; no [ErrOutOfRange] is returned. *)
Theorem ParseMGTP4IPv6Src_wraps_and_panics :
  uadd (2 ^ 64 - 32) (8 * 4) = 0 ∧
  ParseMGTP4IPv6Src (make 16) (2 ^ 64 - 32) = Panic.
Proof. split; reflexivity. Qed.

(** Below that wrap-around the basic source parser behaves as C6 says. *)
Lemma ParseMGTP4IPv6Src_cases (addr : list Z) (prefixLen : Z) :
  length addr = 16%nat → 0 ≤ prefixLen → prefixLen + 32 < 2 ^ 64 →
  (ParseMGTP4IPv6Src addr prefixLen = Err ErrPrefixLength ↔ prefixLen = 0) ∧
  (prefixLen ≠ 0 → prefixLen + 32 > 128 →
   ParseMGTP4IPv6Src addr prefixLen = Err ErrOutOfRange) ∧
  (prefixLen ≠ 0 → prefixLen + 32 ≤ 128 →
   ∃ r, ParseMGTP4IPv6Src addr prefixLen = Ok r ∧ udp r = 0).
Proof.
  intros Hlen Hpos Hnowrap. split; [split|split].
  - intros Herr. destruct (decide (prefixLen = 0)) as [|Hne]; [done|].
    destruct (decide (prefixLen + 32 ≤ 128)).
    + destruct (ParseMGTP4IPv6Src_in_range addr prefixLen)
        as (? & _ & _ & Hok); [done|lia..|]. congruence.
    + rewrite ParseMGTP4IPv6Src_too_big in Herr by lia. congruence.
  - intros ->. apply ParseMGTP4IPv6Src_zero.
  - intros Hne Hbig. apply ParseMGTP4IPv6Src_too_big. lia.
  - intros Hne Hfit.
    destruct (ParseMGTP4IPv6Src_in_range addr prefixLen)
      as (? & _ & _ & Hok); [done|lia..|].
    eexists. split; [done|]. done.
Qed.

End parse.

(** ** The carry into the last extracted byte *)

Section window.

(** C2 at [startBit = 4], [length = 1]: the only (hence last) output byte is
    [source[0] << 4] alone; the high bits of [source[1]] are not merged in,
    where the bit window asks for [0x0F]. *)
Theorem FromIPv6_last_byte_without_next :
  let ipv6 := [0x00; 0xFF; 0; 0; 0; 0; 0; 0; 0; 0; 0; 0; 0; 0; 0; 0] in
  FromIPv6 ipv6 4 1 = Ok [shl8 0x00 4] ∧
  shl8 0x00 4 = 0x00 ∧
  or8 (shl8 0x00 4) (shr8 0xFF (8 - 4)) = 0x0F.
Proof. repeat split; reflexivity. Qed.

(** C3 at [startBit = 4], [lengthBytes = 1] on an all-ones buffer: extract
    followed by append into a zeroed buffer sets bits 4 to 7 only; bits 8
    to 11 of the window stay zero. *)
Theorem extract_append_drops_window_tail :
  let B := replicate 16 0xFF in
  let out := [0x0F; 0x00; 0; 0; 0; 0; 0; 0; 0; 0; 0; 0; 0; 0; 0; 0] in
  (FromIPv6 B 4 1 ≫= AppendToSlice (make 16) 4) = Ok out ∧
  bit B 8 = true ∧ bit out 8 = false.
Proof. repeat split; reflexivity. Qed.

(** The address of [ExampleMGTP4IPv6Dst]: prefix [3fff::/20], IPv4
    [203.0.113.1], session 1.  Marshal then parse with prefix length 20
    gives back IPv4 [203.0.113.0] and session 0: off a byte boundary the
    last byte of each extracted field loses its low bits. *)
Lemma MGTP4IPv6Dst_example_unaligned :
  let x := NewMGTP4IPv6Dst
             (netip.PrefixFrom (netip.AddrFrom16
                [0x3f; 0xff; 0; 0; 0; 0; 0; 0; 0; 0; 0; 0; 0; 0; 0; 0]) 20)
             [203; 0; 113; 1] (NewArgsMobSession 0 false false 1) in
  netip.Masked (dst_prefix x) = dst_prefix x ∧
  netip.Bits (dst_prefix x) + 32 + 40 ≤ 128 ∧
  MGTP4IPv6Dst_Marshal x
    = Ok [0x3f; 0xff; 0x0c; 0xb0; 0x07; 0x10; 0x10; 0; 0; 0; 0; 0x10; 0; 0; 0; 0] ∧
  (MGTP4IPv6Dst_Marshal x ≫= λ b, ParseMGTP4IPv6Dst b 20)
    = Ok (mkMGTP4IPv6Dst (dst_prefix x) [203; 0; 113; 0]
            (mkArgsMobSession 0 0 0 0)) ∧
  mkMGTP4IPv6Dst (dst_prefix x) [203; 0; 113; 0] (mkArgsMobSession 0 0 0 0) ≠ x.
Proof. vm_compute. repeat split; discriminate. Qed.

End window.

(** ** Round trips on a byte boundary *)

Section roundtrip.

Lemma MGTP4IPv6Dst_Marshal_aligned (m : MGTP4IPv6Dst) k argsB :
  length (dst_ipv4 m) = 4%nat → Forall is_byte (dst_ipv4 m) →
  netip.Bits (dst_prefix m) = 8 * k → 0 ≤ k → k + 9 ≤ 16 →
  ArgsMobSession_Marshal (argsMobSession m) = Ok argsB →
  length argsB = 5%nat →
  MGTP4IPv6Dst_Marshal m =
    Ok (splice
          (splice (netip.As16 (netip.ip (dst_prefix m))) (Z.to_nat k) (dst_ipv4 m))
          (Z.to_nat k + 4) argsB).
Proof.
  intros Hlen4 Hbytes Hbits Hk Hfit HargsB Hlen5.
  unfold MGTP4IPv6Dst_Marshal, MGTP4IPv6Dst_MarshalTo, MGTP4IPv6Dst_MarshalLen.
  rewrite bool_decide_eq_false_2 by (by vm_compute).
  rewrite copy_make_exact' by (by rewrite length_As16).
  rewrite AsSlice_AddrFrom4, Hbits by done.
  rewrite bool_decide_eq_false_2 by lia.
  rewrite !uint_small by lia.
  set (P := netip.As16 _).
  assert (length P = 16%nat) as HP by apply length_As16.
  assert (length (splice P (Z.to_nat k) (dst_ipv4 m)) = 16%nat) as Hlen1
    by (rewrite length_splice; lia).
  rewrite AppendToSlice_aligned, bind_Ok by (unfold len; lia).
  rewrite HargsB, bind_Ok.
  replace (8 * k + 8 * 4) with (8 * (k + 4)) by lia.
  rewrite AppendToSlice_aligned by (unfold len; lia).
  do 2 f_equal. lia.
Qed.

Lemma ParseMGTP4IPv6Dst_aligned (out : list Z) k pfx ipv4 argsB args :
  length out = 16%nat → 0 ≤ k → k + 9 ≤ 16 →
  netip.Masked (netip.PrefixFrom (netip.AddrFrom16 out) (8 * k)) = pfx →
  take 4 (drop (Z.to_nat k) out) = ipv4 →
  take 5 (drop (Z.to_nat k + 4) out) = argsB →
  ParseArgsMobSession argsB = Ok args →
  ParseMGTP4IPv6Dst out (8 * k) = Ok (mkMGTP4IPv6Dst pfx ipv4 args).
Proof.
  intros Hlen Hk Hfit Hpfx Hipv4 HargsB Hargs. unfold ParseMGTP4IPv6Dst, uadd.
  rewrite int_of_uint_small, Hpfx by lia.
  rewrite (FromIPv6_aligned out k 4), bind_Ok by (done || lia).
  change (Z.to_nat 4) with 4%nat. rewrite Hipv4.
  assert (length ipv4 = 4%nat) as Hlen4.
  { rewrite <- Hipv4, length_take, length_drop. lia. }
  rewrite slice_all, bind_Ok by (unfold len; lia).
  rewrite copy_make_exact by (unfold len; lia).
  replace (8 * k + 8 * 4) with (8 * (k + 4)) by lia.
  rewrite uint_small by lia.
  rewrite (FromIPv6_aligned out (k + 4) 5) by (done || lia).
  replace (Z.to_nat (k + 4)) with (Z.to_nat k + 4)%nat by lia.
  change (Z.to_nat 5) with 5%nat. rewrite HargsB.
  unfold ignoring_error. by rewrite bind_Ok, Hargs.
Qed.

(** On a byte boundary a destination address decodes to the value it was
    encoded from. *)
Lemma MGTP4IPv6Dst_roundtrip_aligned (m : MGTP4IPv6Dst) :
  MGTP4IPv6Dst_wf m →
  netip.Bits (dst_prefix m) `mod` 8 = 0 →
  netip.Bits (dst_prefix m) + 32 + 40 ≤ 128 →
  ∃ b, MGTP4IPv6Dst_Marshal m = Ok b ∧
       ParseMGTP4IPv6Dst b (netip.Bits (dst_prefix m)) = Ok m.
Proof.
  intros (Hpfx & Hlen4 & Hbytes & Hargs) Haligned Hfit.
  pose proof Hpfx as (_ & _ & Hbits & _).
  set (k := netip.Bits (dst_prefix m) / 8).
  assert (netip.Bits (dst_prefix m) = 8 * k) as Hk
    by (unfold k; div_mod_lia).
  destruct (ParseArgsMobSession_Marshal _ Hargs)
    as (argsB & HargsB & Hlen5 & HbytesB & Hparse).
  set (P := netip.As16 (netip.ip (dst_prefix m))).
  assert (length P = 16%nat) as HP by apply length_As16.
  eexists. split.
  { apply (MGTP4IPv6Dst_Marshal_aligned m k argsB); (done || lia). }
  fold P. rewrite Hk. destruct m as [pfx ipv4 args].
  cbn [dst_prefix dst_ipv4 argsMobSession] in *.
  assert (length (splice P (Z.to_nat k) ipv4) = 16%nat) as Hlen1
    by (rewrite length_splice; lia).
  apply (ParseMGTP4IPv6Dst_aligned _ k pfx ipv4 argsB args).
  - rewrite length_splice; lia.
  - lia.
  - lia.
  - apply parse_prefix_aligned.
    + done.
    + done.
    + rewrite length_splice; lia.
    + repeat apply Forall_splice; try done. apply Forall_is_byte_bePut.
    + intros i Hi. rewrite !lookup_splice_lt by lia. done.
  - transitivity (take 4 (drop (Z.to_nat k) (splice P (Z.to_nat k) ipv4))).
    + apply take_drop_agree. intros i Hi. apply lookup_splice_lt; lia.
    + rewrite <- Hlen4. apply take_drop_splice. lia.
  - rewrite <- Hlen5. apply take_drop_splice. lia.
  - done.
Qed.

Lemma MGTP4IPv6Src_Marshal_aligned (m : MGTP4IPv6Src) k :
  length (src_ipv4 m) = 4%nat → Forall is_byte (src_ipv4 m) →
  netip.Bits (src_prefix m) = 8 * k → 0 ≤ k → k + 6 ≤ 16 →
  MGTP4IPv6Src_Marshal m =
    Ok (<[15%nat := byte (8 * k)]>
          (splice
             (splice (netip.As16 (netip.ip (src_prefix m))) (Z.to_nat k) (src_ipv4 m))
             (Z.to_nat k + 4) [byte (Z.shiftr (udp m) 8); byte (udp m)])).
Proof.
  intros Hlen4 Hbytes Hbits Hk Hfit.
  unfold MGTP4IPv6Src_Marshal, MGTP4IPv6Src_MarshalTo, MGTP4IPv6Src_MarshalLen.
  rewrite bool_decide_eq_false_2 by (by vm_compute).
  rewrite copy_make_exact' by (by rewrite length_As16).
  change (BigEndian_PutUint16 (make 2) (udp m))
    with (Ok [byte (Z.shiftr (udp m) 8); byte (udp m)]).
  rewrite bind_Ok. set (udpB := [_; _]).
  rewrite AsSlice_AddrFrom4, Hbits by done.
  rewrite bool_decide_eq_false_2 by lia.
  rewrite !uint_small by lia.
  set (P := netip.As16 _).
  assert (length P = 16%nat) as HP by apply length_As16.
  assert (length (splice P (Z.to_nat k) (src_ipv4 m)) = 16%nat) as Hlen1
    by (rewrite length_splice; lia).
  rewrite AppendToSlice_aligned, bind_Ok by (unfold len; lia).
  replace (8 * k + 8 * 4) with (8 * (k + 4)) by lia.
  rewrite AppendToSlice_aligned, bind_Ok by (unfold len; simpl; lia).
  replace (Z.to_nat (k + 4)) with (Z.to_nat k + 4)%nat by lia.
  rewrite store_in_range; [done|].
  unfold len. rewrite length_splice by (simpl; lia).
  unfold ipv6LenEncodingPosByte. lia.
Qed.

(** On a byte boundary a source address decodes, with the basic parser, to
    its prefix and IPv4 bytes with no port, and, when the port has room,
    with the vendor-extension parser to the value it was encoded from. *)
Lemma MGTP4IPv6Src_roundtrip_aligned (m : MGTP4IPv6Src) :
  MGTP4IPv6Src_wf m →
  netip.Bits (src_prefix m) `mod` 8 = 0 →
  0 < netip.Bits (src_prefix m) →
  netip.Bits (src_prefix m) + 32 + 16 ≤ 128 →
  ∃ b, MGTP4IPv6Src_Marshal m = Ok b ∧
       ParseMGTP4IPv6Src b (netip.Bits (src_prefix m))
         = Ok (mkMGTP4IPv6Src (src_prefix m) (src_ipv4 m) 0) ∧
       (netip.Bits (src_prefix m) + 32 + 16 + 7 ≤ 128 →
        ParseMGTP4IPv6SrcNextMN b = Ok m).
Proof.
  intros (Hpfx & Hlen4 & Hbytes & Hudp) Haligned Hpos Hfit.
  pose proof Hpfx as (_ & _ & Hbits & _).
  set (k := netip.Bits (src_prefix m) / 8).
  assert (netip.Bits (src_prefix m) = 8 * k) as Hk
    by (unfold k; div_mod_lia).
  set (P := netip.As16 (netip.ip (src_prefix m))).
  assert (length P = 16%nat) as HP by apply length_As16.
  eexists. split.
  { apply (MGTP4IPv6Src_Marshal_aligned m k); (done || lia). }
  fold P. rewrite Hk. destruct m as [pfx ipv4 port].
  cbn [src_prefix src_ipv4 udp] in *.
  set (udpB := [byte (Z.shiftr port 8); byte port]).
  set (b1 := splice P (Z.to_nat k) ipv4).
  set (b2 := splice b1 (Z.to_nat k + 4) udpB).
  set (out := <[15%nat := byte (8 * k)]> b2).
  assert (length b1 = 16%nat) as Hlen1
    by (unfold b1; rewrite length_splice; lia).
  assert (length b2 = 16%nat) as Hlen2
    by (unfold b2; rewrite length_splice; simpl; lia).
  assert (length out = 16%nat) as Hlen
    by (unfold out; by rewrite length_insert).
  assert (Forall is_byte out) as Hout.
  { apply Forall_insert; [|apply is_byte_byte].
    repeat apply Forall_splice; try done; [apply Forall_is_byte_bePut|].
    repeat apply Forall_cons_2; try apply Forall_nil_2; apply is_byte_byte. }
  assert (∀ i : nat, (i < Z.to_nat k + 4)%nat → out !! i = b1 !! i) as Hlow.
  { intros i Hi. unfold out, b2.
    rewrite list_lookup_insert_ne, lookup_splice_lt by lia. done. }
  assert (ParseMGTP4IPv6Src out (8 * k) = Ok (mkMGTP4IPv6Src pfx ipv4 0))
    as Hbasic.
  { destruct (ParseMGTP4IPv6Src_in_range out (8 * k))
      as (ipv4' & Hipv4' & _ & ->); [done|lia..|].
    rewrite (FromIPv6_aligned out k 4) in Hipv4' by (done || lia).
    injection Hipv4' as <-. do 2 f_equal.
    - apply parse_prefix_aligned; try done.
      intros i Hi. rewrite Hlow by lia. apply (lookup_splice_lt P); lia.
    - transitivity (take 4 (drop (Z.to_nat k) b1)).
      + apply take_drop_agree. intros i Hi. apply Hlow. lia.
      + rewrite <- Hlen4. apply take_drop_splice. lia. }
  split; [done|]. intros Hroom.
  assert (byte (8 * k) = 8 * k) as Hbyte
    by (unfold byte; apply Z.mod_small; lia).
  assert (Z.land (8 * k) 0x7F = 8 * k) as Hlen7.
  { change 0x7F with (Z.ones 7). rewrite Z.land_ones by lia.
    apply Z.mod_small. lia. }
  rewrite (ParseMGTP4IPv6SrcNextMN_byte15 out (8 * k)).
  2:{ unfold out. rewrite Hbyte. apply list_lookup_insert_eq. lia. }
  rewrite Hlen7, Hbasic, bind_Ok.
  rewrite bool_decide_eq_false_2 by lia.
  replace (8 * k + 32) with (8 * (k + 4)) by lia.
  rewrite (FromIPv6_aligned out (k + 4) 2), bind_Ok by (done || lia).
  replace (Z.to_nat (k + 4)) with (Z.to_nat k + 4)%nat by lia.
  assert (take (Z.to_nat 2) (drop (Z.to_nat k + 4) out) = udpB) as ->.
  { transitivity (take 2 (drop (Z.to_nat k + 4) b2)).
    - apply take_drop_agree. intros i Hi. unfold out.
      apply list_lookup_insert_ne. lia.
    - apply (take_drop_splice b1 (Z.to_nat k + 4) udpB). lia. }
  cbn [src_prefix src_ipv4].
  rewrite slice_all, bind_Ok by done.
  rewrite copy_make_exact by done.
  change (index udpB 0) with (Ok (byte (Z.shiftr port 8))).
  change (index udpB 1) with (Ok (byte port)).
  by rewrite !bind_Ok, BigEndian_Uint16_PutUint16, bind_Ok.
Qed.

(** C1, as the code has it by design, on byte boundaries: for every
    well-formed destination address [x] (canonical IPv6 prefix, four IPv4
    bytes, fields within their widths) whose prefix length [p] is a multiple
    of 8 with [p + 32 + 40 <= 128], parsing the marshalled [x] with prefix
    length [p] returns [x]; for every such source address with [0 < p], the
    vendor-extension parser returns [x], and the basic parser returns [x]
    with the port left at 0. *)
Theorem roundtrip_on_byte_boundary :
  (∀ x : MGTP4IPv6Dst,
     MGTP4IPv6Dst_wf x →
     netip.Bits (dst_prefix x) `mod` 8 = 0 →
     netip.Bits (dst_prefix x) + 32 + 40 ≤ 128 →
     ∃ b, MGTP4IPv6Dst_Marshal x = Ok b ∧
          ParseMGTP4IPv6Dst b (netip.Bits (dst_prefix x)) = Ok x) ∧
  (∀ x : MGTP4IPv6Src,
     MGTP4IPv6Src_wf x →
     netip.Bits (src_prefix x) `mod` 8 = 0 →
     0 < netip.Bits (src_prefix x) →
     netip.Bits (src_prefix x) + 32 + 40 ≤ 128 →
     ∃ b, MGTP4IPv6Src_Marshal x = Ok b ∧
          ParseMGTP4IPv6Src b (netip.Bits (src_prefix x))
            = Ok (mkMGTP4IPv6Src (src_prefix x) (src_ipv4 x) 0) ∧
          ParseMGTP4IPv6SrcNextMN b = Ok x).
Proof.
  split.
  - apply MGTP4IPv6Dst_roundtrip_aligned.
  - intros x Hwf Haligned Hpos Hfit.
    destruct (MGTP4IPv6Src_roundtrip_aligned x Hwf Haligned Hpos)
      as (b & Hb & Hbasic & Hvendor); [lia|].
    exists b. split; [done|]. split; [done|]. apply Hvendor. lia.
Qed.

Lemma roundtrip_on_byte_boundary_witness :
  let dst := NewMGTP4IPv6Dst
               (netip.PrefixFrom (netip.AddrFrom16
                  [0x20; 0x01; 0x0d; 0xb8; 0xaa; 0xbb; 0; 0; 0; 0; 0; 0; 0; 0; 0; 0]) 48)
               [203; 0; 113; 1] (NewArgsMobSession 9 true false 0x01020304) in
  let src := NewMGTP4IPv6Src
               (netip.PrefixFrom (netip.AddrFrom16
                  [0x3f; 0xff; 0; 0; 1; 0; 0; 0; 0; 0; 0; 0; 0; 0; 0; 0]) 40)
               [203; 0; 113; 1] 12345 in
  (∃ b, MGTP4IPv6Dst_Marshal dst = Ok b ∧
        ParseMGTP4IPv6Dst b (netip.Bits (dst_prefix dst)) = Ok dst) ∧
  (∃ b, MGTP4IPv6Src_Marshal src = Ok b ∧
        ParseMGTP4IPv6Src b (netip.Bits (src_prefix src))
          = Ok (mkMGTP4IPv6Src (src_prefix src) (src_ipv4 src) 0) ∧
        ParseMGTP4IPv6SrcNextMN b = Ok src).
Proof.
  intros dst src. split.
  - apply (proj1 roundtrip_on_byte_boundary dst).
    + repeat split; try (vm_compute; reflexivity); try (vm_compute; discriminate).
      repeat constructor; vm_compute; discriminate.
    + vm_compute. reflexivity.
    + vm_compute. discriminate.
  - apply (proj2 roundtrip_on_byte_boundary src).
    + repeat split; try (vm_compute; reflexivity); try (vm_compute; discriminate).
      repeat constructor; vm_compute; discriminate.
    + vm_compute. reflexivity.
    + vm_compute. reflexivity.
    + vm_compute. discriminate.
Defined.

(** C1, as stated, fails by design for source addresses: the basic parser
    never returns a port (here 12345 comes back as 0), and a prefix of
    length 0, which satisfies [0 + 32 + 40 <= 128], is rejected by both
    source parsers with [ErrPrefixLength]. *)
Lemma roundtrip_source_counterexample :
  let x := NewMGTP4IPv6Src
             (netip.PrefixFrom (netip.AddrFrom16
                [0x3f; 0xff; 0; 0; 1; 0; 0; 0; 0; 0; 0; 0; 0; 0; 0; 0]) 40)
             [203; 0; 113; 1] 12345 in
  let y := NewMGTP4IPv6Src
             (netip.PrefixFrom (netip.AddrFrom16
                [0; 0; 0; 0; 0; 0; 0; 0; 0; 0; 0; 0; 0; 0; 0; 0]) 0)
             [203; 0; 113; 1] 12345 in
  (MGTP4IPv6Src_wf x ∧ netip.Bits (src_prefix x) + 32 + 40 ≤ 128 ∧
   (MGTP4IPv6Src_Marshal x ≫= λ b, ParseMGTP4IPv6Src b 40)
     = Ok (mkMGTP4IPv6Src (src_prefix x) [203; 0; 113; 1] 0) ∧
   mkMGTP4IPv6Src (src_prefix x) [203; 0; 113; 1] 0 ≠ x) ∧
  (MGTP4IPv6Src_wf y ∧ netip.Bits (src_prefix y) + 32 + 40 ≤ 128 ∧
   (MGTP4IPv6Src_Marshal y ≫= λ b, ParseMGTP4IPv6Src b 0) = Err ErrPrefixLength ∧
   (MGTP4IPv6Src_Marshal y ≫= ParseMGTP4IPv6SrcNextMN) = Err ErrPrefixLength).
Proof.
  intros x y. split.
  - split; [|split; [|split]].
    + repeat split; try (vm_compute; reflexivity); try (vm_compute; discriminate).
      repeat constructor; vm_compute; discriminate.
    + vm_compute. discriminate.
    + vm_compute. reflexivity.
    + vm_compute. discriminate.
  - split; [|split; [|split]].
    + repeat split; try (vm_compute; reflexivity); try (vm_compute; discriminate).
      repeat constructor; vm_compute; discriminate.
    + vm_compute. discriminate.
    + vm_compute. reflexivity.
    + vm_compute. reflexivity.
Qed.

End roundtrip.

(** * Further properties of the codecs *)

(** ** [FromIPv6]: range checks, byte boundaries, the empty window *)

Section extract.

(** X1: on a 16-byte address, with [startBit + 8 * length] not wrapping,
    [FromIPv6] fails with [ErrTooShortToParse] when more than 16 bytes are
    asked for, with [ErrOutOfRange] when the window ends behind bit 128,
    and returns [length] bytes for every non-empty window that ends at or
    before bit 128. *)
Theorem FromIPv6_outcome (ipv6 : list Z) (startBit n : Z) :
  length ipv6 = 16%nat → 0 ≤ startBit → 0 ≤ n < 2 ^ 64 →
  startBit + 8 * n < 2 ^ 64 →
  (16 < n → FromIPv6 ipv6 startBit n = Err ErrTooShortToParse) ∧
  (n ≤ 16 → startBit + 8 * n > 128 →
   FromIPv6 ipv6 startBit n = Err ErrOutOfRange) ∧
  (1 ≤ n → startBit + 8 * n ≤ 128 →
   ∃ ret, FromIPv6 ipv6 startBit n = Ok ret ∧ len ret = n).
Proof.
  intros Hlen HstartBit Hn Hnowrap.
  assert (len ipv6 = 16) as Hlen16 by (unfold len; lia).
  split; [|split].
  - intros Hmany. unfold FromIPv6. rewrite Hlen16.
    by rewrite uint_small, bool_decide_eq_true_2 by lia.
  - intros Hfew Hbehind. unfold FromIPv6, uadd, umul. rewrite Hlen16.
    rewrite !(uint_small 16), !(uint_small (8 * 16)), !(uint_small (n * 8)),
      !(uint_small (startBit + n * 8)) by lia.
    rewrite bool_decide_eq_false_2 by lia.
    by rewrite bool_decide_eq_true_2 by lia.
  - intros Hnonempty Hfit. by apply FromIPv6_in_range.
Qed.

Lemma FromIPv6_outcome_witness :
  let ipv6 := [0x20; 0x01; 0x0d; 0xb8; 0; 0; 0; 0; 203; 0; 113; 1; 0x14; 0; 0; 7] in
  (16 < 1 → FromIPv6 ipv6 120 1 = Err ErrTooShortToParse) ∧
  (1 ≤ 16 → 120 + 8 * 1 > 128 → FromIPv6 ipv6 120 1 = Err ErrOutOfRange) ∧
  (1 ≤ 1 → 120 + 8 * 1 ≤ 128 →
   ∃ ret, FromIPv6 ipv6 120 1 = Ok ret ∧ len ret = 1).
Proof.
  intros ipv6. apply (FromIPv6_outcome ipv6 120 1).
  - reflexivity.
  - lia.
  - lia.
  - lia.
Defined.

(** X2: on a byte boundary [FromIPv6] returns exactly the bytes
    [k .. k + length - 1] of the address, also for an empty window. *)
Theorem FromIPv6_byte_boundary (ipv6 : list Z) (k n : Z) :
  length ipv6 = 16%nat → 0 ≤ k → 0 ≤ n → k + n ≤ 16 →
  ∃ ret, FromIPv6 ipv6 (8 * k) n = Ok ret ∧ len ret = n ∧
    ∀ i : nat, (i < Z.to_nat n)%nat → ret !! i = ipv6 !! (Z.to_nat k + i)%nat.
Proof.
  intros Hlen Hk Hn Hfit. rewrite FromIPv6_aligned by done.
  eexists. split; [done|]. split.
  - unfold len. rewrite length_take, length_drop. lia.
  - intros i Hi. by rewrite lookup_take_lt, lookup_drop.
Qed.

Lemma FromIPv6_byte_boundary_witness :
  let ipv6 := [0x20; 0x01; 0x0d; 0xb8; 0; 0; 0; 0; 203; 0; 113; 1; 0x14; 0; 0; 7] in
  ∃ ret, FromIPv6 ipv6 (8 * 8) 4 = Ok ret ∧ len ret = 4 ∧
    ∀ i : nat, (i < Z.to_nat 4)%nat → ret !! i = ipv6 !! (Z.to_nat 8 + i)%nat.
Proof.
  intros ipv6. apply (FromIPv6_byte_boundary ipv6 8 4).
  - reflexivity.
  - lia.
  - lia.
  - lia.
Defined.

(** X3: off a byte boundary, for every non-empty window inside the address,
    output byte [j] is [source[startByte+j] << offset] merged with
    [source[startByte+j+1] >> (8 - offset)] for every [j] but the last; the
    last output byte is [source[startByte+j] << offset] alone. *)
Theorem FromIPv6_off_byte_boundary (ipv6 : list Z) (startBit n : Z) :
  length ipv6 = 16%nat → 0 ≤ startBit → 1 ≤ n → startBit + 8 * n ≤ 128 →
  startBit `mod` 8 ≠ 0 →
  ∃ ret, FromIPv6 ipv6 startBit n = Ok ret ∧ len ret = n ∧
    ∀ j : nat, (j < Z.to_nat n)%nat →
      ret !! j = Some
        (if decide (j + 1 < Z.to_nat n)%nat then
           or8 (shl8 (ipv6 !!! (Z.to_nat (startBit / 8) + j)%nat) (startBit `mod` 8))
               (shr8 (ipv6 !!! (Z.to_nat (startBit / 8) + j + 1)%nat)
                     (8 - startBit `mod` 8))
         else shl8 (ipv6 !!! (Z.to_nat (startBit / 8) + j)%nat) (startBit `mod` 8)).
Proof. apply FromIPv6_unaligned. Qed.

Lemma FromIPv6_off_byte_boundary_witness :
  let ipv6 := [0x3f; 0xff; 0x0c; 0xb0; 0x07; 0x10; 0x10; 0; 0; 0; 0; 0x10; 0; 0; 0; 0] in
  ∃ ret, FromIPv6 ipv6 20 4 = Ok ret ∧ len ret = 4 ∧
    ∀ j : nat, (j < Z.to_nat 4)%nat →
      ret !! j = Some
        (if decide (j + 1 < Z.to_nat 4)%nat then
           or8 (shl8 (ipv6 !!! (Z.to_nat (20 / 8) + j)%nat) (20 `mod` 8))
               (shr8 (ipv6 !!! (Z.to_nat (20 / 8) + j + 1)%nat) (8 - 20 `mod` 8))
         else shl8 (ipv6 !!! (Z.to_nat (20 / 8) + j)%nat) (20 `mod` 8)).
Proof.
  intros ipv6. apply (FromIPv6_off_byte_boundary ipv6 20 4).
  - reflexivity.
  - lia.
  - lia.
  - lia.
  - vm_compute. discriminate.
Defined.

(** X4: an empty window off a byte boundary panics: with [length = 0] the
    slice expression [ipv6[startByte+1 : startByte+length]] of the second
    loop has its low bound above its high bound. *)
Theorem FromIPv6_empty_window_panics (ipv6 : list Z) (startBit : Z) :
  length ipv6 = 16%nat → 0 ≤ startBit ≤ 128 → startBit `mod` 8 ≠ 0 →
  FromIPv6 ipv6 startBit 0 = Panic.
Proof.
  intros Hlen HstartBit Hshift. unfold FromIPv6, uadd, umul.
  assert (len ipv6 = 16) as -> by (unfold len; lia).
  assert (0 ≤ startBit / 8 < 16) as Hbyte by div_mod_lia.
  change (uint (uint (0 * 8))) with 0.
  rewrite !(uint_small 16), !(uint_small (8 * 16)), !(uint_small (startBit + 0)),
    !(uint_small (startBit / 8 + 0)), !(uint_small (startBit / 8 + 1)) by lia.
  rewrite !bool_decide_eq_false_2 by lia.
  destruct (slice_in_range ipv6 (startBit / 8) (startBit / 8 + 0))
    as (left & -> & Hleft & _); [lia|unfold len; lia|].
  rewrite bind_Ok. destruct left; [|unfold len in Hleft; simpl in Hleft; lia].
  simpl. unfold slice. by rewrite bool_decide_eq_false_2 by lia.
Qed.

Lemma FromIPv6_empty_window_panics_witness :
  FromIPv6 [0x20; 0x01; 0x0d; 0xb8; 0; 0; 0; 0; 203; 0; 113; 1; 0x14; 0; 0; 7] 20 0
    = Panic.
Proof.
  apply FromIPv6_empty_window_panics.
  - reflexivity.
  - lia.
  - vm_compute. discriminate.
Defined.

End extract.

(** ** [AppendToSlice]: capacity, and the bits it writes *)

Section append.

Implicit Types s app out : list Z.

(** X5: for every buffer, payload and bit offset below [2^63],
    [AppendToSlice] fails with [ErrTooShortToMarshal] exactly when
    [endBit / 8 + len(appendThis)], plus one off a byte boundary, exceeds
    the buffer length; otherwise it succeeds and the buffer keeps its
    length.  It never panics. *)
Theorem AppendToSlice_outcome s (endBit : Z) app :
  0 ≤ endBit < 2 ^ 63 →
  (needed endBit (len app) > len s →
   AppendToSlice s endBit app = Err ErrTooShortToMarshal) ∧
  (needed endBit (len app) ≤ len s →
   ∃ out, AppendToSlice s endBit app = Ok out ∧ length out = length s).
Proof.
  intros HendBit. split.
  - by apply AppendToSlice_too_short.
  - by apply AppendToSlice_fits.
Qed.

Lemma AppendToSlice_outcome_witness :
  (needed 100 (len [203; 0; 113; 1]) > len (make 16) →
   AppendToSlice (make 16) 100 [203; 0; 113; 1] = Err ErrTooShortToMarshal) ∧
  (needed 100 (len [203; 0; 113; 1]) ≤ len (make 16) →
   ∃ out, AppendToSlice (make 16) 100 [203; 0; 113; 1] = Ok out ∧
          length out = length (make 16)).
Proof. apply AppendToSlice_outcome. lia. Defined.

Lemma is_byte_0 : is_byte 0.
Proof. unfold is_byte. lia. Qed.

Lemma is_byte_payload_byte app i : Forall is_byte app → is_byte (payload_byte app i).
Proof.
  intros Happ. unfold payload_byte. case_bool_decide; [|apply is_byte_0].
  destruct (app !! Z.to_nat i) as [b|] eqn:Hb; simpl; [|apply is_byte_0].
  by eapply Forall_lookup_1.
Qed.

Lemma is_byte_shr8 b o : is_byte b → 0 ≤ o → is_byte (shr8 b o).
Proof.
  intros Hb Ho. unfold is_byte, shr8 in *. rewrite Z.shiftr_div_pow2 by done.
  assert (0 < 2 ^ o) by (apply Z.pow_pos_nonneg; lia).
  split; [apply Z.div_pos; lia|].
  apply Z.div_lt_upper_bound; [done|]. nia.
Qed.

Lemma payload_byte_lookup app (j k : nat) b :
  (k ≤ j)%nat → app !! (j - k)%nat = Some b →
  payload_byte app (Z.of_nat j - Z.of_nat k) = b.
Proof.
  intros Hk Hb. unfold payload_byte. rewrite bool_decide_eq_true_2 by lia.
  replace (Z.to_nat (Z.of_nat j - Z.of_nat k)) with (j - k)%nat by lia.
  by rewrite Hb.
Qed.

Lemma payload_byte_outside app (i : Z) :
  ¬ (0 ≤ i < len app) → payload_byte app i = 0.
Proof.
  intros Hi. unfold payload_byte. case_bool_decide; [|done].
  rewrite lookup_ge_None_2; [done|]. unfold len in Hi. lia.
Qed.

Lemma or8_0_r b : or8 b 0 = b.
Proof. apply Z.lor_0_r. Qed.

(** Off a byte boundary every slot is OR-merged with the low part of the
    payload byte that starts in it and the high part of the one before. *)
Lemma AppendToSlice_unaligned s (endBit : Z) app :
  0 ≤ endBit < 2 ^ 63 → endBit `mod` 8 ≠ 0 →
  needed endBit (len app) ≤ len s →
  ∃ out, AppendToSlice s endBit app = Ok out ∧ length out = length s ∧
    ∀ j : nat, out !! j =
      (λ old, or8 (or8 old (shr8 (payload_byte app (Z.of_nat j - endBit / 8))
                                 (endBit `mod` 8)))
                  (shl8 (payload_byte app (Z.of_nat j - endBit / 8 - 1))
                        (8 - endBit `mod` 8)))
      <$> s !! j.
Proof.
  intros HendBit Hshift Hneeded. unfold AppendToSlice, needed in *.
  assert (0 ≤ endBit / 8) as Hbyte by (apply Z.div_pos; lia).
  assert (0 ≤ endBit `mod` 8 < 8) as Hoff by (apply Z.mod_pos_bound; lia).
  pose proof (len_nonneg app) as Happ.
  set (k := endBit / 8) in *. set (o := endBit `mod` 8) in *.
  rewrite !int_of_uint_small by (unfold k; apply Z.div_lt_upper_bound; lia).
  rewrite (bool_decide_eq_true_2 (o > 0)) in * by lia.
  rewrite !bool_decide_eq_false_2 by lia.
  destruct (for_range_slot_update k (λ b old, or8 old (shr8 b o))
              (λ i b s0, store_or s0 (k + i) (shr8 b o))
              (slot_update_store_or k (λ b, shr8 b o) _ (λ _ _ _, eq_refl))
              app 0 s) as (s1 & -> & Hl1 & Hslots1); [lia|lia|].
  rewrite bind_Ok.
  destruct (for_range_slot_update (k + 1) (λ b old, or8 old (shl8 b (8 - o)))
              (λ i b s0, store_or s0 (k + 1 + i) (shl8 b (8 - o)))
              (slot_update_store_or (k + 1) (λ b, shl8 b (8 - o)) _ (λ _ _ _, eq_refl))
              app 0 s1) as (s2 & -> & Hl2 & Hslots2);
    [lia|unfold len in *; lia|].
  exists s2. split; [done|]. split; [congruence|].
  intros j. rewrite Hslots2, Hslots1.
  replace (Z.to_nat (k + 1 + 0)) with (S (Z.to_nat k)) by lia.
  replace (Z.to_nat (k + 0)) with (Z.to_nat k) by lia.
  destruct (s !! j) as [old|] eqn:Hold; simpl;
    [|by repeat (destruct (decide _) || destruct (_ !! _))].
  assert (∀ i old', (Z.to_nat k ≤ i)%nat → j = i →
    (match app !! (i - Z.to_nat k)%nat with
     | Some b => Some (or8 old' (shr8 b o))
     | None => Some old'
     end) = Some (or8 old' (shr8 (payload_byte app (Z.of_nat j - k)) o))) as Hright.
  { intros i old' Hi ->. destruct (app !! _) as [b|] eqn:Hb.
    - rewrite <- (payload_byte_lookup app i (Z.to_nat k) b) by done.
      do 4 f_equal. lia.
    - rewrite payload_byte_outside.
      + unfold shr8. by rewrite Z.shiftr_0_l, or8_0_r.
      + apply lookup_ge_None_1 in Hb. unfold len. lia. }
  assert (∀ i old', (S (Z.to_nat k) ≤ i)%nat → j = i →
    (match app !! (i - S (Z.to_nat k))%nat with
     | Some b => Some (or8 old' (shl8 b (8 - o)))
     | None => Some old'
     end) = Some (or8 old' (shl8 (payload_byte app (Z.of_nat j - k - 1)) (8 - o))))
    as Hleft.
  { intros i old' Hi ->. destruct (app !! _) as [b|] eqn:Hb.
    - rewrite <- (payload_byte_lookup app i (S (Z.to_nat k)) b) by done.
      do 4 f_equal. lia.
    - rewrite payload_byte_outside.
      + unfold shl8, byte. by rewrite Z.shiftl_0_l, or8_0_r.
      + apply lookup_ge_None_1 in Hb. unfold len. lia. }
  destruct (decide (Z.to_nat k ≤ j)%nat) as [Hge|Hlt].
  - rewrite (Hright j old Hge eq_refl).
    set (merged := or8 old (shr8 (payload_byte app (Z.of_nat j - k)) o)).
    destruct (decide (S (Z.to_nat k) ≤ j)%nat) as [Hge'|Hlt'].
    + pose proof (Hleft j merged Hge' eq_refl) as Hmerged.
      by destruct (app !! (j - S (Z.to_nat k))%nat).
    + rewrite (payload_byte_outside app (Z.of_nat j - k - 1)) by lia.
      unfold shl8 at 1, byte. by rewrite Z.shiftl_0_l, or8_0_r.
  - rewrite decide_False by lia.
    rewrite !payload_byte_outside by lia.
    unfold shl8, shr8, byte. by rewrite Z.shiftl_0_l, Z.shiftr_0_l, !or8_0_r.
Qed.

Lemma testbit_shr8 b o i :
  0 ≤ i → Z.testbit (shr8 b o) i = Z.testbit b (i + o).
Proof. intros Hi. unfold shr8. by apply Z.shiftr_spec. Qed.

Lemma testbit_shl8 b n i :
  0 ≤ i → Z.testbit (shl8 b n) i = bool_decide (i < 8) && Z.testbit b (i - n).
Proof.
  intros Hi. unfold shl8. rewrite testbit_byte by done.
  by rewrite Z.shiftl_spec by done.
Qed.

Lemma payload_byte_inside app (i : Z) :
  0 ≤ i < len app → payload_byte app i = app !!! Z.to_nat i.
Proof.
  intros Hi. unfold payload_byte. rewrite bool_decide_eq_true_2 by lia.
  destruct (lookup_lt_is_Some_2 app (Z.to_nat i)) as [b Hb];
    [unfold len in Hi; lia|].
  by rewrite Hb, (list_lookup_total_correct _ _ _ Hb).
Qed.

(** The two shifted payload bytes that meet in a slot carry, between them,
    exactly the payload bit that belongs at each bit position. *)
Lemma payload_bits app (endBit m : Z) :
  Forall is_byte app → 0 ≤ endBit → endBit `mod` 8 ≠ 0 → 0 ≤ m →
  Z.testbit (shr8 (payload_byte app (m / 8 - endBit / 8)) (endBit `mod` 8))
            (7 - m `mod` 8)
  || Z.testbit (shl8 (payload_byte app (m / 8 - endBit / 8 - 1))
                     (8 - endBit `mod` 8)) (7 - m `mod` 8)
  = if bool_decide (endBit ≤ m < endBit + 8 * len app)
    then bit app (m - endBit) else false.
Proof.
  intros Happ HendBit Hshift Hm.
  pose proof (len_nonneg app) as Hlen.
  assert (0 ≤ m `mod` 8 < 8) as Ht by (apply Z.mod_pos_bound; lia).
  assert (0 ≤ endBit `mod` 8 < 8) as Ho by (apply Z.mod_pos_bound; lia).
  rewrite testbit_shr8, testbit_shl8 by lia.
  rewrite (bool_decide_eq_true_2 (7 - m `mod` 8 < 8)) by lia. simpl.
  unfold bit.
  destruct (decide (endBit `mod` 8 ≤ m `mod` 8)) as [Hlow|Hhigh].
  - rewrite (Z.testbit_neg_r _ (7 - m `mod` 8 - (8 - endBit `mod` 8))) by lia.
    rewrite orb_false_r.
    destruct (decide (0 ≤ m / 8 - endBit / 8 < len app)) as [Hin|Hout].
    + rewrite bool_decide_eq_true_2 by div_mod_lia.
      rewrite payload_byte_inside by done.
      assert ((m - endBit) / 8 = m / 8 - endBit / 8) as -> by div_mod_lia.
      assert ((m - endBit) `mod` 8 = m `mod` 8 - endBit `mod` 8) as ->
        by div_mod_lia.
      f_equal. lia.
    + rewrite bool_decide_eq_false_2 by div_mod_lia.
      rewrite payload_byte_outside by done. apply Z.testbit_0_l.
  - rewrite (testbit_is_byte (payload_byte app (m / 8 - endBit / 8)))
      by (by apply is_byte_payload_byte || lia).
    rewrite orb_false_l.
    destruct (decide (0 ≤ m / 8 - endBit / 8 - 1 < len app)) as [Hin|Hout].
    + rewrite bool_decide_eq_true_2 by div_mod_lia.
      rewrite payload_byte_inside by done.
      assert ((m - endBit) / 8 = m / 8 - endBit / 8 - 1) as -> by div_mod_lia.
      assert ((m - endBit) `mod` 8 = 8 + m `mod` 8 - endBit `mod` 8) as ->
        by div_mod_lia.
      f_equal. lia.
    + rewrite bool_decide_eq_false_2 by div_mod_lia.
      rewrite payload_byte_outside by done. apply Z.testbit_0_l.
Qed.

Lemma lookup_splice s (k : nat) app (j : nat) :
  (k + length app ≤ length s)%nat →
  splice s k app !! j =
    if decide (k ≤ j < k + length app)%nat then app !! (j - k)%nat else s !! j.
Proof.
  intros Hfit. unfold splice.
  destruct (decide (j < k)%nat) as [Hlt|Hge].
  - rewrite decide_False by lia.
    rewrite lookup_app_l by (rewrite length_take; lia).
    by apply lookup_take_lt.
  - rewrite lookup_app_r by (rewrite length_take; lia).
    rewrite length_take. replace (k `min` length s)%nat with k by lia.
    destruct (decide (j < k + length app)%nat) as [Hin|Hbehind].
    + rewrite decide_True by lia. by rewrite lookup_app_l by lia.
    + rewrite decide_False by lia.
      rewrite lookup_app_r, lookup_drop by lia. f_equal. lia.
Qed.

(** What a successful append does to each bit of the buffer. *)
Lemma AppendToSlice_window s (endBit : Z) app out :
  0 ≤ endBit < 2 ^ 63 → Forall is_byte s → Forall is_byte app →
  AppendToSlice s endBit app = Ok out →
  length out = length s ∧ Forall is_byte out ∧
  ∀ m, 0 ≤ m < 8 * len s →
    bit out m =
      if bool_decide (endBit ≤ m < endBit + 8 * len app) then
        (if bool_decide (endBit `mod` 8 = 0) then false else bit s m)
        || bit app (m - endBit)
      else bit s m.
Proof.
  intros HendBit Hs Happ Hout.
  pose proof (len_nonneg app) as Hlen.
  assert (needed endBit (len app) ≤ len s) as Hneeded.
  { destruct (decide (needed endBit (len app) ≤ len s)); [done|].
    rewrite AppendToSlice_too_short in Hout by lia. done. }
  assert (0 ≤ endBit / 8) as Hbyte by (apply Z.div_pos; lia).
  destruct (decide (endBit `mod` 8 = 0)) as [Haligned|Hshift].
  - assert (endBit = 8 * (endBit / 8)) as HendBit8 by div_mod_lia.
    unfold needed in Hneeded. rewrite Haligned in Hneeded.
    rewrite bool_decide_eq_false_2 in Hneeded by lia.
    rewrite HendBit8, AppendToSlice_aligned in Hout
      by first [split; [lia|apply Z.div_lt_upper_bound; lia] | lia].
    injection Hout as <-. set (k := Z.to_nat (endBit / 8)).
    assert (k + length app ≤ length s)%nat as Hfit by (unfold len in *; lia).
    split; [by apply length_splice|]. split; [by apply Forall_splice|].
    intros m Hm. rewrite (bool_decide_eq_true_2 (_ = 0)) by done.
    rewrite orb_false_l. unfold bit.
    assert (Z.to_nat (m / 8) < length s)%nat as Hj
      by (unfold len in Hm; apply Nat2Z.inj_lt; rewrite Z2Nat.id by div_mod_lia;
          apply Z.div_lt_upper_bound; lia).
    rewrite (list_lookup_total_alt (splice _ _ _)), lookup_splice by done.
    case_bool_decide as Hwindow.
    + rewrite decide_True by (unfold k, len in *; div_mod_lia).
      assert ((m - endBit) `mod` 8 = m `mod` 8) as -> by div_mod_lia.
      rewrite <- list_lookup_total_alt. do 2 f_equal.
      unfold k. div_mod_lia.
    + rewrite decide_False by (unfold k, len in *; div_mod_lia).
      by rewrite <- list_lookup_total_alt.
  - destruct (AppendToSlice_unaligned s endBit app HendBit Hshift Hneeded)
      as (out' & Hout' & Hlen' & Hslots).
    rewrite Hout in Hout'. injection Hout' as <-.
    split; [done|]. split.
    { apply Forall_lookup. intros j b Hb. rewrite Hslots in Hb.
      destruct (s !! j) as [old|] eqn:Hold; [|done]. injection Hb as <-.
      assert (0 ≤ endBit `mod` 8 < 8) by (apply Z.mod_pos_bound; lia).
      repeat apply is_byte_or8.
      - apply (Forall_lookup_1 _ _ _ _ Hs Hold).
      - apply is_byte_shr8; [by apply is_byte_payload_byte|lia].
      - apply is_byte_byte. }
    intros m Hm. rewrite (bool_decide_eq_false_2 (_ = 0)) by done.
    assert (Z.to_nat (m / 8) < length s)%nat as Hj
      by (unfold len in Hm; apply Nat2Z.inj_lt; rewrite Z2Nat.id by div_mod_lia;
          apply Z.div_lt_upper_bound; lia).
    destruct (lookup_lt_is_Some_2 s _ Hj) as [old Hold].
    pose proof (Hslots (Z.to_nat (m / 8))) as Hslot.
    rewrite Hold, Z2Nat.id in Hslot by div_mod_lia. simpl in Hslot.
    assert (bit s m = Z.testbit old (7 - m `mod` 8)) as ->
      by (unfold bit; by rewrite (list_lookup_total_correct _ _ _ Hold)).
    unfold bit at 1. rewrite (list_lookup_total_correct _ _ _ Hslot).
    unfold or8 at 1 2. rewrite !Z.lor_spec, <- orb_assoc.
    rewrite payload_bits by (done || lia).
    by case_bool_decide; rewrite ?orb_false_r.
Qed.

(** X6: a successful [AppendToSlice] of bytes into a buffer of bytes keeps
    the length, leaves every bit outside the window
    [endBit, endBit + 8 * len(appendThis)) as it was, and puts the payload
    bits into the window: on a byte boundary it overwrites the window, off a
    byte boundary it ORs the payload onto what the window held.  (Bit 0 is
    the most significant bit of byte 0.) *)
Theorem AppendToSlice_bits s (endBit : Z) app out :
  0 ≤ endBit < 2 ^ 63 → Forall is_byte s → Forall is_byte app →
  AppendToSlice s endBit app = Ok out →
  length out = length s ∧ Forall is_byte out ∧
  ∀ m, 0 ≤ m < 8 * len s →
    bit out m =
      if bool_decide (endBit ≤ m < endBit + 8 * len app) then
        (if bool_decide (endBit `mod` 8 = 0) then false else bit s m)
        || bit app (m - endBit)
      else bit s m.
Proof. apply AppendToSlice_window. Qed.

Lemma AppendToSlice_bits_witness :
  let s := [0x3f; 0xff; 0xf0; 0; 0; 0; 0; 0] in
  let app := [203; 0; 113; 1] in
  let out := [0x3f; 0xff; 0xfc; 0xb0; 0x07; 0x10; 0x10; 0] in
  length out = length s ∧ Forall is_byte out ∧
  ∀ m, 0 ≤ m < 8 * len s →
    bit out m =
      if bool_decide (20 ≤ m < 20 + 8 * len app) then
        (if bool_decide (20 `mod` 8 = 0) then false else bit s m)
        || bit app (m - 20)
      else bit s m.
Proof.
  intros s app out. apply (AppendToSlice_bits s 20 app out).
  - lia.
  - repeat constructor; vm_compute; discriminate.
  - repeat constructor; vm_compute; discriminate.
  - vm_compute. reflexivity.
Defined.

End append.

(** ** Args.Mob.Session: construct, encode, decode *)

Section args_mob_session.

Lemma len_cons {A} (x : A) (l : list A) : len (x :: l) = 1 + len l.
Proof. unfold len. simpl length. lia. Qed.

Lemma ArgsMobSession_Marshal_qfi_masked q r u id :
  ArgsMobSession_Marshal (mkArgsMobSession q r u id) =
  ArgsMobSession_Marshal (mkArgsMobSession (q `mod` 64) r u id).
Proof.
  rewrite !ArgsMobSession_Marshal_bytes. simpl. do 5 f_equal.
  unfold and8. change qfiMask with (Z.ones 6).
  rewrite !(Z.land_comm (Z.ones 6)), !Z.land_ones by lia.
  change (2 ^ 6) with 64. by rewrite Z.mod_mod by lia.
Qed.

(** X7: for every [uint8] QFI, both flags and every [uint32] session
    identifier, [NewArgsMobSession], [Marshal] and [ParseArgsMobSession]
    compose to a value whose accessors return the QFI reduced to its low 6
    bits, the two flags and the session identifier as given: a QFI above 63
    is truncated silently, nothing else is lost. *)
Theorem ArgsMobSession_roundtrip (q : Z) (r u : bool) (id : Z) :
  0 ≤ q < 256 → 0 ≤ id < 2 ^ 32 →
  ∃ b a,
    ArgsMobSession_Marshal (NewArgsMobSession q r u id) = Ok b ∧
    length b = 5%nat ∧
    ParseArgsMobSession b = Ok a ∧
    ArgsMobSession_QFI a = q `mod` 64 ∧
    ArgsMobSession_R a = r ∧
    ArgsMobSession_U a = u ∧
    ArgsMobSession_PDUSessionID a = id.
Proof.
  intros Hq Hid. unfold NewArgsMobSession.
  rewrite ArgsMobSession_Marshal_qfi_masked.
  set (a := mkArgsMobSession (q `mod` 64) _ _ id).
  destruct (ParseArgsMobSession_Marshal a) as (b & Hb & Hlen & _ & Hparse).
  { unfold ArgsMobSession_wf, a. simpl.
    assert (0 ≤ q `mod` 64 < 64) by (apply Z.mod_pos_bound; lia).
    destruct r, u; lia. }
  exists b, a. repeat split; try done.
  - unfold ArgsMobSession_R, a. simpl. by destruct r.
  - unfold ArgsMobSession_U, a. simpl. by destruct u.
Qed.

Lemma ArgsMobSession_roundtrip_witness :
  ∃ b a,
    ArgsMobSession_Marshal (NewArgsMobSession 200 true false 0x01020304) = Ok b ∧
    length b = 5%nat ∧
    ParseArgsMobSession b = Ok a ∧
    ArgsMobSession_QFI a = 200 `mod` 64 ∧
    ArgsMobSession_R a = true ∧
    ArgsMobSession_U a = false ∧
    ArgsMobSession_PDUSessionID a = 0x01020304.
Proof. apply ArgsMobSession_roundtrip; lia. Defined.

Lemma BigEndian_Uint32_bound b1 b2 b3 b4 :
  is_byte b1 → is_byte b2 → is_byte b3 → is_byte b4 →
  0 ≤ Z.lor (Z.lor (Z.lor b4 (Z.shiftl b3 8)) (Z.shiftl b2 16)) (Z.shiftl b1 24)
    < 2 ^ 32.
Proof.
  unfold is_byte. intros H1 H2 H3 H4.
  set (v := Z.lor _ _).
  assert (v = v `mod` 2 ^ 32) as ->; [|apply Z.mod_pos_bound; lia].
  unfold v.
  rewrite <- (Z.mod_small b1 (2 ^ 8)), <- (Z.mod_small b2 (2 ^ 8)),
    <- (Z.mod_small b3 (2 ^ 8)), <- (Z.mod_small b4 (2 ^ 8)) by lia.
  Z.bitblast.
Qed.

Lemma ArgsMobSession_UnmarshalBinary_cons b0 b1 b2 b3 b4 rest :
  ArgsMobSession_UnmarshalBinary (b0 :: b1 :: b2 :: b3 :: b4 :: rest) =
  ArgsMobSession_UnmarshalBinary [b0; b1; b2; b3; b4].
Proof.
  unfold ArgsMobSession_UnmarshalBinary, slice.
  pose proof (len_nonneg rest).
  rewrite !(bool_decide_eq_false_2 (_ < 5)) by (rewrite !len_cons; lia).
  rewrite !bool_decide_eq_true_2
    by (unfold teidPosByte, teidSizeByte; rewrite !len_cons; lia).
  reflexivity.
Qed.

Lemma ParseArgsMobSession_long (b : list Z) :
  Forall is_byte b → 5 ≤ len b →
  ∃ a, ParseArgsMobSession b = Ok a ∧ ArgsMobSession_wf a ∧
       ParseArgsMobSession (take 5 b) = Ok a.
Proof.
  intros Hbytes Hlong.
  destruct b as [|b0 [|b1 [|b2 [|b3 [|b4 rest]]]]];
    try (unfold len in Hlong; simpl in Hlong; lia).
  apply Forall_cons_1 in Hbytes as [H0 Hbytes].
  apply Forall_cons_1 in Hbytes as [H1 Hbytes].
  apply Forall_cons_1 in Hbytes as [H2 Hbytes].
  apply Forall_cons_1 in Hbytes as [H3 Hbytes].
  apply Forall_cons_1 in Hbytes as [H4 _].
  unfold ParseArgsMobSession. simpl take.
  rewrite ArgsMobSession_UnmarshalBinary_cons.
  rewrite ArgsMobSession_UnmarshalBinary_bytes.
  eexists. split; [reflexivity|]. split; [|reflexivity].
  unfold ArgsMobSession_wf. simpl.
  unfold and8. change qfiMask with (Z.ones 6). change rMask with (Z.ones 1).
  change uMask with (Z.ones 1).
  rewrite !(Z.land_comm (Z.ones _)), !Z.land_ones by lia.
  repeat split; try (apply Z.mod_pos_bound; lia);
    by apply BigEndian_Uint32_bound.
Qed.

(** X8: [ParseArgsMobSession] fails with [ErrTooShortToParse] on fewer than
    5 bytes; on 5 bytes or more it succeeds, reads the first 5 bytes only,
    and every field of the result is within its bit width. *)
Theorem ParseArgsMobSession_outcome (b : list Z) :
  Forall is_byte b →
  (len b < 5 → ParseArgsMobSession b = Err ErrTooShortToParse) ∧
  (5 ≤ len b →
   ∃ a, ParseArgsMobSession b = Ok a ∧ ArgsMobSession_wf a ∧
        ParseArgsMobSession (take 5 b) = Ok a).
Proof.
  intros Hbytes. split.
  - intros Hshort. unfold ParseArgsMobSession, ArgsMobSession_UnmarshalBinary.
    by rewrite bool_decide_eq_true_2.
  - by apply ParseArgsMobSession_long.
Qed.

Lemma ParseArgsMobSession_outcome_witness :
  let b := [0x16; 0x01; 0x02; 0x03; 0x04; 0xAA] in
  (len b < 5 → ParseArgsMobSession b = Err ErrTooShortToParse) ∧
  (5 ≤ len b →
   ∃ a, ParseArgsMobSession b = Ok a ∧ ArgsMobSession_wf a ∧
        ParseArgsMobSession (take 5 b) = Ok a).
Proof.
  intros b. apply ParseArgsMobSession_outcome.
  repeat constructor; vm_compute; discriminate.
Defined.

Lemma store_or_head b0 rest v : store_or (b0 :: rest) 0 v = Ok (or8 b0 v :: rest).
Proof.
  destruct (store_or_in_range (b0 :: rest) 0 v) as (old & Hold & ->).
  - rewrite len_cons. pose proof (len_nonneg rest). lia.
  - simpl in Hold. by injection Hold as <-.
Qed.

Lemma on_slice_1_5 b0 b1 b2 b3 b4 rest (f : list Z → result (list Z)) :
  on_slice (b0 :: b1 :: b2 :: b3 :: b4 :: rest) teidPosByte
    (teidPosByte + teidSizeByte) f =
  f [b1; b2; b3; b4] ≫= λ sub, Ok (b0 :: sub ++ rest).
Proof.
  unfold on_slice, slice, teidPosByte, teidSizeByte.
  pose proof (len_nonneg rest).
  rewrite bool_decide_eq_true_2 by (rewrite !len_cons; lia).
  reflexivity.
Qed.

(** X9: [ArgsMobSession.MarshalTo] fails with [ErrTooShortToMarshal] on a
    buffer of fewer than 5 bytes.  On a longer buffer it ORs the flag byte
    onto what byte 0 held (stale bits of byte 0 survive), overwrites bytes 1
    to 4 with the session identifier and leaves the bytes from 5 on as they
    were. *)
Theorem ArgsMobSession_MarshalTo_outcome (a : ArgsMobSession) (b : list Z) :
  (len b < 5 → ArgsMobSession_MarshalTo a b = Err ErrTooShortToMarshal) ∧
  (5 ≤ len b →
   ∃ m0 m1 m2 m3 m4 b0 rest,
     ArgsMobSession_Marshal a = Ok [m0; m1; m2; m3; m4] ∧
     b = b0 :: rest ∧
     ArgsMobSession_MarshalTo a b
       = Ok (or8 b0 m0 :: m1 :: m2 :: m3 :: m4 :: drop 4 rest)).
Proof.
  split.
  - intros Hshort. unfold ArgsMobSession_MarshalTo.
    by rewrite bool_decide_eq_true_2.
  - intros Hlong.
    destruct b as [|b0 [|b1 [|b2 [|b3 [|b4 rest]]]]];
      try (unfold len in Hlong; simpl in Hlong; lia).
    rewrite ArgsMobSession_Marshal_bytes.
    eexists _, _, _, _, _, b0, _. split; [done|]. split; [done|].
    pose proof (len_nonneg rest).
    unfold ArgsMobSession_MarshalTo, ArgsMobSession_MarshalLen.
    rewrite bool_decide_eq_false_2 by (rewrite !len_cons; lia).
    rewrite !store_or_head, !bind_Ok. unfold qfiPosByte. rewrite !store_or_head.
    rewrite !bind_Ok. unfold rPosByte, uPosByte. rewrite !store_or_head, !bind_Ok.
    rewrite on_slice_1_5.
    change (BigEndian_PutUint32 [b1; b2; b3; b4] (pduSessionID a))
      with (Ok [byte (Z.shiftr (pduSessionID a) 24);
                byte (Z.shiftr (pduSessionID a) 16);
                byte (Z.shiftr (pduSessionID a) 8); byte (pduSessionID a)]).
    rewrite bind_Ok. simpl. do 2 f_equal.
    unfold or8. by rewrite Z.lor_0_l, !Z.lor_assoc.
Qed.

Lemma ArgsMobSession_MarshalTo_outcome_witness :
  ArgsMobSession_MarshalTo (NewArgsMobSession 0 false false 1)
    [0x80; 0xEE; 0xEE; 0xEE; 0xEE; 0x55] = Ok [0x80; 0; 0; 0; 1; 0x55].
Proof.
  destruct (ArgsMobSession_MarshalTo_outcome
              (NewArgsMobSession 0 false false 1)
              [0x80; 0xEE; 0xEE; 0xEE; 0xEE; 0x55]) as [_ Hlong].
  destruct Hlong as (m0 & m1 & m2 & m3 & m4 & b0 & rest & Hm & Hb & ->);
    [vm_compute; discriminate|].
  injection Hb as <- <-. injection Hm as <- <- <- <- <-. reflexivity.
Defined.

End args_mob_session.

(** ** [Marshal]: outcome and bit layout for every prefix length *)

Section marshal_layout.

Lemma ArgsMobSession_Marshal_is_bytes a :
  ∃ argsB, ArgsMobSession_Marshal a = Ok argsB ∧ length argsB = 5%nat ∧
           Forall is_byte argsB.
Proof.
  rewrite ArgsMobSession_Marshal_bytes. eexists. split; [done|]. split; [done|].
  repeat apply Forall_cons_2; try apply Forall_nil_2; try apply is_byte_byte.
  repeat apply is_byte_or8; try apply is_byte_byte. apply is_byte_0.
Qed.

(** Bit [m] of the 16 bytes of an address is bit [127 - m] of its integer. *)
Lemma bit_bePut16 a m :
  0 ≤ m < 128 → bit (netip.bePut 16 a) m = Z.testbit a (127 - m).
Proof.
  intros Hm. unfold bit.
  assert (0 ≤ m / 8 < 16) as Hj by div_mod_lia.
  assert (0 ≤ m `mod` 8 < 8) as Ht by (apply Z.mod_pos_bound; lia).
  rewrite (list_lookup_total_correct _ _
             (byte (Z.shiftr a (8 * (Z.of_nat 16 - 1 - Z.of_nat (Z.to_nat (m / 8)))))))
    by (apply lookup_bePut; lia).
  rewrite testbit_byte, bool_decide_eq_true_2 by lia. simpl.
  rewrite Z.shiftr_spec by lia. f_equal. div_mod_lia.
Qed.

(** A canonical prefix has no bit set at or behind its length. *)
Lemma bit_canonical_prefix (p : netip.Prefix) m :
  ipv6_prefix p → netip.Bits p ≤ m < 128 →
  bit (netip.As16 (netip.ip p)) m = false.
Proof.
  intros (Hz & Haddr & Hbits & Hcanon) Hm.
  destruct p as [[a z] bitsPlusOne]. unfold netip.Bits, netip.As16 in *.
  simpl in *. subst z.
  replace bitsPlusOne with (bitsPlusOne - 1 + 1) in Hcanon at 1 2 by lia.
  rewrite Masked_ipv6 in Hcanon by lia. injection Hcanon as Hmasked.
  rewrite bit_bePut16 by lia. rewrite <- Hmasked.
  rewrite Z.land_spec, testbit_mask6 by lia.
  rewrite bool_decide_eq_false_2 by lia. apply andb_false_r.
Qed.

Lemma needed_ipv4 bits : 0 ≤ bits ≤ 96 → needed bits 4 ≤ 16.
Proof. intros Hbits. unfold needed. case_bool_decide; div_mod_lia. Qed.

Lemma needed_args bits : 0 ≤ bits ≤ 56 → needed (bits + 8 * 4) 5 ≤ 16.
Proof. intros Hbits. unfold needed. case_bool_decide; div_mod_lia. Qed.

Lemma needed_udp bits : 0 ≤ bits ≤ 80 → needed (bits + 8 * 4) 2 ≤ 16.
Proof. intros Hbits. unfold needed. case_bool_decide; div_mod_lia. Qed.

Lemma needed_udp_oversized bits : 80 < bits → needed (bits + 8 * 4) 2 > 16.
Proof. intros Hbits. unfold needed. case_bool_decide; div_mod_lia. Qed.

(** X10: for every destination address with a canonical IPv6 prefix of
    length [p], [p + 32 + 40 <= 128], and four IPv4 bytes, [Marshal]
    succeeds with 16 bytes whose bits are, in order: the [p] prefix bits,
    the 32 IPv4 bits, the 40 bits of the marshalled argument block, and
    zero padding up to bit 127, on and off byte boundaries alike. *)
Theorem MGTP4IPv6Dst_Marshal_layout (m : MGTP4IPv6Dst) :
  ipv6_prefix (dst_prefix m) →
  length (dst_ipv4 m) = 4%nat → Forall is_byte (dst_ipv4 m) →
  netip.Bits (dst_prefix m) + 32 + 40 ≤ 128 →
  ∃ out argsB,
    MGTP4IPv6Dst_Marshal m = Ok out ∧ length out = 16%nat ∧
    Forall is_byte out ∧
    ArgsMobSession_Marshal (argsMobSession m) = Ok argsB ∧
    ∀ i, 0 ≤ i < 128 →
      bit out i =
        if bool_decide (i < netip.Bits (dst_prefix m))
        then bit (netip.As16 (netip.ip (dst_prefix m))) i
        else if bool_decide (i < netip.Bits (dst_prefix m) + 32)
        then bit (dst_ipv4 m) (i - netip.Bits (dst_prefix m))
        else if bool_decide (i < netip.Bits (dst_prefix m) + 32 + 40)
        then bit argsB (i - netip.Bits (dst_prefix m) - 32)
        else false.
Proof.
  intros Hpfx Hlen4 Hbytes Hfit. pose proof Hpfx as (_ & _ & Hbits & _).
  set (p := netip.Bits (dst_prefix m)) in *.
  destruct (ArgsMobSession_Marshal_is_bytes (argsMobSession m))
    as (argsB & HargsB & Hlen5 & HbytesB).
  unfold MGTP4IPv6Dst_Marshal, MGTP4IPv6Dst_MarshalTo, MGTP4IPv6Dst_MarshalLen.
  rewrite bool_decide_eq_false_2 by (by vm_compute).
  rewrite copy_make_exact' by (by rewrite length_As16).
  rewrite AsSlice_AddrFrom4 by done. fold p.
  rewrite bool_decide_eq_false_2 by lia. rewrite !uint_small by lia.
  set (P := netip.As16 _).
  assert (length P = 16%nat) as HP by apply length_As16.
  assert (Forall is_byte P) as HbytesP by apply Forall_is_byte_bePut.
  destruct (AppendToSlice_fits P p (dst_ipv4 m)) as (b1 & Hb1 & Hlen1).
  { lia. }
  { unfold len. rewrite Hlen4, HP. apply (needed_ipv4 p). lia. }
  destruct (AppendToSlice_window P p (dst_ipv4 m) b1) as (_ & Hbytes1 & Hbits1);
    [lia|done..|].
  rewrite Hb1, bind_Ok, HargsB, bind_Ok.
  destruct (AppendToSlice_fits b1 (p + 8 * 4) argsB) as (out & Hout & Hlen2).
  { lia. }
  { unfold len. rewrite Hlen5, Hlen1, HP. apply (needed_args p). lia. }
  destruct (AppendToSlice_window b1 (p + 8 * 4) argsB out)
    as (_ & Hbytes2 & Hbits2); [lia|done..|].
  exists out, argsB. split; [done|]. split; [congruence|].
  split; [done|]. split; [done|].
  unfold len in *. rewrite Hlen4, HP in Hbits1.
  rewrite Hlen5, Hlen1, HP in Hbits2.
  assert (∀ i, p ≤ i < 128 → bit P i = false) as Hzero
    by (intros; apply bit_canonical_prefix; [done|]; fold p; lia).
  assert (∀ i, 0 ≤ i < 128 →
            bit b1 i = if bool_decide (i < p) then bit P i
                       else if bool_decide (i < p + 32)
                       then bit (dst_ipv4 m) (i - p) else false) as Hfield1.
  { intros i Hi. rewrite Hbits1 by lia.
    destruct (decide (i < p)); [by rewrite bool_decide_eq_false_2,
      bool_decide_eq_true_2 by lia|].
    rewrite (bool_decide_eq_false_2 (i < p)), (Hzero i) by lia.
    destruct (decide (i < p + 32)).
    - rewrite (bool_decide_eq_true_2 (p ≤ i < _)),
        (bool_decide_eq_true_2 (i < p + 32)) by lia.
      by destruct (bool_decide _).
    - by rewrite (bool_decide_eq_false_2 (p ≤ i < _)),
        (bool_decide_eq_false_2 (i < p + 32)) by lia. }
  intros i Hi. rewrite Hbits2 by lia.
  destruct (decide (i < p + 32)).
  - rewrite (bool_decide_eq_false_2 (_ ≤ i < _)), Hfield1 by lia.
    destruct (decide (i < p)).
    + by rewrite !(bool_decide_eq_true_2 (i < p)) by lia.
    + by rewrite !(bool_decide_eq_false_2 (i < p)),
        !(bool_decide_eq_true_2 (i < p + 32)) by lia.
  - rewrite !(bool_decide_eq_false_2 (i < p)),
      !(bool_decide_eq_false_2 (i < p + 32)) by lia.
    destruct (decide (i < p + 32 + 40)).
    + rewrite (bool_decide_eq_true_2 (_ ≤ i < _)),
        (bool_decide_eq_true_2 (i < p + 32 + 40)), Hfield1 by lia.
      rewrite (bool_decide_eq_false_2 (i < p)),
        (bool_decide_eq_false_2 (i < p + 32)) by lia.
      replace (i - (p + 8 * 4)) with (i - p - 32) by lia.
      case_bool_decide; reflexivity.
    + rewrite (bool_decide_eq_false_2 (_ ≤ i < _)),
        (bool_decide_eq_false_2 (i < p + 32 + 40)), Hfield1 by lia.
      by rewrite (bool_decide_eq_false_2 (i < p)),
        (bool_decide_eq_false_2 (i < p + 32)) by lia.
Qed.

Lemma MGTP4IPv6Dst_Marshal_layout_witness :
  let m := NewMGTP4IPv6Dst
             (netip.PrefixFrom (netip.AddrFrom16
                [0x3f; 0xff; 0; 0; 0; 0; 0; 0; 0; 0; 0; 0; 0; 0; 0; 0]) 20)
             [203; 0; 113; 1] (NewArgsMobSession 0 false false 1) in
  ∃ out argsB,
    MGTP4IPv6Dst_Marshal m = Ok out ∧ length out = 16%nat ∧
    Forall is_byte out ∧
    ArgsMobSession_Marshal (argsMobSession m) = Ok argsB ∧
    ∀ i, 0 ≤ i < 128 →
      bit out i =
        if bool_decide (i < netip.Bits (dst_prefix m))
        then bit (netip.As16 (netip.ip (dst_prefix m))) i
        else if bool_decide (i < netip.Bits (dst_prefix m) + 32)
        then bit (dst_ipv4 m) (i - netip.Bits (dst_prefix m))
        else if bool_decide (i < netip.Bits (dst_prefix m) + 32 + 40)
        then bit argsB (i - netip.Bits (dst_prefix m) - 32)
        else false.
Proof.
  intros m. apply (MGTP4IPv6Dst_Marshal_layout m).
  - repeat split; try (vm_compute; reflexivity); try (vm_compute; discriminate).
  - reflexivity.
  - repeat constructor; vm_compute; discriminate.
  - vm_compute. discriminate.
Defined.

Lemma MGTP4IPv6Src_Marshal_steps (m : MGTP4IPv6Src) :
  0 ≤ netip.Bits (src_prefix m) ≤ 80 →
  ∃ b1 b2,
    AppendToSlice (netip.As16 (netip.ip (src_prefix m)))
      (netip.Bits (src_prefix m)) (netip.AsSlice (netip.AddrFrom4 (src_ipv4 m)))
      = Ok b1 ∧
    AppendToSlice b1 (netip.Bits (src_prefix m) + 8 * 4)
      [byte (Z.shiftr (udp m) 8); byte (udp m)] = Ok b2 ∧
    length b1 = 16%nat ∧ length b2 = 16%nat ∧
    MGTP4IPv6Src_Marshal m = Ok (<[15%nat := byte (netip.Bits (src_prefix m))]> b2).
Proof.
  intros Hbits. set (p := netip.Bits (src_prefix m)) in *.
  set (P := netip.As16 _). set (ipv4 := netip.AsSlice _).
  assert (length P = 16%nat) as HP by apply length_As16.
  assert (length ipv4 = 4%nat) as Hlen4 by apply length_AsSlice_AddrFrom4.
  destruct (AppendToSlice_fits P p ipv4) as (b1 & Hb1 & Hlen1).
  { lia. }
  { unfold len. rewrite Hlen4, HP. apply (needed_ipv4 p). lia. }
  destruct (AppendToSlice_fits b1 (p + 8 * 4)
              [byte (Z.shiftr (udp m) 8); byte (udp m)]) as (b2 & Hb2 & Hlen2).
  { lia. }
  { unfold len. rewrite Hlen1, HP. apply (needed_udp p). lia. }
  exists b1, b2. split; [done|]. split; [done|]. split; [congruence|].
  split; [congruence|].
  unfold MGTP4IPv6Src_Marshal, MGTP4IPv6Src_MarshalTo, MGTP4IPv6Src_MarshalLen.
  rewrite bool_decide_eq_false_2 by (by vm_compute).
  rewrite copy_make_exact' by (by rewrite length_As16).
  change (BigEndian_PutUint16 (make 2) (udp m))
    with (Ok [byte (Z.shiftr (udp m) 8); byte (udp m)]).
  rewrite bind_Ok. fold p P ipv4.
  rewrite bool_decide_eq_false_2 by lia. rewrite !uint_small by lia.
  rewrite Hb1, bind_Ok, Hb2, bind_Ok.
  apply store_in_range. unfold len, ipv6LenEncodingPosByte. lia.
Qed.

Lemma bit_BigEndian16 v j :
  0 ≤ j < 16 →
  bit [byte (Z.shiftr v 8); byte v] j = Z.testbit v (15 - j).
Proof.
  intros Hj. unfold bit.
  assert (0 ≤ j `mod` 8 < 8) as Ht by (apply Z.mod_pos_bound; lia).
  destruct (decide (j < 8)) as [Hhigh|Hlow].
  - rewrite Z.div_small, Z.mod_small by lia. simpl.
    rewrite testbit_byte, bool_decide_eq_true_2, Z.shiftr_spec by lia.
    simpl. f_equal. lia.
  - assert (j / 8 = 1) as -> by div_mod_lia.
    assert (j `mod` 8 = j - 8) as -> by div_mod_lia. simpl.
    rewrite testbit_byte, bool_decide_eq_true_2 by lia. simpl. f_equal. lia.
Qed.

(** X11: for every source address with a canonical IPv6 prefix of length
    [p], [p + 32 + 16 <= 120], and four IPv4 bytes, [Marshal] succeeds with
    16 bytes: byte 15 is [p], and bits 0 to 119 are, in order, the [p]
    prefix bits, the 32 IPv4 bits, the 16 bits of the port (most
    significant first) and zeros, on and off byte boundaries alike. *)
Theorem MGTP4IPv6Src_Marshal_layout (m : MGTP4IPv6Src) :
  ipv6_prefix (src_prefix m) →
  length (src_ipv4 m) = 4%nat → Forall is_byte (src_ipv4 m) →
  netip.Bits (src_prefix m) + 32 + 16 ≤ 120 →
  ∃ out,
    MGTP4IPv6Src_Marshal m = Ok out ∧ length out = 16%nat ∧
    Forall is_byte out ∧
    out !! 15%nat = Some (netip.Bits (src_prefix m)) ∧
    ∀ i, 0 ≤ i < 120 →
      bit out i =
        if bool_decide (i < netip.Bits (src_prefix m))
        then bit (netip.As16 (netip.ip (src_prefix m))) i
        else if bool_decide (i < netip.Bits (src_prefix m) + 32)
        then bit (src_ipv4 m) (i - netip.Bits (src_prefix m))
        else if bool_decide (i < netip.Bits (src_prefix m) + 32 + 16)
        then Z.testbit (udp m) (15 - (i - netip.Bits (src_prefix m) - 32))
        else false.
Proof.
  intros Hpfx Hlen4 Hbytes Hfit. pose proof Hpfx as (_ & _ & Hbits & _).
  destruct (MGTP4IPv6Src_Marshal_steps m) as (b1 & b2 & Hb1 & Hb2 & Hlen1 & Hlen2 & ->);
    [lia|].
  rewrite AsSlice_AddrFrom4 in Hb1 by done.
  set (p := netip.Bits (src_prefix m)) in *. set (P := netip.As16 _) in *.
  set (udpB := [_; _]) in *.
  assert (length P = 16%nat) as HP by apply length_As16.
  assert (Forall is_byte P) as HbytesP by apply Forall_is_byte_bePut.
  assert (Forall is_byte udpB) as HbytesU
    by (repeat apply Forall_cons_2; try apply Forall_nil_2; apply is_byte_byte).
  destruct (AppendToSlice_window P p (src_ipv4 m) b1) as (_ & Hbytes1 & Hbits1);
    [lia|done..|].
  destruct (AppendToSlice_window b1 (p + 8 * 4) udpB b2)
    as (_ & Hbytes2 & Hbits2); [lia|done..|].
  assert (byte p = p) as -> by (unfold byte; apply Z.mod_small; lia).
  exists (<[15%nat := p]> b2). split; [done|].
  split; [by rewrite length_insert|].
  split; [apply Forall_insert; [done|unfold is_byte; lia]|].
  split; [apply list_lookup_insert_eq; lia|].
  unfold len in *. rewrite Hlen4, HP in Hbits1. rewrite Hlen1 in Hbits2.
  simpl length in Hbits2.
  assert (∀ i, p ≤ i < 128 → bit P i = false) as Hzero
    by (intros; apply bit_canonical_prefix; [done|]; fold p; lia).
  assert (∀ i, 0 ≤ i < 128 →
            bit b1 i = if bool_decide (i < p) then bit P i
                       else if bool_decide (i < p + 32)
                       then bit (src_ipv4 m) (i - p) else false) as Hfield1.
  { intros i Hi. rewrite Hbits1 by lia.
    destruct (decide (i < p)); [by rewrite bool_decide_eq_false_2,
      bool_decide_eq_true_2 by lia|].
    rewrite (bool_decide_eq_false_2 (i < p)), (Hzero i) by lia.
    destruct (decide (i < p + 32)).
    - rewrite (bool_decide_eq_true_2 (p ≤ i < _)),
        (bool_decide_eq_true_2 (i < p + 32)) by lia.
      by destruct (bool_decide (p `mod` 8 = 0)).
    - by rewrite (bool_decide_eq_false_2 (p ≤ i < _)),
        (bool_decide_eq_false_2 (i < p + 32)) by lia. }
  intros i Hi.
  assert (bit (<[15%nat := p]> b2) i = bit b2 i) as ->.
  { unfold bit. rewrite list_lookup_total_insert_ne; [done|]. div_mod_lia. }
  rewrite Hbits2 by lia.
  destruct (decide (i < p + 32)).
  - rewrite (bool_decide_eq_false_2 (_ ≤ i < _)), Hfield1 by lia.
    destruct (decide (i < p)).
    + by rewrite !(bool_decide_eq_true_2 (i < p)) by lia.
    + by rewrite !(bool_decide_eq_false_2 (i < p)),
        !(bool_decide_eq_true_2 (i < p + 32)) by lia.
  - rewrite !(bool_decide_eq_false_2 (i < p)),
      !(bool_decide_eq_false_2 (i < p + 32)) by lia.
    destruct (decide (i < p + 32 + 16)).
    + rewrite (bool_decide_eq_true_2 (_ ≤ i < _)),
        (bool_decide_eq_true_2 (i < p + 32 + 16)), Hfield1 by lia.
      rewrite (bool_decide_eq_false_2 (i < p)),
        (bool_decide_eq_false_2 (i < p + 32)) by lia.
      replace (i - (p + 8 * 4)) with (i - p - 32) by lia.
      unfold udpB. rewrite bit_BigEndian16 by lia.
      by destruct (bool_decide ((p + 8 * 4) `mod` 8 = 0)).
    + rewrite (bool_decide_eq_false_2 (_ ≤ i < _)),
        (bool_decide_eq_false_2 (i < p + 32 + 16)), Hfield1 by lia.
      by rewrite (bool_decide_eq_false_2 (i < p)),
        (bool_decide_eq_false_2 (i < p + 32)) by lia.
Qed.

Lemma MGTP4IPv6Src_Marshal_layout_witness :
  let m := NewMGTP4IPv6Src
             (netip.PrefixFrom (netip.AddrFrom16
                [0x3f; 0xff; 0xf0; 0; 0; 0; 0; 0; 0; 0; 0; 0; 0; 0; 0; 0]) 21)
             [203; 0; 113; 1] 12345 in
  ∃ out,
    MGTP4IPv6Src_Marshal m = Ok out ∧ length out = 16%nat ∧
    Forall is_byte out ∧
    out !! 15%nat = Some (netip.Bits (src_prefix m)) ∧
    ∀ i, 0 ≤ i < 120 →
      bit out i =
        if bool_decide (i < netip.Bits (src_prefix m))
        then bit (netip.As16 (netip.ip (src_prefix m))) i
        else if bool_decide (i < netip.Bits (src_prefix m) + 32)
        then bit (src_ipv4 m) (i - netip.Bits (src_prefix m))
        else if bool_decide (i < netip.Bits (src_prefix m) + 32 + 16)
        then Z.testbit (udp m) (15 - (i - netip.Bits (src_prefix m) - 32))
        else false.
Proof.
  intros m. apply (MGTP4IPv6Src_Marshal_layout m).
  - repeat split; try (vm_compute; reflexivity); try (vm_compute; discriminate).
  - reflexivity.
  - repeat constructor; vm_compute; discriminate.
  - vm_compute. discriminate.
Defined.

(** X12: [MGTP4IPv6Dst.Marshal] fails with [ErrPrefixLength] when the
    stored prefix is invalid ([Bits() == -1]) and succeeds with 16 bytes
    for every prefix length from 0 to 56; [MGTP4IPv6Src.Marshal] fails with
    [ErrPrefixLength] on an invalid prefix, succeeds with 16 bytes for every
    prefix length from 0 to 80, and fails with [ErrTooShortToMarshal] from
    81 on.  Neither panics. *)
Theorem Marshal_outcome :
  (∀ m : MGTP4IPv6Dst,
     (netip.Bits (dst_prefix m) = -1 →
      MGTP4IPv6Dst_Marshal m = Err ErrPrefixLength) ∧
     (0 ≤ netip.Bits (dst_prefix m) ≤ 56 →
      ∃ out, MGTP4IPv6Dst_Marshal m = Ok out ∧ length out = 16%nat)) ∧
  (∀ m : MGTP4IPv6Src,
     (netip.Bits (src_prefix m) = -1 →
      MGTP4IPv6Src_Marshal m = Err ErrPrefixLength) ∧
     (0 ≤ netip.Bits (src_prefix m) ≤ 80 →
      ∃ out, MGTP4IPv6Src_Marshal m = Ok out ∧ length out = 16%nat) ∧
     (80 < netip.Bits (src_prefix m) ≤ 128 →
      MGTP4IPv6Src_Marshal m = Err ErrTooShortToMarshal)).
Proof.
  split.
  - intros m. split.
    + intros Hinvalid.
      unfold MGTP4IPv6Dst_Marshal, MGTP4IPv6Dst_MarshalTo, MGTP4IPv6Dst_MarshalLen.
      rewrite bool_decide_eq_false_2 by (by vm_compute).
      by rewrite bool_decide_eq_true_2.
    + intros Hbits. set (p := netip.Bits (dst_prefix m)) in *.
      unfold MGTP4IPv6Dst_Marshal, MGTP4IPv6Dst_MarshalTo, MGTP4IPv6Dst_MarshalLen.
      rewrite bool_decide_eq_false_2 by (by vm_compute).
      rewrite copy_make_exact' by (by rewrite length_As16). fold p.
      rewrite bool_decide_eq_false_2 by lia. rewrite !uint_small by lia.
      set (P := netip.As16 _). set (ipv4 := netip.AsSlice _).
      assert (length P = 16%nat) as HP by apply length_As16.
      assert (length ipv4 = 4%nat) as Hlen4 by apply length_AsSlice_AddrFrom4.
      destruct (AppendToSlice_fits P p ipv4) as (b1 & -> & Hlen1).
      { lia. }
      { unfold len. rewrite Hlen4, HP. apply (needed_ipv4 p). lia. }
      destruct (ArgsMobSession_Marshal_is_bytes (argsMobSession m))
        as (argsB & -> & Hlen5 & _).
      rewrite !bind_Ok.
      destruct (AppendToSlice_fits b1 (p + 8 * 4) argsB) as (out & -> & Hlen2).
      { lia. }
      { unfold len. rewrite Hlen5, Hlen1, HP. apply (needed_args p). lia. }
      exists out. split; [done|]. congruence.
  - intros m. split; [|split].
    + intros Hinvalid.
      unfold MGTP4IPv6Src_Marshal, MGTP4IPv6Src_MarshalTo, MGTP4IPv6Src_MarshalLen.
      rewrite bool_decide_eq_false_2 by (by vm_compute).
      change (BigEndian_PutUint16 (make 2) (udp m))
        with (Ok [byte (Z.shiftr (udp m) 8); byte (udp m)]).
      rewrite bind_Ok. by rewrite bool_decide_eq_true_2.
    + intros Hbits.
      destruct (MGTP4IPv6Src_Marshal_steps m Hbits)
        as (b1 & b2 & _ & _ & _ & Hlen2 & ->).
      eexists. split; [done|]. by rewrite length_insert.
    + intros Hbits. set (p := netip.Bits (src_prefix m)) in *.
      unfold MGTP4IPv6Src_Marshal, MGTP4IPv6Src_MarshalTo, MGTP4IPv6Src_MarshalLen.
      rewrite bool_decide_eq_false_2 by (by vm_compute).
      rewrite copy_make_exact' by (by rewrite length_As16).
      change (BigEndian_PutUint16 (make 2) (udp m))
        with (Ok [byte (Z.shiftr (udp m) 8); byte (udp m)]).
      rewrite bind_Ok. fold p.
      rewrite bool_decide_eq_false_2 by lia. rewrite !uint_small by lia.
      set (P := netip.As16 _). set (ipv4 := netip.AsSlice _).
      assert (len P = 16) as HP by (unfold len, P; by rewrite length_As16).
      assert (len ipv4 = 4) as Hlen4
        by (unfold len, ipv4; by rewrite length_AsSlice_AddrFrom4).
      destruct (decide (needed p (len ipv4) ≤ len P)) as [Hfits|Hshort].
      * destruct (AppendToSlice_fits P p ipv4) as (b1 & -> & Hlen1); [lia|done|].
        rewrite bind_Ok. rewrite AppendToSlice_too_short; [done|lia|].
        unfold len in *. rewrite Hlen1. simpl length. change (Z.of_nat 2) with 2.
        pose proof (needed_udp_oversized p). lia.
      * rewrite AppendToSlice_too_short; [done|lia|lia].
Qed.

Lemma Marshal_outcome_witness :
  (∃ out, MGTP4IPv6Dst_Marshal
            (NewMGTP4IPv6Dst
               (netip.PrefixFrom (netip.AddrFrom16
                  [0x3f; 0xff; 0; 0; 0; 0; 0; 0; 0; 0; 0; 0; 0; 0; 0; 0]) 20)
               [203; 0; 113; 1] (NewArgsMobSession 0 false false 1)) = Ok out ∧
          length out = 16%nat) ∧
  MGTP4IPv6Src_Marshal
    (NewMGTP4IPv6Src
       (netip.PrefixFrom (netip.AddrFrom16
          [0x3f; 0xff; 0; 0; 0; 0; 0; 0; 0; 0; 0; 0; 0; 0; 0; 0]) 88)
       [203; 0; 113; 1] 12345) = Err ErrTooShortToMarshal.
Proof.
  split.
  - apply (proj1 Marshal_outcome). vm_compute. split; discriminate.
  - apply (proj2 Marshal_outcome). vm_compute. split; [reflexivity|discriminate].
Defined.

End marshal_layout.

(** ** Constructors and parsers: what the values they return satisfy *)

Section values_returned.

Lemma land_mask6_range a n :
  0 ≤ n ≤ 128 → 0 ≤ Z.land a (netip.mask6 n) < 2 ^ 128.
Proof.
  intros Hn. set (x := Z.land a (netip.mask6 n)).
  assert (x = x `mod` 2 ^ 128) as ->; [|apply Z.mod_pos_bound; lia].
  apply Z.bits_inj'. intros m Hm. rewrite Z.testbit_mod_pow2 by lia.
  unfold x. rewrite Z.land_spec, testbit_mask6 by lia.
  destruct (Z.ltb_spec m 128); simpl; [done|].
  rewrite bool_decide_eq_false_2 by lia. apply andb_false_r.
Qed.

Lemma land_mask6_idempotent a n :
  Z.land (Z.land a (netip.mask6 n)) (netip.mask6 n) = Z.land a (netip.mask6 n).
Proof. by rewrite <- Z.land_assoc, Z.land_diag. Qed.

Lemma Masked_z4 a bits :
  0 ≤ bits ≤ 32 →
  netip.Masked (netip.mkPrefix (netip.mkAddr a netip.z4) (bits + 1)) =
    netip.mkPrefix
      (netip.mkAddr (Z.land a (netip.mask6 (bits + 96))) netip.z4) (bits + 1).
Proof.
  intros Hbits. unfold netip.Masked, netip.Addr_Prefix, netip.Bits. simpl.
  replace (bits + 1 - 1) with bits by lia.
  rewrite !bool_decide_eq_false_2 by lia.
  unfold netip.PrefixFrom, netip.BitLen. simpl.
  rewrite bool_decide_eq_true_2 by (split; [done|lia]).
  unfold byte. by rewrite Z.mod_small by lia.
Qed.

Lemma Masked_idempotent (p : netip.Prefix) :
  netip.Masked (netip.Masked p) = netip.Masked p.
Proof.
  destruct p as [[a z] bitsPlusOne].
  remember (netip.Masked (netip.mkPrefix (netip.mkAddr a z) bitsPlusOne))
    as q eqn:Hq.
  unfold netip.Masked, netip.Addr_Prefix, netip.Bits in Hq. simpl in Hq.
  case_bool_decide as Hneg; [by subst q|].
  destruct z; [by subst q| |].
  - case_bool_decide as Hbig; [by subst q|].
    replace (netip.PrefixFrom _ _)
      with (netip.Masked (netip.mkPrefix (netip.mkAddr a netip.z4)
                            (bitsPlusOne - 1 + 1))) in Hq.
    + rewrite Masked_z4 in Hq by lia. subst q.
      rewrite Masked_z4 by lia. by rewrite land_mask6_idempotent.
    + unfold netip.Masked, netip.Addr_Prefix, netip.Bits. simpl.
      replace (bitsPlusOne - 1 + 1 - 1) with (bitsPlusOne - 1) by lia.
      by rewrite !bool_decide_eq_false_2 by lia.
  - case_bool_decide as Hbig; [by subst q|].
    rewrite PrefixFrom_valid in Hq by (done || lia). subst q.
    rewrite Masked_ipv6 by lia. by rewrite land_mask6_idempotent.
Qed.

Lemma ipv6_prefix_Masked a bits :
  0 ≤ bits ≤ 128 →
  ipv6_prefix
    (netip.Masked (netip.mkPrefix (netip.mkAddr a netip.z6noz) (bits + 1))) ∧
  netip.Bits
    (netip.Masked (netip.mkPrefix (netip.mkAddr a netip.z6noz) (bits + 1)))
    = bits.
Proof.
  intros Hbits. split.
  - unfold ipv6_prefix. rewrite Masked_idempotent, Masked_ipv6 by done.
    unfold netip.Bits. simpl. split; [done|]. split; [|split; [lia|done]].
    by apply land_mask6_range.
  - rewrite Masked_ipv6 by done. unfold netip.Bits. simpl. lia.
Qed.

Lemma Bits_Masked_invalid (p : netip.Prefix) :
  netip.Bits p = -1 → netip.Bits (netip.Masked p) = -1.
Proof.
  intros Hinvalid. unfold netip.Masked, netip.Addr_Prefix.
  by rewrite bool_decide_eq_true_2 by lia.
Qed.

(** X13: both constructors store the prefix masked: the stored prefix is a
    fixed point of [Masked], so a prefix given with host bits set and its
    masked form construct the same value.  Given an invalid prefix
    ([Bits() == -1]) they construct a value whose [Marshal] fails with
    [ErrPrefixLength]; given a valid IPv6 prefix they store a canonical
    prefix of the same length. *)
Theorem constructors_canonicalise (p : netip.Prefix) (ipv4 : list Z)
    (a : ArgsMobSession) (port : Z) :
  NewMGTP4IPv6Dst (netip.Masked p) ipv4 a = NewMGTP4IPv6Dst p ipv4 a ∧
  NewMGTP4IPv6Src (netip.Masked p) ipv4 port = NewMGTP4IPv6Src p ipv4 port ∧
  (netip.Bits p = -1 →
   MGTP4IPv6Dst_Marshal (NewMGTP4IPv6Dst p ipv4 a) = Err ErrPrefixLength ∧
   MGTP4IPv6Src_Marshal (NewMGTP4IPv6Src p ipv4 port) = Err ErrPrefixLength) ∧
  (netip.z (netip.ip p) = netip.z6noz → 0 ≤ netip.Bits p ≤ 128 →
   ipv6_prefix (MGTP4IPv6Dst_Prefix (NewMGTP4IPv6Dst p ipv4 a)) ∧
   netip.Bits (MGTP4IPv6Dst_Prefix (NewMGTP4IPv6Dst p ipv4 a)) = netip.Bits p).
Proof.
  unfold NewMGTP4IPv6Dst, NewMGTP4IPv6Src, MGTP4IPv6Dst_Prefix.
  rewrite Masked_idempotent. split; [done|]. split; [done|]. split.
  - intros Hinvalid. apply Bits_Masked_invalid in Hinvalid. split.
    + unfold MGTP4IPv6Dst_Marshal, MGTP4IPv6Dst_MarshalTo, MGTP4IPv6Dst_MarshalLen.
      rewrite bool_decide_eq_false_2 by (by vm_compute).
      simpl dst_prefix. by rewrite bool_decide_eq_true_2.
    + unfold MGTP4IPv6Src_Marshal, MGTP4IPv6Src_MarshalTo, MGTP4IPv6Src_MarshalLen.
      rewrite bool_decide_eq_false_2 by (by vm_compute).
      change (BigEndian_PutUint16 (make 2) _) with (Ok [byte (Z.shiftr port 8); byte port]).
      rewrite bind_Ok. simpl src_prefix. by rewrite bool_decide_eq_true_2.
  - intros Hz Hbits. destruct p as [[x z] bitsPlusOne].
    unfold netip.Bits in Hbits. simpl in Hz, Hbits. subst z. simpl dst_prefix.
    replace bitsPlusOne with (bitsPlusOne - 1 + 1) by lia.
    destruct (ipv6_prefix_Masked x (bitsPlusOne - 1) Hbits) as [Hpfx HBits].
    split; [done|]. rewrite HBits. unfold netip.Bits. simpl. lia.
Qed.

Lemma constructors_canonicalise_witness :
  let p := netip.PrefixFrom (netip.AddrFrom16
             [0x3f; 0xff; 0xff; 0xff; 1; 2; 3; 4; 5; 6; 7; 8; 9; 10; 11; 12]) 20 in
  ipv6_prefix (MGTP4IPv6Dst_Prefix
                 (NewMGTP4IPv6Dst p [203; 0; 113; 1] (NewArgsMobSession 0 false false 1))) ∧
  netip.Bits (MGTP4IPv6Dst_Prefix
                (NewMGTP4IPv6Dst p [203; 0; 113; 1] (NewArgsMobSession 0 false false 1)))
    = netip.Bits p.
Proof.
  intros p.
  apply (constructors_canonicalise p [203; 0; 113; 1]
           (NewArgsMobSession 0 false false 1) 0).
  - reflexivity.
  - vm_compute. split; discriminate.
Defined.

(** Every byte [FromIPv6] returns from an address of bytes is a byte. *)
Lemma FromIPv6_is_bytes (ipv6 : list Z) startBit n :
  length ipv6 = 16%nat → Forall is_byte ipv6 →
  0 ≤ startBit → 1 ≤ n → startBit + 8 * n ≤ 128 →
  ∃ ret, FromIPv6 ipv6 startBit n = Ok ret ∧ len ret = n ∧ Forall is_byte ret.
Proof.
  intros Hlen Hbytes HstartBit Hn Hfit.
  destruct (decide (startBit `mod` 8 = 0)) as [Haligned|Hshift].
  - assert (startBit = 8 * (startBit / 8)) as -> by div_mod_lia.
    rewrite FromIPv6_aligned by (done || div_mod_lia).
    eexists. split; [done|]. split.
    + unfold len. rewrite length_take, length_drop. div_mod_lia.
    + by apply Forall_take, Forall_drop.
  - destruct (FromIPv6_unaligned ipv6 startBit n) as (ret & Hret & Hlenr & Hslots);
      [done..|].
    exists ret. split; [done|]. split; [done|].
    assert (0 ≤ startBit `mod` 8 < 8) by (apply Z.mod_pos_bound; lia).
    assert (∀ i : nat, (i < 16)%nat → is_byte (ipv6 !!! i)) as Hipv6.
    { intros i Hi. apply Forall_lookup_total; [done|lia]. }
    apply Forall_lookup. intros j b Hb.
    assert (j < Z.to_nat n)%nat as Hj
      by (apply lookup_lt_Some in Hb; unfold len in Hlenr; lia).
    rewrite Hslots in Hb by done. injection Hb as <-.
    destruct (decide _).
    + apply is_byte_or8; [apply is_byte_byte|].
      apply is_byte_shr8; [apply Hipv6; div_mod_lia|lia].
    + apply is_byte_byte.
Qed.

Lemma parsed_ipv6_prefix (addr : list Z) (prefixLength : Z) :
  0 ≤ prefixLength ≤ 128 →
  ipv6_prefix
    (netip.Masked (netip.PrefixFrom (netip.AddrFrom16 addr) prefixLength)) ∧
  netip.Bits
    (netip.Masked (netip.PrefixFrom (netip.AddrFrom16 addr) prefixLength))
    = prefixLength.
Proof.
  intros Hlen. rewrite PrefixFrom_valid by done.
  by apply ipv6_prefix_Masked.
Qed.

(** X14: on a 16-byte address of bytes, [ParseMGTP4IPv6Dst] succeeds for
    every [prefixLength] from 0 to 56, on and off byte boundaries, and the
    value it returns is well formed: a canonical IPv6 prefix of exactly
    [prefixLength] bits, four IPv4 bytes, and argument fields within their
    bit widths.  For [prefixLength + 32 > 128] (not wrapping) it returns the
    [ErrOutOfRange] of the IPv4 extraction. *)
Theorem ParseMGTP4IPv6Dst_outcome (ipv6Addr : list Z) (prefixLength : Z) :
  length ipv6Addr = 16%nat → Forall is_byte ipv6Addr → 0 ≤ prefixLength →
  (prefixLength + 32 + 40 ≤ 128 →
   ∃ m, ParseMGTP4IPv6Dst ipv6Addr prefixLength = Ok m ∧
        MGTP4IPv6Dst_wf m ∧
        netip.Bits (MGTP4IPv6Dst_Prefix m) = prefixLength) ∧
  (128 < prefixLength + 32 < 2 ^ 64 →
   ParseMGTP4IPv6Dst ipv6Addr prefixLength = Err ErrOutOfRange).
Proof.
  intros Hlen Hbytes Hpos. split.
  - intros Hfit.
    destruct (FromIPv6_is_bytes ipv6Addr prefixLength 4)
      as (ipv4 & Hipv4 & Hlen4 & Hbytes4); [done|done|lia..|].
    destruct (FromIPv6_is_bytes ipv6Addr (prefixLength + 32) 5)
      as (argsB & HargsB & Hlen5 & Hbytes5); [done|done|lia..|].
    destruct (ParseArgsMobSession_long argsB) as (a & Ha & Hwf & _);
      [done|lia|].
    destruct (parsed_ipv6_prefix ipv6Addr prefixLength) as [Hpfx HBits]; [lia|].
    exists (mkMGTP4IPv6Dst
              (netip.Masked
                 (netip.PrefixFrom (netip.AddrFrom16 ipv6Addr) prefixLength))
              ipv4 a).
    split; [|split; [|exact HBits]].
    + unfold ParseMGTP4IPv6Dst, uadd. change (8 * 4) with 32.
      rewrite int_of_uint_small, uint_small by lia.
      rewrite Hipv4, bind_Ok, slice_all, bind_Ok by done.
      rewrite copy_make_exact by done.
      rewrite HargsB. unfold ignoring_error. by rewrite bind_Ok, Ha, bind_Ok.
    + unfold MGTP4IPv6Dst_wf. simpl. unfold len in Hlen4.
      split; [done|]. split; [lia|]. done.
  - intros Hbig. unfold ParseMGTP4IPv6Dst.
    assert (FromIPv6 ipv6Addr prefixLength 4 = Err ErrOutOfRange) as ->; [|done].
    unfold FromIPv6, uadd, umul.
    assert (len ipv6Addr = 16) as -> by (unfold len; lia).
    change (uint 16) with 16. change (uint (8 * 16)) with 128.
    change (uint (uint (4 * 8))) with 32.
    rewrite uint_small by lia.
    rewrite bool_decide_eq_false_2 by lia.
    by rewrite bool_decide_eq_true_2 by lia.
Qed.

Lemma ParseMGTP4IPv6Dst_outcome_witness :
  let ipv6Addr :=
    [0x3f; 0xff; 0x0c; 0xb0; 0x07; 0x10; 0x10; 0; 0; 0; 0; 0x10; 0; 0; 0; 0] in
  (20 + 32 + 40 ≤ 128 →
   ∃ m, ParseMGTP4IPv6Dst ipv6Addr 20 = Ok m ∧
        MGTP4IPv6Dst_wf m ∧
        netip.Bits (MGTP4IPv6Dst_Prefix m) = 20) ∧
  (128 < 20 + 32 < 2 ^ 64 →
   ParseMGTP4IPv6Dst ipv6Addr 20 = Err ErrOutOfRange).
Proof.
  intros ipv6Addr. apply (ParseMGTP4IPv6Dst_outcome ipv6Addr 20).
  - reflexivity.
  - repeat constructor; vm_compute; discriminate.
  - lia.
Defined.

Lemma BigEndian_Uint16_bound b0 b1 :
  is_byte b0 → is_byte b1 → 0 ≤ Z.lor b1 (Z.shiftl b0 8) < 2 ^ 16.
Proof.
  unfold is_byte. intros H0 H1.
  set (v := Z.lor _ _).
  assert (v = v `mod` 2 ^ 16) as ->; [|apply Z.mod_pos_bound; lia].
  unfold v. apply Z.bits_inj'. intros m Hm.
  destruct (decide (m < 16)).
  - by rewrite Z.mod_pow2_bits_low.
  - rewrite Z.mod_pow2_bits_high by lia.
    rewrite Z.lor_spec, Z.shiftl_spec by lia.
    rewrite (testbit_is_byte b1), (testbit_is_byte b0) by (done || lia).
    done.
Qed.

(** The basic source parser inside its range, on an address of bytes. *)
Lemma ParseMGTP4IPv6Src_wf (addr : list Z) (prefixLen : Z) :
  length addr = 16%nat → Forall is_byte addr →
  0 < prefixLen → prefixLen + 32 ≤ 128 →
  ∃ m, ParseMGTP4IPv6Src addr prefixLen = Ok m ∧ MGTP4IPv6Src_wf m ∧
       netip.Bits (src_prefix m) = prefixLen ∧ udp m = 0.
Proof.
  intros Hlen Hbytes Hpos Hfit.
  destruct (ParseMGTP4IPv6Src_in_range addr prefixLen)
    as (ipv4 & Hipv4 & Hlen4 & Hparse); [done..|].
  destruct (FromIPv6_is_bytes addr prefixLen 4)
    as (ipv4' & Hipv4' & _ & Hbytes4); [done|done|lia..|].
  assert (ipv4' = ipv4) as -> by congruence.
  destruct (parsed_ipv6_prefix addr prefixLen) as [Hpfx HBits]; [lia|].
  eexists. split; [exact Hparse|]. split; [|by split].
  unfold MGTP4IPv6Src_wf. simpl. unfold len in Hlen4.
  split; [done|]. split; [lia|]. split; [done|lia].
Qed.

(** The vendor-extension parser when byte 15 leaves no room for the port. *)
Lemma ParseMGTP4IPv6SrcNextMN_no_room (addr : list Z) (b15 : Z) :
  length addr = 16%nat → addr !! 15%nat = Some b15 →
  74 ≤ Z.land b15 0x7F →
  ParseMGTP4IPv6SrcNextMN addr = Err ErrOutOfRange.
Proof.
  intros Hlen Hb15 Hbig.
  destruct (prefixLen_of_byte15 b15) as [_ Hrange].
  rewrite (ParseMGTP4IPv6SrcNextMN_byte15 addr b15 Hb15).
  destruct (decide (Z.land b15 0x7F + 32 ≤ 128)).
  - destruct (ParseMGTP4IPv6Src_in_range addr (Z.land b15 0x7F))
      as (ipv4 & _ & _ & ->); [done|lia..|].
    rewrite bind_Ok. by rewrite bool_decide_eq_true_2 by lia.
  - by rewrite ParseMGTP4IPv6Src_too_big by lia.
Qed.

(** X15: on a 16-byte address of bytes and a prefix length from 1 to 96,
    on or off a byte boundary, [ParseMGTP4IPv6Src] succeeds and returns a
    well-formed value: a canonical IPv6 prefix of exactly [prefixLen] bits,
    four IPv4 bytes, and UDP port 0. *)
Theorem ParseMGTP4IPv6Src_outcome (addr : list Z) (prefixLen : Z) :
  length addr = 16%nat → Forall is_byte addr →
  0 < prefixLen → prefixLen + 32 ≤ 128 →
  ∃ m, ParseMGTP4IPv6Src addr prefixLen = Ok m ∧ MGTP4IPv6Src_wf m ∧
       netip.Bits (src_prefix m) = prefixLen ∧
       MGTP4IPv6Src_UDPPortNumber m = 0.
Proof. apply ParseMGTP4IPv6Src_wf. Qed.

Lemma ParseMGTP4IPv6Src_outcome_witness :
  let addr := [0x3f; 0xff; 0; 0; 1; 203; 0; 113; 1; 0x30; 0x39; 0; 0; 0; 0; 40] in
  ∃ m, ParseMGTP4IPv6Src addr 37 = Ok m ∧ MGTP4IPv6Src_wf m ∧
       netip.Bits (src_prefix m) = 37 ∧
       MGTP4IPv6Src_UDPPortNumber m = 0.
Proof.
  intros addr. apply (ParseMGTP4IPv6Src_outcome addr 37).
  - reflexivity.
  - repeat constructor; vm_compute; discriminate.
  - lia.
  - lia.
Defined.

(** X16: the vendor-extension parser is decided by the low 7 bits [p] of
    byte 15 of a 16-byte address of bytes: [ErrPrefixLength] for [p = 0],
    [ErrOutOfRange] for every [p] from 74 to 127, and for [p] from 1 to 73
    a well-formed value whose prefix has exactly [p] bits. *)
Theorem ParseMGTP4IPv6SrcNextMN_outcome (addr : list Z) (b15 : Z) :
  length addr = 16%nat → Forall is_byte addr →
  addr !! 15%nat = Some b15 →
  (Z.land b15 0x7F = 0 →
   ParseMGTP4IPv6SrcNextMN addr = Err ErrPrefixLength) ∧
  (74 ≤ Z.land b15 0x7F →
   ParseMGTP4IPv6SrcNextMN addr = Err ErrOutOfRange) ∧
  (1 ≤ Z.land b15 0x7F ≤ 73 →
   ∃ m, ParseMGTP4IPv6SrcNextMN addr = Ok m ∧ MGTP4IPv6Src_wf m ∧
        netip.Bits (src_prefix m) = Z.land b15 0x7F).
Proof.
  intros Hlen Hbytes Hb15. split; [|split].
  - intros Hzero. rewrite (ParseMGTP4IPv6SrcNextMN_byte15 addr b15 Hb15).
    by rewrite Hzero.
  - by apply ParseMGTP4IPv6SrcNextMN_no_room.
  - intros Hp. rewrite (ParseMGTP4IPv6SrcNextMN_byte15 addr b15 Hb15).
    set (p := Z.land b15 0x7F) in *.
    destruct (ParseMGTP4IPv6Src_wf addr p)
      as (r & -> & (Hpfx & Hlen4 & Hbytes4 & _) & HBits & _); [done|done|lia..|].
    rewrite bind_Ok, bool_decide_eq_false_2 by lia.
    destruct (FromIPv6_is_bytes addr (p + 32) 2)
      as (w & -> & Hlen2 & Hbytes2); [done|done|lia..|].
    destruct w as [|w0 [|w1 [|? ?]]];
      try (unfold len in Hlen2; simpl in Hlen2; lia).
    apply Forall_cons_1 in Hbytes2 as [Hw0 Hbytes2].
    apply Forall_cons_1 in Hbytes2 as [Hw1 _].
    eexists. split; [reflexivity|]. split; [|done].
    unfold MGTP4IPv6Src_wf. simpl.
    split; [done|]. split; [done|]. split; [done|].
    by apply BigEndian_Uint16_bound.
Qed.

Lemma ParseMGTP4IPv6SrcNextMN_outcome_witness :
  let addr := [0x3f; 0xff; 0; 0; 1; 203; 0; 113; 1; 0x30; 0x39; 0; 0; 0; 0; 40] in
  (Z.land 40 0x7F = 0 →
   ParseMGTP4IPv6SrcNextMN addr = Err ErrPrefixLength) ∧
  (74 ≤ Z.land 40 0x7F →
   ParseMGTP4IPv6SrcNextMN addr = Err ErrOutOfRange) ∧
  (1 ≤ Z.land 40 0x7F ≤ 73 →
   ∃ m, ParseMGTP4IPv6SrcNextMN addr = Ok m ∧ MGTP4IPv6Src_wf m ∧
        netip.Bits (src_prefix m) = Z.land 40 0x7F).
Proof.
  intros addr. apply (ParseMGTP4IPv6SrcNextMN_outcome addr 40).
  - reflexivity.
  - repeat constructor; vm_compute; discriminate.
  - reflexivity.
Defined.

(** X17: the source-address encoder accepts prefixes the vendor-extension
    parser rejects.  For every prefix length from 74 to 80 [Marshal]
    succeeds, and [ParseMGTP4IPv6SrcNextMN] of the 16 bytes it returns is
    [ErrOutOfRange]. *)
Theorem MGTP4IPv6Src_Marshal_not_parsed_back (m : MGTP4IPv6Src) :
  74 ≤ netip.Bits (src_prefix m) ≤ 80 →
  ∃ b, MGTP4IPv6Src_Marshal m = Ok b ∧ length b = 16%nat ∧
       ParseMGTP4IPv6SrcNextMN b = Err ErrOutOfRange.
Proof.
  intros Hbits.
  destruct (MGTP4IPv6Src_Marshal_steps m) as (b1 & b2 & _ & _ & _ & Hlen2 & ->);
    [lia|].
  set (p := netip.Bits (src_prefix m)) in *.
  assert (byte p = p) as Hbyte by (unfold byte; apply Z.mod_small; lia).
  assert (Z.land p 0x7F = p) as Hland.
  { change 0x7F with (Z.ones 7). rewrite Z.land_ones by lia.
    apply Z.mod_small. lia. }
  eexists. split; [reflexivity|]. split; [by rewrite length_insert|].
  apply (ParseMGTP4IPv6SrcNextMN_no_room _ (byte p)).
  - by rewrite length_insert.
  - apply list_lookup_insert_eq. lia.
  - rewrite Hbyte, Hland. lia.
Qed.

Lemma MGTP4IPv6Src_Marshal_not_parsed_back_witness :
  let m := NewMGTP4IPv6Src
             (netip.PrefixFrom
                (netip.AddrFrom16 [0x3f; 0xff; 0; 0; 0; 0; 0; 0; 0; 0; 0; 0; 0; 0; 0; 0])
                76)
             [203; 0; 113; 1] 12345 in
  ∃ b, MGTP4IPv6Src_Marshal m = Ok b ∧ length b = 16%nat ∧
       ParseMGTP4IPv6SrcNextMN b = Err ErrOutOfRange.
Proof.
  intros m. apply (MGTP4IPv6Src_Marshal_not_parsed_back m).
  vm_compute. split; discriminate.
Defined.

End values_returned.

(** ** The port of the vendor extension *)

Section port_window.

(** The bits [FromIPv6] returns: the bits of the window in order, except
    that off a byte boundary the last [startBit mod 8] bits are zero. *)
Lemma FromIPv6_bits (ipv6 : list Z) startBit n :
  length ipv6 = 16%nat → Forall is_byte ipv6 →
  0 ≤ startBit → 1 ≤ n → startBit + 8 * n ≤ 128 →
  ∃ ret, FromIPv6 ipv6 startBit n = Ok ret ∧ len ret = n ∧
    ∀ k, 0 ≤ k < 8 * n →
      bit ret k =
        if bool_decide (k < 8 * n - startBit `mod` 8)
        then bit ipv6 (startBit + k) else false.
Proof.
  intros Hlen Hbytes HstartBit Hn Hfit.
  assert (0 ≤ startBit `mod` 8 < 8) as Ho by (apply Z.mod_pos_bound; lia).
  assert (0 ≤ startBit / 8) as HB by (apply Z.div_pos; lia).
  assert (startBit / 8 + n ≤ 16) as HBn by div_mod_lia.
  assert (∀ i : nat, (i < 16)%nat → is_byte (ipv6 !!! i)) as Hipv6.
  { intros i Hi. apply Forall_lookup_total; [done|lia]. }
  destruct (decide (startBit `mod` 8 = 0)) as [Haligned|Hshift].
  - exists (take (Z.to_nat n) (drop (Z.to_nat (startBit / 8)) ipv6)).
    split; [|split].
    + assert (startBit = 8 * (startBit / 8)) as Hs8 by div_mod_lia.
      rewrite Hs8 at 1. apply FromIPv6_aligned; lia.
    + unfold len. rewrite length_take, length_drop. lia.
    + intros k Hk. rewrite bool_decide_eq_true_2 by lia.
      assert (0 ≤ k / 8 < n) as Hj by div_mod_lia.
      unfold bit. rewrite lookup_total_take_lt, lookup_total_drop by lia.
      assert ((startBit + k) / 8 = startBit / 8 + k / 8) as -> by div_mod_lia.
      assert ((startBit + k) `mod` 8 = k `mod` 8) as -> by div_mod_lia.
      do 2 f_equal. lia.
  - destruct (FromIPv6_unaligned ipv6 startBit n)
      as (ret & Hret & Hlenr & Hslots); [done..|].
    exists ret. split; [done|]. split; [done|]. intros k Hk.
    assert (0 ≤ k / 8 < n) as Hj by div_mod_lia.
    assert (0 ≤ k `mod` 8 < 8) as Ht by (apply Z.mod_pos_bound; lia).
    assert (Z.to_nat (k / 8) < Z.to_nat n)%nat as Hjn by lia.
    pose proof (Hslots (Z.to_nat (k / 8)) Hjn) as Hslot.
    unfold bit at 1. rewrite (list_lookup_total_correct ret _ _ Hslot).
    destruct (decide (Z.to_nat (k / 8) + 1 < Z.to_nat n)%nat) as [Hinner|Hlast].
    + rewrite bool_decide_eq_true_2 by div_mod_lia.
      unfold or8. rewrite Z.lor_spec, testbit_shl8, testbit_shr8 by lia.
      rewrite bool_decide_eq_true_2 by lia. simpl. unfold bit.
      destruct (decide (startBit `mod` 8 + k `mod` 8 < 8)) as [Hsame|Hnext].
      * rewrite (testbit_is_byte
                   (ipv6 !!! (Z.to_nat (startBit / 8) + Z.to_nat (k / 8) + 1)%nat))
          by (apply Hipv6 || idtac; lia).
        rewrite orb_false_r.
        assert ((startBit + k) / 8 = startBit / 8 + k / 8) as -> by div_mod_lia.
        assert ((startBit + k) `mod` 8 = startBit `mod` 8 + k `mod` 8) as ->
          by div_mod_lia.
        f_equal; [f_equal; lia|lia].
      * rewrite Z.testbit_neg_r by lia. simpl.
        assert ((startBit + k) / 8 = startBit / 8 + k / 8 + 1) as ->
          by div_mod_lia.
        assert ((startBit + k) `mod` 8 = startBit `mod` 8 + k `mod` 8 - 8) as ->
          by div_mod_lia.
        f_equal; [f_equal; lia|lia].
    + rewrite testbit_shl8, bool_decide_eq_true_2 by lia. simpl.
      assert (k / 8 = n - 1) as Hk8 by lia.
      destruct (decide (startBit `mod` 8 + k `mod` 8 < 8)) as [Hsame|Hnext].
      * rewrite bool_decide_eq_true_2 by div_mod_lia. unfold bit.
        assert ((startBit + k) / 8 = startBit / 8 + k / 8) as -> by div_mod_lia.
        assert ((startBit + k) `mod` 8 = startBit `mod` 8 + k `mod` 8) as ->
          by div_mod_lia.
        f_equal; [f_equal; lia|lia].
      * rewrite bool_decide_eq_false_2 by div_mod_lia.
        apply Z.testbit_neg_r. lia.
Qed.

(** Bit [k] of two bytes read as a big-endian [uint16]. *)
Lemma bit_BigEndian_Uint16 w0 w1 k :
  is_byte w0 → is_byte w1 → 0 ≤ k < 16 →
  Z.testbit (Z.lor w1 (Z.shiftl w0 8)) (15 - k) = bit [w0; w1] k.
Proof.
  intros H0 H1 Hk. unfold bit. rewrite Z.lor_spec, Z.shiftl_spec by lia.
  assert (0 ≤ k `mod` 8 < 8) as Ht by (apply Z.mod_pos_bound; lia).
  destruct (decide (k < 8)) as [Hhigh|Hlow].
  - rewrite Z.div_small, Z.mod_small by lia. simpl.
    rewrite (testbit_is_byte w1) by (done || lia). simpl. f_equal. lia.
  - assert (k / 8 = 1) as -> by div_mod_lia.
    assert (k `mod` 8 = k - 8) as -> by div_mod_lia. simpl.
    rewrite (Z.testbit_neg_r w0) by lia. rewrite orb_false_r. f_equal. lia.
Qed.

(** C7: for every 16-byte address whose byte 15 carries, in its low 7 bits,
    a prefix length [p] with [0 < p] and [p + 32 <= 128]: when
    [p + 32 + 16 + 7 > 128] the vendor-extension parser returns
    [ErrOutOfRange].  When [p + 32 + 16 + 7 <= 128] it returns what the
    basic parser returns for [p] with a port whose bits, most significant
    first, are the 16 address bits from bit offset [p + 32] on, except that
    the last [p mod 8] of them are zero: off a byte boundary the port loses
    its low bits. *)
Theorem ParseMGTP4IPv6SrcNextMN_port_loses_low_bits (addr : list Z) (b15 : Z) :
  length addr = 16%nat → Forall is_byte addr →
  addr !! 15%nat = Some b15 →
  0 < Z.land b15 0x7F →
  Z.land b15 0x7F + 32 ≤ 128 →
  (Z.land b15 0x7F + 32 + 16 + 7 > 128 →
   ParseMGTP4IPv6SrcNextMN addr = Err ErrOutOfRange) ∧
  (Z.land b15 0x7F + 32 + 16 + 7 ≤ 128 →
   ∃ r port,
     ParseMGTP4IPv6Src addr (Z.land b15 0x7F) = Ok r ∧
     ParseMGTP4IPv6SrcNextMN addr
       = Ok (mkMGTP4IPv6Src (src_prefix r) (src_ipv4 r) port) ∧
     0 ≤ port < 2 ^ 16 ∧
     ∀ k, 0 ≤ k < 16 →
       Z.testbit port (15 - k) =
         if bool_decide (k < 16 - (Z.land b15 0x7F) `mod` 8)
         then bit addr (Z.land b15 0x7F + 32 + k) else false).
Proof.
  intros Hlen Hbytes Hb15 Hpos Hfit.
  destruct (prefixLen_of_byte15 b15) as [HprefixLen Hrange].
  set (p := Z.land b15 0x7F) in *.
  destruct (ParseMGTP4IPv6Src_in_range addr p) as (ipv4 & _ & _ & Hbasic);
    [done..|].
  pose proof (ParseMGTP4IPv6SrcNextMN_byte15 addr b15 Hb15) as Hparse.
  fold p in Hparse.
  rewrite Hparse, Hbasic, bind_Ok. split.
  - intros Hnoroom. by rewrite bool_decide_eq_true_2.
  - intros Hroom. rewrite bool_decide_eq_false_2 by lia.
    destruct (FromIPv6_bits addr (p + 32) 2) as (w & Hw & Hlen2 & Hbits);
      [done|done|lia..|].
    destruct (FromIPv6_is_bytes addr (p + 32) 2) as (w' & Hw' & _ & Hbytes2);
      [done|done|lia..|].
    assert (w' = w) as -> by congruence.
    destruct w as [|w0 [|w1 [|? ?]]];
      try (unfold len in Hlen2; simpl in Hlen2; lia).
    apply Forall_cons_1 in Hbytes2 as [Hw0 Hbytes2].
    apply Forall_cons_1 in Hbytes2 as [Hw1 _].
    exists (mkMGTP4IPv6Src
              (netip.Masked (netip.PrefixFrom (netip.AddrFrom16 addr) p)) ipv4 0),
           (Z.lor w1 (Z.shiftl w0 8)).
    split; [done|]. split; [by rewrite Hw|].
    split; [by apply BigEndian_Uint16_bound|].
    intros k Hk. rewrite bit_BigEndian_Uint16 by done.
    rewrite Hbits by lia.
    assert ((p + 32) `mod` 8 = p `mod` 8) as -> by div_mod_lia.
    reflexivity.
Qed.

Lemma ParseMGTP4IPv6SrcNextMN_port_loses_low_bits_witness :
  let addr :=
    [0x3f; 0xff; 0; 0; 0; 0x65; 0x80; 0x38; 0x80; 0x98; 0x1c; 0x80; 0; 0; 0; 41] in
  (Z.land 41 0x7F + 32 + 16 + 7 > 128 →
   ParseMGTP4IPv6SrcNextMN addr = Err ErrOutOfRange) ∧
  (Z.land 41 0x7F + 32 + 16 + 7 ≤ 128 →
   ∃ r port,
     ParseMGTP4IPv6Src addr (Z.land 41 0x7F) = Ok r ∧
     ParseMGTP4IPv6SrcNextMN addr
       = Ok (mkMGTP4IPv6Src (src_prefix r) (src_ipv4 r) port) ∧
     0 ≤ port < 2 ^ 16 ∧
     ∀ k, 0 ≤ k < 16 →
       Z.testbit port (15 - k) =
         if bool_decide (k < 16 - (Z.land 41 0x7F) `mod` 8)
         then bit addr (Z.land 41 0x7F + 32 + k) else false).
Proof.
  intros addr. apply (ParseMGTP4IPv6SrcNextMN_port_loses_low_bits addr 41).
  - reflexivity.
  - repeat constructor; vm_compute; discriminate.
  - reflexivity.
  - vm_compute. reflexivity.
  - vm_compute. discriminate.
Defined.

(** The source address [3fff::/41], IPv4 [203.0.113.1], port 12345.  Its 16
    marshalled bytes hold the port in bits 73 to 88, bit 88 set; the
    vendor-extension parser reads them back as port 12344 (and the IPv4
    address as [203.0.113.0]). *)
Lemma ParseMGTP4IPv6SrcNextMN_example_unaligned :
  let x := NewMGTP4IPv6Src
             (netip.PrefixFrom (netip.AddrFrom16
                [0x3f; 0xff; 0; 0; 0; 0; 0; 0; 0; 0; 0; 0; 0; 0; 0; 0]) 41)
             [203; 0; 113; 1] 12345 in
  let addr :=
    [0x3f; 0xff; 0; 0; 0; 0x65; 0x80; 0x38; 0x80; 0x98; 0x1c; 0x80; 0; 0; 0; 41] in
  MGTP4IPv6Src_Marshal x = Ok addr ∧
  bit addr 88 = true ∧
  FromIPv6 addr (41 + 32) 2 = Ok [0x30; 0x38] ∧
  ParseMGTP4IPv6SrcNextMN addr
    = Ok (mkMGTP4IPv6Src (src_prefix x) [203; 0; 113; 0] 12344).
Proof. vm_compute. repeat split. Qed.

End port_window.
